(** * HEVC sequence parameter set decoding (hevc/sps.go)

    A shallow embedding of [ParseSPSNALUnit], [parseVUI],
    [parseBitstreamRestrictions], [parseShortTermRPS],
    [readPastScalingListData] and [SPS.ImageSize], together with the
    accumulating-error bit reader they drive.

    Conventions.  Go's [byte], [uint16], [uint32] and [uint] (64 bits) are
    integers in [Z] with the wrap-around of every conversion written out.
    A Go slice is a [list]; indexing is stdpp's lookup, and a lookup out of
    range is the run-time panic [Panic].  The reader is threaded explicitly:
    a computation of type [M A] takes the reader and gives back a value and
    the reader after it, or panics. *)

From Stdlib Require Import ZArith Lia Bool.
From Stdlib Require Strings.Byte.
From stdpp Require Import base list.

Local Open Scope Z_scope.

(** ** Fixed-width integers *)

Definition byte (x : Z) : Z := x mod 256.
Definition uint16 (x : Z) : Z := x mod 2 ^ 16.
Definition uint32 (x : Z) : Z := x mod 2 ^ 32.
Definition uint (x : Z) : Z := x mod 2 ^ 64.

(** ** Error kinds

    The Go errors are values built by [fmt.Errorf]; the embedding keeps
    the kind of each one. *)

Inductive error : Type :=
| Truncated                 (* the byte source ran out *)
| Malformed                 (* "deltaIdx > idx in parseShortTermRPS", or an over-long code *)
| TooManyReferencePictures  (* "more than 16 short term reference pictures" *)
| WrongUnitType             (* "NALU type is ... not SPS" *)
| UnknownAspectRatioIDC.    (* "GetSARFromIDC: ..." *)

(** ** The bit reader *)

(** Modelled from the spec: [bits.AccErrEBSPReader] is not part of the
    source at hand.  Following the data model, the reader owns a byte
    buffer and a bit offset and holds an optional terminal error. *)
Record AccErrEBSPReader : Type := mkReader {
  buf : list Byte.byte;
  pos : Z;
  err : option error
}.

Definition NewAccErrEBSPReader (data : list Byte.byte) : AccErrEBSPReader :=
  {| buf := data; pos := 0; err := None |}.

Definition bitLen (r : AccErrEBSPReader) : Z := 8 * Z.of_nat (length (buf r)).

(** Bit [i] of the buffer, most significant bit of each byte first. *)
Definition bitAt (data : list Byte.byte) (i : Z) : Z :=
  match data !! Z.to_nat (i / 8) with
  | Some b => if Z.testbit (Z.of_N (Byte.to_N b)) (7 - i mod 8) then 1 else 0
  | None => 0
  end.

(** The [n] bits from offset [p] on, appended below [acc]. *)
Fixpoint bitsAt (data : list Byte.byte) (p : Z) (n : nat) (acc : Z) : Z :=
  match n with
  | O => acc
  | S n' => bitsAt data (p + 1) n' (2 * acc + bitAt data p)
  end.

(** ** Computations over the reader *)

Inductive outcome (A : Type) : Type :=
| Done (a : A) (r : AccErrEBSPReader)
| Panic.
Arguments Done {A} a r.
Arguments Panic {A}.

Definition M (A : Type) : Type := AccErrEBSPReader -> outcome A.

Definition ret {A} (a : A) : M A := fun r => Done a r.

Definition bind {A B} (m : M A) (k : A -> M B) : M B :=
  fun r => match m r with
           | Done a r' => k a r'
           | Panic => Panic
           end.

Notation "'let*' x ':=' m 'in' k" := (bind m (fun x => k))
  (at level 10, x pattern, m at level 100, k at level 200).

(** A Go slice index expression [s[i]]. *)
Definition index {A} (s : list A) (i : Z) : M A :=
  fun r => match s !! Z.to_nat i with
           | Some a => Done a r
           | None => Panic
           end.

(** A Go slice assignment [s[i] = v]. *)
Definition store {A} (s : list A) (i : Z) (v : A) : M (list A) :=
  fun r => if decide (Z.to_nat i < length s)%nat
           then Done (<[Z.to_nat i := v]> s) r
           else Panic.

(** [for i := start; i < start + n; i++ { body i }] *)
Fixpoint forRange (n : nat) (i : Z) (body : Z -> M unit) : M unit :=
  match n with
  | O => ret tt
  | S n' => let* _ := body i in forRange n' (i + 1) body
  end.

(** Modelled from the spec: the status query of the reader. *)
Definition AccError : M (option error) := fun r => Done (err r) r.

(** Modelled from the spec: the reader accumulates the first error
    encountered and preserves it, so latching keeps an error that is
    already there. *)
Definition SetError (e : error) : M unit :=
  fun r => match err r with
           | Some _ => Done tt r
           | None => Done tt {| buf := buf r; pos := pos r; err := Some e |}
           end.

(** Modelled from the spec: [readBits(n)] returns the next [n] bits as an
    unsigned integer, most significant bit first; it fails with
    [Truncated] when fewer than [n] bits remain; once the reader has
    failed every read returns 0 and leaves the reader as it is.  The value
    is a Go [uint]. *)
Definition Read (n : nat) : M Z :=
  fun r => match err r with
           | Some _ => Done 0 r
           | None =>
               if pos r + Z.of_nat n <=? bitLen r
               then Done (uint (bitsAt (buf r) (pos r) n 0))
                         {| buf := buf r; pos := pos r + Z.of_nat n; err := None |}
               else Done 0 {| buf := buf r; pos := pos r; err := Some Truncated |}
           end.

(** Modelled from the spec: [readFlag()] is [readBits(1) != 0]. *)
Definition ReadFlag : M bool :=
  let* v := Read 1 in ret (negb (v =? 0)).

(** Modelled from the spec: the bound on the zero run of an Exp-Golomb
    code ("e.g., 32"). *)
Definition maxLeadingZeroBits : nat := 32.

(** Modelled from the spec: count zero bits until a 1 bit; [budget] is
    the number of bits that may still be inspected.  The answer is [None]
    when the reader failed ([Truncated]) or the run is too long
    ([Malformed]). *)
Fixpoint countLeadingZeroBits (budget : nat) (leadingZeroBits : nat) : M (option nat) :=
  match budget with
  | O => let* _ := SetError Malformed in ret None
  | S budget' =>
      let* b := Read 1 in
      let* e := AccError in
      match e with
      | Some _ => ret None
      | None => if b =? 1 then ret (Some leadingZeroBits)
                else countLeadingZeroBits budget' (S leadingZeroBits)
      end
  end.

(** Modelled from the spec: [readExpGolomb()] counts the leading zero
    bits, reads as many suffix bits and returns
    [(1 << leadingZeroBits) - 1 + suffix]; a failed read returns 0. *)
Definition ReadExpGolomb : M Z :=
  let* e := AccError in
  match e with
  | Some _ => ret 0
  | None =>
      let* lz := countLeadingZeroBits (S maxLeadingZeroBits) 0 in
      match lz with
      | None => ret 0
      | Some leadingZeroBits =>
          let* suffix := Read leadingZeroBits in
          let* e' := AccError in
          match e' with
          | Some _ => ret 0
          | None => ret (uint (Z.shiftl 1 (Z.of_nat leadingZeroBits) - 1 + suffix))
          end
      end
  end.

(** Bytes of a test vector, written as numbers. *)
Definition bytesOf (l : list Z) : list Byte.byte :=
  map (fun z => match Byte.of_N (Z.to_N (z mod 256)) with
                | Some b => b
                | None => Byte.x00
                end) l.


(** ** External collaborators

    [GetNaluType] and [NALU_SPS] (package hevc, another file) and
    [avc.ExtendedSAR] and [avc.GetSARfromIDC] (package avc) are used by the
    decoder but are not part of the source at hand; the decoder is
    parameterised by them.  [GetSARfromIDC] gives the two ratio terms and
    whether its error result is non-nil. *)
Class Externals : Type := {
  GetNaluType : Z -> Z;
  NALU_SPS : Z;
  ExtendedSAR : Z;
  GetSARfromIDC : Z -> Z * Z * bool
}.

(** ** Data model (lines 11-131 and 340-352) *)

Record ProfileTierLevel : Type := {
  GeneralProfileSpace : Z;
  GeneralTierFlag : bool;
  GeneralProfileIDC : Z;
  GeneralProfileCompatibilityFlags : Z;
  GeneralConstraintIndicatorFlags : Z;
  GeneralProgressiveSourceFlag : bool;
  GeneralInterlacedSourceFlag : bool;
  GeneralNonPackedConstraintFlag : bool;
  GeneralFrameOnlyConstraintFlag : bool;
  GeneralLevelIDC : Z
}.

Record ConformanceWindow : Type := {
  LeftOffset : Z;
  RightOffset : Z;
  TopOffset : Z;
  BottomOffset : Z
}.

Record SubLayerOrderingInfo : Type := {
  MaxDecPicBufferingMinus1 : Z;
  MaxNumReorderPics : Z;
  MaxLatencyIncreasePlus1 : Z
}.

Record BitstreamRestrictions : Type := {
  TilesFixedStructureFlag : bool;
  MVOverPicBoundariesFlag : bool;
  RestrictedRefsPicsListsFlag : bool;
  MinSpatialSegmentationIDC : Z;
  MaxBytesPerPicDenom : Z;
  MaxBitsPerMinCuDenom : Z;
  Log2MaxMvLengthHorizontal : Z;
  Log2MaxMvLengthVertical : Z
}.

Record VUIParameters : Type := {
  SampleAspectRatioWidth : Z;
  SampleAspectRatioHeight : Z;
  OverscanInfoPresentFlag : bool;
  OverscanAppropriateFlag : bool;
  VideoSignalTypePresentFlag : bool;
  VideoFormat : Z;
  VideoFullRangeFlag : bool;
  ColourDescriptionFlag : bool;
  ColourPrimaries : Z;
  TransferCharacteristics : Z;
  MatrixCoefficients : Z;
  ChromaLocInfoPresentFlag : bool;
  ChromaSampleLocTypeTopField : Z;
  ChromaSampleLocTypeBottomField : Z;
  NeutralChromaIndicationFlag : bool;
  FieldSeqFlag : bool;
  FrameFieldInfoPresentFlag : bool;
  DefaultDisplayWindowFlag : bool;
  DefDispWinLeftOffset : Z;
  DefDispWinRightOffset : Z;
  DefDispWinTopOffset : Z;
  DefDispWinBottomOffset : Z;
  TimingInfoPresentFlag : bool;
  NumUnitsInTick : Z;
  TimeScale : Z;
  PocProportionalToTimingFlag : bool;
  NumTicksPocDiffOneMinus1 : Z;
  HrdParametersPresentFlag : bool;
  BitstreamRestrictionFlag : bool;
  BitstreamResctrictions : option BitstreamRestrictions
}.

Record ShortTermRPS : Type := {
  DeltaPocS0 : list Z;
  DeltaPocS1 : list Z;
  UsedByCurrPicS0 : list bool;
  UsedByCurrPicS1 : list bool;
  NumNegativePics : Z;
  NumPositivePics : Z;
  NumDeltaPocs : Z
}.

Definition maxSTRefPics : Z := 16.

(** The fields [ProfileTierLevel] and [ConformanceWindow] of the Go struct
    carry the names of their types; here they end in an underscore. *)
Record SPS : Type := {
  VpsID : Z;
  MaxSubLayersMinus1 : Z;
  TemporalIDNestingFlag : bool;
  ProfileTierLevel_ : ProfileTierLevel;
  SpsID : Z;
  ChromaFormatIDC : Z;
  SeparateColourPlaneFlag : bool;
  ConformanceWindowFlag : bool;
  PicWidthInLumaSamples : Z;
  PicHeightInLumaSamples : Z;
  ConformanceWindow_ : ConformanceWindow;
  BitDepthLumaMinus8 : Z;
  BitDepthChromaMinus8 : Z;
  Log2MaxPicOrderCntLsbMinus4 : Z;
  SubLayerOrderingInfoPresentFlag : bool;
  SubLayeringOrderingInfos : list SubLayerOrderingInfo;
  Log2MinLumaCodingBlockSizeMinus3 : Z;
  Log2DiffMaxMinLumaCodingBlockSize : Z;
  Log2MinLumaTransformBlockSizeMinus2 : Z;
  Log2DiffMaxMinLumaTransformBlockSize : Z;
  MaxTransformHierarchyDepthInter : Z;
  MaxTransformHierarchyDepthIntra : Z;
  ScalingListEnabledFlag : bool;
  ScalingListDataPresentFlag : bool;
  AmpEnabledFlag : bool;
  SampleAdaptiveOffsetEnabledFlag : bool;
  PCMEnabledFlag : bool;
  PcmSampleBitDepthLumaMinus1 : Z;
  PcmSampleBitDepthChromaMinus1 : Z;
  Log2MinPcmLumaCodingBlockSize : Z;
  Log2DiffMaxMinPcmLumaCodingBlockSize : Z;
  PcmLoopFilterDisabledFlag : bool;
  NumShortTermRefPicSets : Z;
  ShortTermRefPicSets : list ShortTermRPS;
  LongTermRefPicsPresentFlag : bool;
  SpsTemporalMvpEnabledFlag : bool;
  StrongIntraSmoothingEnabledFlag : bool;
  VUIParametersPresentFlag : bool;
  VUI : option VUIParameters
}.

(** Go zero values. *)
Definition zeroProfileTierLevel : ProfileTierLevel :=
  {| GeneralProfileSpace := 0; GeneralTierFlag := false; GeneralProfileIDC := 0;
     GeneralProfileCompatibilityFlags := 0; GeneralConstraintIndicatorFlags := 0;
     GeneralProgressiveSourceFlag := false; GeneralInterlacedSourceFlag := false;
     GeneralNonPackedConstraintFlag := false; GeneralFrameOnlyConstraintFlag := false;
     GeneralLevelIDC := 0 |}.

Definition zeroConformanceWindow : ConformanceWindow :=
  {| LeftOffset := 0; RightOffset := 0; TopOffset := 0; BottomOffset := 0 |}.

Definition zeroShortTermRPS : ShortTermRPS :=
  {| DeltaPocS0 := []; DeltaPocS1 := []; UsedByCurrPicS0 := []; UsedByCurrPicS1 := [];
     NumNegativePics := 0; NumPositivePics := 0; NumDeltaPocs := 0 |}.

(** ** Derived geometry (lines 242-255) *)

Definition ImageSize (s : SPS) : Z * Z :=
  let encWidth := PicWidthInLumaSamples s in
  let encHeight := PicHeightInLumaSamples s in
  let '(subWidthC, subHeightC) :=
    if ChromaFormatIDC s =? 1 then (2, 2)
    else if ChromaFormatIDC s =? 2 then (2, 1)
    else (1, 1) in
  let width :=
    uint32 (encWidth - uint32 (uint32 (LeftOffset (ConformanceWindow_ s)
                                       + RightOffset (ConformanceWindow_ s)) * subWidthC)) in
  let height :=
    uint32 (encHeight - uint32 (uint32 (TopOffset (ConformanceWindow_ s)
                                        + BottomOffset (ConformanceWindow_ s)) * subHeightC)) in
  (width, height).

(** ** Bitstream restrictions (lines 327-338) *)

Definition parseBitstreamRestrictions : M BitstreamRestrictions :=
  let* tilesFixedStructureFlag := ReadFlag in
  let* mvOverPicBoundariesFlag := ReadFlag in
  let* restrictedRefsPicsListsFlag := ReadFlag in
  let* minSpatialSegmentationIDC := ReadExpGolomb in
  let* maxBytesPerPicDenom := ReadExpGolomb in
  let* maxBitsPerMinCuDenom := ReadExpGolomb in
  let* log2MaxMvLengthHorizontal := ReadExpGolomb in
  let* log2MaxMvLengthVertical := ReadExpGolomb in
  ret {| TilesFixedStructureFlag := tilesFixedStructureFlag;
         MVOverPicBoundariesFlag := mvOverPicBoundariesFlag;
         RestrictedRefsPicsListsFlag := restrictedRefsPicsListsFlag;
         MinSpatialSegmentationIDC := minSpatialSegmentationIDC;
         MaxBytesPerPicDenom := maxBytesPerPicDenom;
         MaxBitsPerMinCuDenom := maxBitsPerMinCuDenom;
         Log2MaxMvLengthHorizontal := log2MaxMvLengthHorizontal;
         Log2MaxMvLengthVertical := log2MaxMvLengthVertical |}.

(** ** VUI (lines 257-325) *)

(** Lines 260-304: every field before the timing information.  The fields
    assigned later are still at their zero values. *)
Definition parseVUIBeforeTiming `{Externals} : M VUIParameters :=
  let* aspectRatioInfoPresentFlag := ReadFlag in
  let* (sarWidth, sarHeight) :=
    (if aspectRatioInfoPresentFlag : bool then
       let* aspectRatioIDC := Read 8 in
       if aspectRatioIDC =? ExtendedSAR then
         let* w := Read 16 in
         let* h := Read 16 in
         ret (w, h)
       else
         let '(w, h, failed) := GetSARfromIDC aspectRatioIDC in
         let* _ := (if failed : bool then SetError UnknownAspectRatioIDC else ret tt) in
         ret (w, h)
     else ret (0, 0)) in
  let* overscanInfoPresentFlag := ReadFlag in
  let* overscanAppropriateFlag :=
    (if overscanInfoPresentFlag : bool then ReadFlag else ret false) in
  let* videoSignalTypePresentFlag := ReadFlag in
  let* (videoFormat, videoFullRangeFlag, colourDescriptionFlag, colour) :=
    (if videoSignalTypePresentFlag : bool then
       let* vf := Read 3 in
       let* full := ReadFlag in
       let* cd := ReadFlag in
       let* colour :=
         (if cd : bool then
            let* cp := Read 8 in
            let* tc := Read 8 in
            let* mc := Read 8 in
            ret (byte cp, byte tc, byte mc)
          else ret (0, 0, 0)) in
       ret (byte vf, full, cd, colour)
     else ret (0, false, false, (0, 0, 0))) in
  let '(colourPrimaries, transferCharacteristics, matrixCoefficients) := colour in
  let* chromaLocInfoPresentFlag := ReadFlag in
  let* (chromaTop, chromaBottom) :=
    (if chromaLocInfoPresentFlag : bool then
       let* t := ReadExpGolomb in
       let* b := ReadExpGolomb in
       ret (t, b)
     else ret (0, 0)) in
  let* neutralChromaIndicationFlag := ReadFlag in
  let* fieldSeqFlag := ReadFlag in
  let* frameFieldInfoPresentFlag := ReadFlag in
  let* defaultDisplayWindowFlag := ReadFlag in
  let* (ddwLeft, ddwRight, ddwTop, ddwBottom) :=
    (if defaultDisplayWindowFlag : bool then
       let* l := ReadExpGolomb in
       let* r := ReadExpGolomb in
       let* t := ReadExpGolomb in
       let* b := ReadExpGolomb in
       ret (l, r, t, b)
     else ret (0, 0, 0, 0)) in
  ret {| SampleAspectRatioWidth := sarWidth;
         SampleAspectRatioHeight := sarHeight;
         OverscanInfoPresentFlag := overscanInfoPresentFlag;
         OverscanAppropriateFlag := overscanAppropriateFlag;
         VideoSignalTypePresentFlag := videoSignalTypePresentFlag;
         VideoFormat := videoFormat;
         VideoFullRangeFlag := videoFullRangeFlag;
         ColourDescriptionFlag := colourDescriptionFlag;
         ColourPrimaries := colourPrimaries;
         TransferCharacteristics := transferCharacteristics;
         MatrixCoefficients := matrixCoefficients;
         ChromaLocInfoPresentFlag := chromaLocInfoPresentFlag;
         ChromaSampleLocTypeTopField := chromaTop;
         ChromaSampleLocTypeBottomField := chromaBottom;
         NeutralChromaIndicationFlag := neutralChromaIndicationFlag;
         FieldSeqFlag := fieldSeqFlag;
         FrameFieldInfoPresentFlag := frameFieldInfoPresentFlag;
         DefaultDisplayWindowFlag := defaultDisplayWindowFlag;
         DefDispWinLeftOffset := ddwLeft;
         DefDispWinRightOffset := ddwRight;
         DefDispWinTopOffset := ddwTop;
         DefDispWinBottomOffset := ddwBottom;
         TimingInfoPresentFlag := false;
         NumUnitsInTick := 0;
         TimeScale := 0;
         PocProportionalToTimingFlag := false;
         NumTicksPocDiffOneMinus1 := 0;
         HrdParametersPresentFlag := false;
         BitstreamRestrictionFlag := false;
         BitstreamResctrictions := None |}.

(** The assignments of lines 305-313 to the record built so far. *)
Definition setTimingInfo (vui : VUIParameters)
    (timingInfoPresentFlag : bool) (numUnitsInTick timeScale : Z)
    (pocProportionalToTimingFlag : bool) (numTicksPocDiffOneMinus1 : Z)
    (hrdParametersPresentFlag : bool) : VUIParameters :=
  {| SampleAspectRatioWidth := SampleAspectRatioWidth vui;
     SampleAspectRatioHeight := SampleAspectRatioHeight vui;
     OverscanInfoPresentFlag := OverscanInfoPresentFlag vui;
     OverscanAppropriateFlag := OverscanAppropriateFlag vui;
     VideoSignalTypePresentFlag := VideoSignalTypePresentFlag vui;
     VideoFormat := VideoFormat vui;
     VideoFullRangeFlag := VideoFullRangeFlag vui;
     ColourDescriptionFlag := ColourDescriptionFlag vui;
     ColourPrimaries := ColourPrimaries vui;
     TransferCharacteristics := TransferCharacteristics vui;
     MatrixCoefficients := MatrixCoefficients vui;
     ChromaLocInfoPresentFlag := ChromaLocInfoPresentFlag vui;
     ChromaSampleLocTypeTopField := ChromaSampleLocTypeTopField vui;
     ChromaSampleLocTypeBottomField := ChromaSampleLocTypeBottomField vui;
     NeutralChromaIndicationFlag := NeutralChromaIndicationFlag vui;
     FieldSeqFlag := FieldSeqFlag vui;
     FrameFieldInfoPresentFlag := FrameFieldInfoPresentFlag vui;
     DefaultDisplayWindowFlag := DefaultDisplayWindowFlag vui;
     DefDispWinLeftOffset := DefDispWinLeftOffset vui;
     DefDispWinRightOffset := DefDispWinRightOffset vui;
     DefDispWinTopOffset := DefDispWinTopOffset vui;
     DefDispWinBottomOffset := DefDispWinBottomOffset vui;
     TimingInfoPresentFlag := timingInfoPresentFlag;
     NumUnitsInTick := numUnitsInTick;
     TimeScale := timeScale;
     PocProportionalToTimingFlag := pocProportionalToTimingFlag;
     NumTicksPocDiffOneMinus1 := numTicksPocDiffOneMinus1;
     HrdParametersPresentFlag := hrdParametersPresentFlag;
     BitstreamRestrictionFlag := BitstreamRestrictionFlag vui;
     BitstreamResctrictions := BitstreamResctrictions vui |}.

(** The assignments of lines 319-322 to the record built so far. *)
Definition setBitstreamRestriction (vui : VUIParameters)
    (bitstreamRestrictionFlag : bool) (br : option BitstreamRestrictions) : VUIParameters :=
  {| SampleAspectRatioWidth := SampleAspectRatioWidth vui;
     SampleAspectRatioHeight := SampleAspectRatioHeight vui;
     OverscanInfoPresentFlag := OverscanInfoPresentFlag vui;
     OverscanAppropriateFlag := OverscanAppropriateFlag vui;
     VideoSignalTypePresentFlag := VideoSignalTypePresentFlag vui;
     VideoFormat := VideoFormat vui;
     VideoFullRangeFlag := VideoFullRangeFlag vui;
     ColourDescriptionFlag := ColourDescriptionFlag vui;
     ColourPrimaries := ColourPrimaries vui;
     TransferCharacteristics := TransferCharacteristics vui;
     MatrixCoefficients := MatrixCoefficients vui;
     ChromaLocInfoPresentFlag := ChromaLocInfoPresentFlag vui;
     ChromaSampleLocTypeTopField := ChromaSampleLocTypeTopField vui;
     ChromaSampleLocTypeBottomField := ChromaSampleLocTypeBottomField vui;
     NeutralChromaIndicationFlag := NeutralChromaIndicationFlag vui;
     FieldSeqFlag := FieldSeqFlag vui;
     FrameFieldInfoPresentFlag := FrameFieldInfoPresentFlag vui;
     DefaultDisplayWindowFlag := DefaultDisplayWindowFlag vui;
     DefDispWinLeftOffset := DefDispWinLeftOffset vui;
     DefDispWinRightOffset := DefDispWinRightOffset vui;
     DefDispWinTopOffset := DefDispWinTopOffset vui;
     DefDispWinBottomOffset := DefDispWinBottomOffset vui;
     TimingInfoPresentFlag := TimingInfoPresentFlag vui;
     NumUnitsInTick := NumUnitsInTick vui;
     TimeScale := TimeScale vui;
     PocProportionalToTimingFlag := PocProportionalToTimingFlag vui;
     NumTicksPocDiffOneMinus1 := NumTicksPocDiffOneMinus1 vui;
     HrdParametersPresentFlag := HrdParametersPresentFlag vui;
     BitstreamRestrictionFlag := bitstreamRestrictionFlag;
     BitstreamResctrictions := br |}.

(** Lines 319-324: the code after the timing block. *)
Definition parseVUIAfterTiming (vui : VUIParameters) : M VUIParameters :=
  let* bitstreamRestrictionFlag := ReadFlag in
  if bitstreamRestrictionFlag : bool then
    let* br := parseBitstreamRestrictions in
    ret (setBitstreamRestriction vui true (Some br))
  else ret (setBitstreamRestriction vui false None).

(** Lines 259-325.  The [return vui] of line 316 leaves the function
    before the code of lines 319-324. *)
Definition parseVUI `{Externals} : M VUIParameters :=
  let* vui := parseVUIBeforeTiming in
  let* timingInfoPresentFlag := ReadFlag in
  if timingInfoPresentFlag : bool then
    let* numUnitsInTick := Read 32 in
    let* timeScale := Read 32 in
    let* pocProportionalToTimingFlag := ReadFlag in
    let* numTicksPocDiffOneMinus1 :=
      (if pocProportionalToTimingFlag : bool then ReadExpGolomb else ret 0) in
    let* hrdParametersPresentFlag := ReadFlag in
    let vui := setTimingInfo vui true numUnitsInTick timeScale
                 pocProportionalToTimingFlag numTicksPocDiffOneMinus1
                 hrdParametersPresentFlag in
    if hrdParametersPresentFlag : bool then ret vui
    else parseVUIAfterTiming vui
  else parseVUIAfterTiming vui.

(** ** Short-term reference picture sets (lines 354-411) *)

(** Lines 378-387: the loop over the delta POCs of the referenced set;
    [numDeltaPocs] is [stps.NumDeltaPocs], a byte. *)
Fixpoint countDeltaPocs (n : nat) (numDeltaPocs : Z) : M Z :=
  match n with
  | O => ret numDeltaPocs
  | S n' =>
      let* usedByCurrPicFlag := ReadFlag in
      let* useDeltaFlag := (if negb usedByCurrPicFlag then ReadFlag else ret false) in
      countDeltaPocs n'
        (if usedByCurrPicFlag || useDeltaFlag then byte (numDeltaPocs + 1) else numDeltaPocs)
  end.

(** Lines 398-401 and 404-407: [n] more iterations from index [i] on, over
    the two slices made before the loop. *)
Fixpoint readDeltaPocs (n : nat) (i : Z) (deltaPoc : list Z) (usedByCurrPic : list bool)
    : M (list Z * list bool) :=
  match n with
  | O => ret (deltaPoc, usedByCurrPic)
  | S n' =>
      let* v := ReadExpGolomb in
      let* deltaPoc := store deltaPoc i (uint32 (uint (v + 1))) in
      let* f := ReadFlag in
      let* usedByCurrPic := store usedByCurrPic i f in
      readDeltaPocs n' (i + 1) deltaPoc usedByCurrPic
  end.

(** Lines 359-363. *)
Definition readInterRPSPredFlag (idx : Z) : M bool :=
  if 0 <? idx then ReadFlag else ret false.

Definition parseShortTermRPS (idx numSTRefPicSets : Z) (sps : SPS) : M ShortTermRPS :=
  let* interRPSPredFlag := readInterRPSPredFlag idx in
  if interRPSPredFlag : bool then
    let* deltaIdx :=
      (if idx =? numSTRefPicSets then
         let* deltaIdxMinus1 := ReadExpGolomb in ret (byte (uint (deltaIdxMinus1 + 1)))
       else ret 1) in
    let* _ := (if idx <? deltaIdx then SetError Malformed else ret tt) in
    let* _ := Read 1 in
    let* _ := ReadExpGolomb in
    let refIdx := byte (idx - deltaIdx) in
    let* ref := index (ShortTermRefPicSets sps) refIdx in
    let numDeltaPocs := NumDeltaPocs ref in
    let* n := countDeltaPocs (Z.to_nat numDeltaPocs) 0 in
    ret {| DeltaPocS0 := []; DeltaPocS1 := [];
           UsedByCurrPicS0 := []; UsedByCurrPicS1 := [];
           NumNegativePics := 0; NumPositivePics := 0; NumDeltaPocs := n |}
  else
    let* numNegativePics := ReadExpGolomb in
    let* numPositivePics := ReadExpGolomb in
    let numNegativePics := byte numNegativePics in
    let numPositivePics := byte numPositivePics in
    if (maxSTRefPics <? numNegativePics) || (maxSTRefPics <? numPositivePics) then
      let* _ := SetError TooManyReferencePictures in
      ret {| DeltaPocS0 := []; DeltaPocS1 := [];
             UsedByCurrPicS0 := []; UsedByCurrPicS1 := [];
             NumNegativePics := numNegativePics; NumPositivePics := numPositivePics;
             NumDeltaPocs := 0 |}
    else
      let numDeltaPocs := byte (numNegativePics + numPositivePics) in
      let* (deltaPocS0, usedByCurrPicS0) :=
        readDeltaPocs (Z.to_nat numNegativePics) 0
          (replicate (Z.to_nat numNegativePics) 0)
          (replicate (Z.to_nat numNegativePics) false) in
      let* (deltaPocS1, usedByCurrPicS1) :=
        readDeltaPocs (Z.to_nat numPositivePics) 0
          (replicate (Z.to_nat numPositivePics) 0)
          (replicate (Z.to_nat numPositivePics) false) in
      ret {| DeltaPocS0 := deltaPocS0; DeltaPocS1 := deltaPocS1;
             UsedByCurrPicS0 := usedByCurrPicS0; UsedByCurrPicS1 := usedByCurrPicS1;
             NumNegativePics := numNegativePics; NumPositivePics := numPositivePics;
             NumDeltaPocs := numDeltaPocs |}.

(** ** Scaling list data (lines 413-442) *)

(** Lines 421-439, the body of the inner loop.  Line 431 reads
    [_ = r.ReadExpGolomb]: the method is named but not called, so the
    statement reads nothing. *)
Definition readPastScalingList (sizeId : Z) : M unit :=
  let* flag := ReadFlag in
  if negb flag then
    let* _ := ReadExpGolomb in ret tt
  else
    let coefNum := Z.shiftl 1 (4 + Z.shiftl sizeId 1) in
    let coefNum := if 64 <? coefNum then 64 else coefNum in
    let* _ := (if 1 <? sizeId then ret tt else ret tt) in
    forRange (Z.to_nat coefNum) 0 (fun _ => let* _ := ReadExpGolomb in ret tt).

Definition readPastScalingListData : M unit :=
  forRange 4 0 (fun sizeId =>
    let nrMatrixIds := if sizeId =? 3 then 2%nat else 6%nat in
    forRange nrMatrixIds 0 (fun _ => readPastScalingList sizeId)).

(** The routine as section 4.4 of the specification words it, for
    comparison: with the prediction-mode flag set and [sizeId > 1], a
    DC-coefficient-minus-8 value is read before the delta coefficients. *)
Definition specReadPastScalingList (sizeId : Z) : M unit :=
  let* flag := ReadFlag in
  if negb flag then
    let* _ := ReadExpGolomb in ret tt
  else
    let* _ := (if 1 <? sizeId then let* _ := ReadExpGolomb in ret tt else ret tt) in
    forRange (Z.to_nat (Z.min 64 (Z.shiftl 1 (4 + 2 * sizeId)))) 0
      (fun _ => let* _ := ReadExpGolomb in ret tt).

Definition specReadPastScalingListData : M unit :=
  forRange 4 0 (fun sizeId =>
    let nrMatrixIds := if sizeId =? 3 then 2%nat else 6%nat in
    forRange nrMatrixIds 0 (fun _ => specReadPastScalingList sizeId)).

(** ** The SPS decode (lines 133-240) *)

(** [sps := &SPS{}] with the assignments of lines 147-155. *)
Definition spsAfterProfileTierLevel (vpsID maxSubLayersMinus1 : Z)
    (temporalIDNestingFlag : bool) (ptl : ProfileTierLevel) : SPS :=
  {| VpsID := vpsID;
     MaxSubLayersMinus1 := maxSubLayersMinus1;
     TemporalIDNestingFlag := temporalIDNestingFlag;
     ProfileTierLevel_ := ptl;
     SpsID := 0;
     ChromaFormatIDC := 0;
     SeparateColourPlaneFlag := false;
     ConformanceWindowFlag := false;
     PicWidthInLumaSamples := 0;
     PicHeightInLumaSamples := 0;
     ConformanceWindow_ := zeroConformanceWindow;
     BitDepthLumaMinus8 := 0;
     BitDepthChromaMinus8 := 0;
     Log2MaxPicOrderCntLsbMinus4 := 0;
     SubLayerOrderingInfoPresentFlag := false;
     SubLayeringOrderingInfos := [];
     Log2MinLumaCodingBlockSizeMinus3 := 0;
     Log2DiffMaxMinLumaCodingBlockSize := 0;
     Log2MinLumaTransformBlockSizeMinus2 := 0;
     Log2DiffMaxMinLumaTransformBlockSize := 0;
     MaxTransformHierarchyDepthInter := 0;
     MaxTransformHierarchyDepthIntra := 0;
     ScalingListEnabledFlag := false;
     ScalingListDataPresentFlag := false;
     AmpEnabledFlag := false;
     SampleAdaptiveOffsetEnabledFlag := false;
     PCMEnabledFlag := false;
     PcmSampleBitDepthLumaMinus1 := 0;
     PcmSampleBitDepthChromaMinus1 := 0;
     Log2MinPcmLumaCodingBlockSize := 0;
     Log2DiffMaxMinPcmLumaCodingBlockSize := 0;
     PcmLoopFilterDisabledFlag := false;
     NumShortTermRefPicSets := 0;
     ShortTermRefPicSets := [];
     LongTermRefPicsPresentFlag := false;
     SpsTemporalMvpEnabledFlag := false;
     StrongIntraSmoothingEnabledFlag := false;
     VUIParametersPresentFlag := false;
     VUI := None |}.

(** Lines 183-191: [n] iterations, each appending one entry. *)
Fixpoint readSubLayerOrderingInfos (n : nat) (infos : list SubLayerOrderingInfo)
    : M (list SubLayerOrderingInfo) :=
  match n with
  | O => ret infos
  | S n' =>
      let* maxDecPicBufferingMinus1 := ReadExpGolomb in
      let* maxNumReorderPics := ReadExpGolomb in
      let* maxLatencyIncreasePlus1 := ReadExpGolomb in
      readSubLayerOrderingInfos n'
        (infos ++ [ {| MaxDecPicBufferingMinus1 := byte maxDecPicBufferingMinus1;
                       MaxNumReorderPics := byte maxNumReorderPics;
                       MaxLatencyIncreasePlus1 := byte maxLatencyIncreasePlus1 |} ])
  end.

(** Lines 159-215: the fields from [SpsID] to [NumShortTermRefPicSets]. *)
Definition parseSPSFields (sps : SPS) : M SPS :=
  let* spsID := ReadExpGolomb in
  let* chromaFormatIDC := ReadExpGolomb in
  let chromaFormatIDC := byte chromaFormatIDC in
  let* separateColourPlaneFlag :=
    (if chromaFormatIDC =? 3 then ReadFlag else ret false) in
  let* picWidthInLumaSamples := ReadExpGolomb in
  let* picHeightInLumaSamples := ReadExpGolomb in
  let* conformanceWindowFlag := ReadFlag in
  let* conformanceWindow :=
    (if conformanceWindowFlag : bool then
       let* leftOffset := ReadExpGolomb in
       let* rightOffset := ReadExpGolomb in
       let* topOffset := ReadExpGolomb in
       let* bottomOffset := ReadExpGolomb in
       ret {| LeftOffset := uint32 leftOffset; RightOffset := uint32 rightOffset;
              TopOffset := uint32 topOffset; BottomOffset := uint32 bottomOffset |}
     else ret zeroConformanceWindow) in
  let* bitDepthLumaMinus8 := ReadExpGolomb in
  let* bitDepthChromaMinus8 := ReadExpGolomb in
  let* log2MaxPicOrderCntLsbMinus4 := ReadExpGolomb in
  let* subLayerOrderingInfoPresentFlag := ReadFlag in
  let startValue :=
    if subLayerOrderingInfoPresentFlag : bool then 0 else MaxSubLayersMinus1 sps in
  let* subLayeringOrderingInfos :=
    readSubLayerOrderingInfos (Z.to_nat (MaxSubLayersMinus1 sps - startValue + 1)) [] in
  let* log2MinLumaCodingBlockSizeMinus3 := ReadExpGolomb in
  let* log2DiffMaxMinLumaCodingBlockSize := ReadExpGolomb in
  let* log2MinLumaTransformBlockSizeMinus2 := ReadExpGolomb in
  let* log2DiffMaxMinLumaTransformBlockSize := ReadExpGolomb in
  let* maxTransformHierarchyDepthInter := ReadExpGolomb in
  let* maxTransformHierarchyDepthIntra := ReadExpGolomb in
  let* scalingListEnabledFlag := ReadFlag in
  let* scalingListDataPresentFlag :=
    (if scalingListEnabledFlag : bool then
       let* present := ReadFlag in
       let* _ := (if present : bool then readPastScalingListData else ret tt) in
       ret present
     else ret false) in
  let* ampEnabledFlag := ReadFlag in
  let* sampleAdaptiveOffsetEnabledFlag := ReadFlag in
  let* pcmEnabledFlag := ReadFlag in
  let* (pcmDepths, pcmSizes, pcmLoopFilterDisabledFlag) :=
    (if pcmEnabledFlag : bool then
       let* depthLuma := Read 4 in
       let* depthChroma := Read 4 in
       let* minSize := ReadExpGolomb in
       let* diffSize := ReadExpGolomb in
       let* disabled := ReadFlag in
       ret ((byte depthLuma, byte depthChroma), (uint16 minSize, uint16 diffSize), disabled)
     else ret ((0, 0), (0, 0), false)) in
  let* numShortTermRefPicSets := ReadExpGolomb in
  ret {| VpsID := VpsID sps;
         MaxSubLayersMinus1 := MaxSubLayersMinus1 sps;
         TemporalIDNestingFlag := TemporalIDNestingFlag sps;
         ProfileTierLevel_ := ProfileTierLevel_ sps;
         SpsID := byte spsID;
         ChromaFormatIDC := chromaFormatIDC;
         SeparateColourPlaneFlag := separateColourPlaneFlag;
         ConformanceWindowFlag := conformanceWindowFlag;
         PicWidthInLumaSamples := uint32 picWidthInLumaSamples;
         PicHeightInLumaSamples := uint32 picHeightInLumaSamples;
         ConformanceWindow_ := conformanceWindow;
         BitDepthLumaMinus8 := byte bitDepthLumaMinus8;
         BitDepthChromaMinus8 := byte bitDepthChromaMinus8;
         Log2MaxPicOrderCntLsbMinus4 := byte log2MaxPicOrderCntLsbMinus4;
         SubLayerOrderingInfoPresentFlag := subLayerOrderingInfoPresentFlag;
         SubLayeringOrderingInfos := subLayeringOrderingInfos;
         Log2MinLumaCodingBlockSizeMinus3 := byte log2MinLumaCodingBlockSizeMinus3;
         Log2DiffMaxMinLumaCodingBlockSize := byte log2DiffMaxMinLumaCodingBlockSize;
         Log2MinLumaTransformBlockSizeMinus2 := byte log2MinLumaTransformBlockSizeMinus2;
         Log2DiffMaxMinLumaTransformBlockSize := byte log2DiffMaxMinLumaTransformBlockSize;
         MaxTransformHierarchyDepthInter := byte maxTransformHierarchyDepthInter;
         MaxTransformHierarchyDepthIntra := byte maxTransformHierarchyDepthIntra;
         ScalingListEnabledFlag := scalingListEnabledFlag;
         ScalingListDataPresentFlag := scalingListDataPresentFlag;
         AmpEnabledFlag := ampEnabledFlag;
         SampleAdaptiveOffsetEnabledFlag := sampleAdaptiveOffsetEnabledFlag;
         PCMEnabledFlag := pcmEnabledFlag;
         PcmSampleBitDepthLumaMinus1 := fst pcmDepths;
         PcmSampleBitDepthChromaMinus1 := snd pcmDepths;
         Log2MinPcmLumaCodingBlockSize := fst pcmSizes;
         Log2DiffMaxMinPcmLumaCodingBlockSize := snd pcmSizes;
         PcmLoopFilterDisabledFlag := pcmLoopFilterDisabledFlag;
         NumShortTermRefPicSets := byte numShortTermRefPicSets;
         ShortTermRefPicSets := ShortTermRefPicSets sps;
         LongTermRefPicsPresentFlag := LongTermRefPicsPresentFlag sps;
         SpsTemporalMvpEnabledFlag := SpsTemporalMvpEnabledFlag sps;
         StrongIntraSmoothingEnabledFlag := StrongIntraSmoothingEnabledFlag sps;
         VUIParametersPresentFlag := VUIParametersPresentFlag sps;
         VUI := VUI sps |}.

(** [sps.ShortTermRefPicSets = append(sps.ShortTermRefPicSets, stps)] *)
Definition appendShortTermRPS (sps : SPS) (stps : ShortTermRPS) : SPS :=
  {| VpsID := VpsID sps;
     MaxSubLayersMinus1 := MaxSubLayersMinus1 sps;
     TemporalIDNestingFlag := TemporalIDNestingFlag sps;
     ProfileTierLevel_ := ProfileTierLevel_ sps;
     SpsID := SpsID sps;
     ChromaFormatIDC := ChromaFormatIDC sps;
     SeparateColourPlaneFlag := SeparateColourPlaneFlag sps;
     ConformanceWindowFlag := ConformanceWindowFlag sps;
     PicWidthInLumaSamples := PicWidthInLumaSamples sps;
     PicHeightInLumaSamples := PicHeightInLumaSamples sps;
     ConformanceWindow_ := ConformanceWindow_ sps;
     BitDepthLumaMinus8 := BitDepthLumaMinus8 sps;
     BitDepthChromaMinus8 := BitDepthChromaMinus8 sps;
     Log2MaxPicOrderCntLsbMinus4 := Log2MaxPicOrderCntLsbMinus4 sps;
     SubLayerOrderingInfoPresentFlag := SubLayerOrderingInfoPresentFlag sps;
     SubLayeringOrderingInfos := SubLayeringOrderingInfos sps;
     Log2MinLumaCodingBlockSizeMinus3 := Log2MinLumaCodingBlockSizeMinus3 sps;
     Log2DiffMaxMinLumaCodingBlockSize := Log2DiffMaxMinLumaCodingBlockSize sps;
     Log2MinLumaTransformBlockSizeMinus2 := Log2MinLumaTransformBlockSizeMinus2 sps;
     Log2DiffMaxMinLumaTransformBlockSize := Log2DiffMaxMinLumaTransformBlockSize sps;
     MaxTransformHierarchyDepthInter := MaxTransformHierarchyDepthInter sps;
     MaxTransformHierarchyDepthIntra := MaxTransformHierarchyDepthIntra sps;
     ScalingListEnabledFlag := ScalingListEnabledFlag sps;
     ScalingListDataPresentFlag := ScalingListDataPresentFlag sps;
     AmpEnabledFlag := AmpEnabledFlag sps;
     SampleAdaptiveOffsetEnabledFlag := SampleAdaptiveOffsetEnabledFlag sps;
     PCMEnabledFlag := PCMEnabledFlag sps;
     PcmSampleBitDepthLumaMinus1 := PcmSampleBitDepthLumaMinus1 sps;
     PcmSampleBitDepthChromaMinus1 := PcmSampleBitDepthChromaMinus1 sps;
     Log2MinPcmLumaCodingBlockSize := Log2MinPcmLumaCodingBlockSize sps;
     Log2DiffMaxMinPcmLumaCodingBlockSize := Log2DiffMaxMinPcmLumaCodingBlockSize sps;
     PcmLoopFilterDisabledFlag := PcmLoopFilterDisabledFlag sps;
     NumShortTermRefPicSets := NumShortTermRefPicSets sps;
     ShortTermRefPicSets := ShortTermRefPicSets sps ++ [stps];
     LongTermRefPicsPresentFlag := LongTermRefPicsPresentFlag sps;
     SpsTemporalMvpEnabledFlag := SpsTemporalMvpEnabledFlag sps;
     StrongIntraSmoothingEnabledFlag := StrongIntraSmoothingEnabledFlag sps;
     VUIParametersPresentFlag := VUIParametersPresentFlag sps;
     VUI := VUI sps |}.

(** How the loop of lines 216-221 is left: by its condition, or by the
    [return sps, r.AccError()] of line 219. *)
Inductive loopExit : Type :=
| LoopDone (sps : SPS)
| LoopReturn (sps : SPS) (e : error).

(** Lines 216-221: [n] more iterations from index [idx] on. *)
Fixpoint parseShortTermRefPicSets (n : nat) (idx : Z) (sps : SPS) : M loopExit :=
  match n with
  | O => ret (LoopDone sps)
  | S n' =>
      let* stps := parseShortTermRPS idx (NumShortTermRefPicSets sps) sps in
      let sps := appendShortTermRPS sps stps in
      let* e := AccError in
      match e with
      | Some e => ret (LoopReturn sps e)
      | None => parseShortTermRefPicSets n' (byte (idx + 1)) sps
      end
  end.

(** The assignments of lines 223-237 to the record built so far. *)
Definition setTrailingFields (sps : SPS) (longTermRefPicsPresentFlag
    spsTemporalMvpEnabledFlag strongIntraSmoothingEnabledFlag
    vuiParametersPresentFlag : bool) (vui : option VUIParameters) : SPS :=
  {| VpsID := VpsID sps;
     MaxSubLayersMinus1 := MaxSubLayersMinus1 sps;
     TemporalIDNestingFlag := TemporalIDNestingFlag sps;
     ProfileTierLevel_ := ProfileTierLevel_ sps;
     SpsID := SpsID sps;
     ChromaFormatIDC := ChromaFormatIDC sps;
     SeparateColourPlaneFlag := SeparateColourPlaneFlag sps;
     ConformanceWindowFlag := ConformanceWindowFlag sps;
     PicWidthInLumaSamples := PicWidthInLumaSamples sps;
     PicHeightInLumaSamples := PicHeightInLumaSamples sps;
     ConformanceWindow_ := ConformanceWindow_ sps;
     BitDepthLumaMinus8 := BitDepthLumaMinus8 sps;
     BitDepthChromaMinus8 := BitDepthChromaMinus8 sps;
     Log2MaxPicOrderCntLsbMinus4 := Log2MaxPicOrderCntLsbMinus4 sps;
     SubLayerOrderingInfoPresentFlag := SubLayerOrderingInfoPresentFlag sps;
     SubLayeringOrderingInfos := SubLayeringOrderingInfos sps;
     Log2MinLumaCodingBlockSizeMinus3 := Log2MinLumaCodingBlockSizeMinus3 sps;
     Log2DiffMaxMinLumaCodingBlockSize := Log2DiffMaxMinLumaCodingBlockSize sps;
     Log2MinLumaTransformBlockSizeMinus2 := Log2MinLumaTransformBlockSizeMinus2 sps;
     Log2DiffMaxMinLumaTransformBlockSize := Log2DiffMaxMinLumaTransformBlockSize sps;
     MaxTransformHierarchyDepthInter := MaxTransformHierarchyDepthInter sps;
     MaxTransformHierarchyDepthIntra := MaxTransformHierarchyDepthIntra sps;
     ScalingListEnabledFlag := ScalingListEnabledFlag sps;
     ScalingListDataPresentFlag := ScalingListDataPresentFlag sps;
     AmpEnabledFlag := AmpEnabledFlag sps;
     SampleAdaptiveOffsetEnabledFlag := SampleAdaptiveOffsetEnabledFlag sps;
     PCMEnabledFlag := PCMEnabledFlag sps;
     PcmSampleBitDepthLumaMinus1 := PcmSampleBitDepthLumaMinus1 sps;
     PcmSampleBitDepthChromaMinus1 := PcmSampleBitDepthChromaMinus1 sps;
     Log2MinPcmLumaCodingBlockSize := Log2MinPcmLumaCodingBlockSize sps;
     Log2DiffMaxMinPcmLumaCodingBlockSize := Log2DiffMaxMinPcmLumaCodingBlockSize sps;
     PcmLoopFilterDisabledFlag := PcmLoopFilterDisabledFlag sps;
     NumShortTermRefPicSets := NumShortTermRefPicSets sps;
     ShortTermRefPicSets := ShortTermRefPicSets sps;
     LongTermRefPicsPresentFlag := longTermRefPicsPresentFlag;
     SpsTemporalMvpEnabledFlag := spsTemporalMvpEnabledFlag;
     StrongIntraSmoothingEnabledFlag := strongIntraSmoothingEnabledFlag;
     VUIParametersPresentFlag := vuiParametersPresentFlag;
     VUI := vui |}.

(** Lines 223-239: the code after the loop. *)
Definition parseSPSTrailer `{Externals} (sps : SPS) : M (option SPS * option error) :=
  let* longTermRefPicsPresentFlag := ReadFlag in
  let* _ :=
    (if longTermRefPicsPresentFlag : bool then
       let* numLongTermRefPics := ReadExpGolomb in
       forRange (Z.to_nat numLongTermRefPics) 0 (fun _ =>
         let* _ := Read (Z.to_nat (byte (Log2MaxPicOrderCntLsbMinus4 sps + 4))) in
         let* _ := ReadFlag in
         ret tt)
     else ret tt) in
  let* spsTemporalMvpEnabledFlag := ReadFlag in
  let* strongIntraSmoothingEnabledFlag := ReadFlag in
  let* vuiParametersPresentFlag := ReadFlag in
  let* vui :=
    (if vuiParametersPresentFlag : bool then
       let* vui := parseVUI in ret (Some vui)
     else ret None) in
  let* e := AccError in
  ret (Some (setTrailingFields sps longTermRefPicsPresentFlag spsTemporalMvpEnabledFlag
               strongIntraSmoothingEnabledFlag vuiParametersPresentFlag vui), e).

(** Lines 147-155: [sps := &SPS{}] filled up to the profile, tier and
    level. *)
Definition parseSPSHeader : M SPS :=
  let* vpsID := Read 4 in
  let* maxSubLayersMinus1 := Read 3 in
  let* temporalIDNestingFlag := ReadFlag in
  let* generalProfileSpace := Read 2 in
  let* generalTierFlag := ReadFlag in
  let* generalProfileIDC := Read 5 in
  let* generalProfileCompatibilityFlags := Read 32 in
  let* generalConstraintIndicatorFlags := Read 48 in
  let* generalLevelIDC := Read 8 in
  ret (spsAfterProfileTierLevel (byte vpsID) (byte maxSubLayersMinus1)
         temporalIDNestingFlag
         {| GeneralProfileSpace := byte generalProfileSpace;
            GeneralTierFlag := generalTierFlag;
            GeneralProfileIDC := byte generalProfileIDC;
            GeneralProfileCompatibilityFlags := uint32 generalProfileCompatibilityFlags;
            GeneralConstraintIndicatorFlags := uint generalConstraintIndicatorFlags;
            GeneralProgressiveSourceFlag := false;
            GeneralInterlacedSourceFlag := false;
            GeneralNonPackedConstraintFlag := false;
            GeneralFrameOnlyConstraintFlag := false;
            GeneralLevelIDC := byte generalLevelIDC |}).

(** Lines 215-239: the loop over the short-term reference picture sets
    and the code after it. *)
Definition parseSPSRefPicSets `{Externals} (sps : SPS) : M (option SPS * option error) :=
  let* exit :=
    parseShortTermRefPicSets (Z.to_nat (NumShortTermRefPicSets sps)) 0 sps in
  match exit with
  | LoopReturn sps e => ret (Some sps, Some e)
  | LoopDone sps => parseSPSTrailer sps
  end.

(** Lines 136-240 over the reader. *)
Definition parseSPS `{Externals} : M (option SPS * option error) :=
  let* naluHdrBits := Read 16 in
  let naluType := GetNaluType (byte (Z.shiftr naluHdrBits 8)) in
  if negb (naluType =? NALU_SPS) then ret (None, Some WrongUnitType)
  else
    let* sps := parseSPSHeader in
    if negb (MaxSubLayersMinus1 sps =? 0) then ret (Some sps, None)
    else
      let* sps := parseSPSFields sps in
      parseSPSRefPicSets sps.

(** [ParseSPSNALUnit data]: the record and the error returned, or [None]
    when the call panics. *)
Definition ParseSPSNALUnit `{Externals} (data : list Byte.byte)
    : option (option SPS * option error) :=
  match parseSPS (NewAccErrEBSPReader data) with
  | Done res _ => Some res
  | Panic => None
  end.

(** ** An instance of the collaborators, for the worked examples

    Modelled from the spec: the unit type sits in the upper bits of the
    first header byte, after the 1-bit forbidden-zero bit; the numeric
    values (a 6-bit type, SPS = 33, the extended-ratio sentinel 255 and
    the ratio table for indices 1 to 16) are those of ISO/IEC 23008-2. *)
Definition sarTable : list (Z * Z) :=
  [ (1, 1); (12, 11); (10, 11); (16, 11); (40, 33); (24, 11); (20, 11); (32, 11);
    (80, 33); (18, 11); (15, 11); (64, 33); (160, 99); (4, 3); (3, 2); (2, 1) ].

Definition hevcExternals : Externals :=
  {| GetNaluType := fun b => Z.land (Z.shiftr b 1) 63;
     NALU_SPS := 33;
     ExtendedSAR := 255;
     GetSARfromIDC := fun idc =>
       match sarTable !! Z.to_nat (idc - 1) with
       | Some (w, h) => if 1 <=? idc then (w, h, false) else (0, 0, true)
       | None => (0, 0, true)
       end |}.

(** ** Observations used in the statements *)

(** The chroma subsampling factors as section 4.6 of the specification
    lists them. *)
Definition chromaSubsampling (chromaFormatIDC : Z) : Z * Z :=
  if chromaFormatIDC =? 1 then (2, 2)
  else if chromaFormatIDC =? 2 then (2, 1)
  else (1, 1).

(** The value of a computation that did not panic. *)
Definition valueOf {A} (d : A) (o : outcome A) : A :=
  match o with
  | Done a _ => a
  | Panic => d
  end.

(** The reader after a computation that did not panic. *)
Definition readerOf {A} (d : AccErrEBSPReader) (o : outcome A) : AccErrEBSPReader :=
  match o with
  | Done _ r => r
  | Panic => d
  end.

(** The unit type decoded from the 16-bit header of [data] (lines 142-143). *)
Definition decodedNaluType `{Externals} (data : list Byte.byte) : Z :=
  GetNaluType (byte (Z.shiftr (valueOf 0 (Read 16 (NewAccErrEBSPReader data))) 8)).


(** The record and the reader with which the decode of [data] reaches
    the loop of line 216 (lines 142-215 without the two early returns). *)
Definition spsBeforeRefPicSets (data : list Byte.byte) : outcome SPS :=
  (let* _ := Read 16 in
   let* sps := parseSPSHeader in
   parseSPSFields sps) (NewAccErrEBSPReader data).

(** [n] pairs of an Exp-Golomb code and a flag, as read from the stream:
    the raw code values behind the delta-POC lists. *)
Fixpoint rawDeltaPocs (n : nat) : M (list (Z * bool)) :=
  match n with
  | O => ret []
  | S n' =>
      let* v := ReadExpGolomb in
      let* f := ReadFlag in
      let* rest := rawDeltaPocs n' in
      ret ((v, f) :: rest)
  end.

(** A computation that cannot panic. *)
Class Total {A} (m : M A) : Prop :=
  total : forall r, exists a r', m r = Done a r'.

#[export] Hint Mode Total + ! : typeclass_instances.

(** Every value the computation can return satisfies [P]. *)
Definition returns {A} (m : M A) (P : A -> Prop) : Prop :=
  forall r a r', m r = Done a r' -> P a.

(** ** Worked inputs *)

(** The record of the worked example: 4:2:0, 1920x1088 encoded, 4 chroma
    rows cropped at the bottom. *)
Definition sps1080 : SPS :=
  {| VpsID := 0; MaxSubLayersMinus1 := 0; TemporalIDNestingFlag := true;
          ProfileTierLevel_ := zeroProfileTierLevel;
          SpsID := 0; ChromaFormatIDC := 1; SeparateColourPlaneFlag := false;
          ConformanceWindowFlag := true;
          PicWidthInLumaSamples := 1920; PicHeightInLumaSamples := 1088;
          ConformanceWindow_ :=
            {| LeftOffset := 0; RightOffset := 0; TopOffset := 0; BottomOffset := 4 |};
          BitDepthLumaMinus8 := 0; BitDepthChromaMinus8 := 0;
          Log2MaxPicOrderCntLsbMinus4 := 4;
          SubLayerOrderingInfoPresentFlag := false; SubLayeringOrderingInfos := [];
          Log2MinLumaCodingBlockSizeMinus3 := 0; Log2DiffMaxMinLumaCodingBlockSize := 3;
          Log2MinLumaTransformBlockSizeMinus2 := 0;
          Log2DiffMaxMinLumaTransformBlockSize := 3;
          MaxTransformHierarchyDepthInter := 0; MaxTransformHierarchyDepthIntra := 0;
          ScalingListEnabledFlag := false; ScalingListDataPresentFlag := false;
          AmpEnabledFlag := false; SampleAdaptiveOffsetEnabledFlag := true;
          PCMEnabledFlag := false;
          PcmSampleBitDepthLumaMinus1 := 0; PcmSampleBitDepthChromaMinus1 := 0;
          Log2MinPcmLumaCodingBlockSize := 0; Log2DiffMaxMinPcmLumaCodingBlockSize := 0;
          PcmLoopFilterDisabledFlag := false;
          NumShortTermRefPicSets := 1; ShortTermRefPicSets := [];
          LongTermRefPicsPresentFlag := false; SpsTemporalMvpEnabledFlag := false;
          StrongIntraSmoothingEnabledFlag := false;
          VUIParametersPresentFlag := false; VUI := None |}.

(** A record whose crop exceeds the encoded size in both directions. *)
Definition spsOverCropped : SPS :=
  {| VpsID := 0; MaxSubLayersMinus1 := 0; TemporalIDNestingFlag := true;
     ProfileTierLevel_ := zeroProfileTierLevel;
     SpsID := 0; ChromaFormatIDC := 1; SeparateColourPlaneFlag := false;
     ConformanceWindowFlag := true;
     PicWidthInLumaSamples := 16; PicHeightInLumaSamples := 16;
     ConformanceWindow_ :=
       {| LeftOffset := 5; RightOffset := 5; TopOffset := 0; BottomOffset := 9 |};
     BitDepthLumaMinus8 := 0; BitDepthChromaMinus8 := 0;
     Log2MaxPicOrderCntLsbMinus4 := 0;
     SubLayerOrderingInfoPresentFlag := false; SubLayeringOrderingInfos := [];
     Log2MinLumaCodingBlockSizeMinus3 := 0; Log2DiffMaxMinLumaCodingBlockSize := 0;
     Log2MinLumaTransformBlockSizeMinus2 := 0; Log2DiffMaxMinLumaTransformBlockSize := 0;
     MaxTransformHierarchyDepthInter := 0; MaxTransformHierarchyDepthIntra := 0;
     ScalingListEnabledFlag := false; ScalingListDataPresentFlag := false;
     AmpEnabledFlag := false; SampleAdaptiveOffsetEnabledFlag := false;
     PCMEnabledFlag := false;
     PcmSampleBitDepthLumaMinus1 := 0; PcmSampleBitDepthChromaMinus1 := 0;
     Log2MinPcmLumaCodingBlockSize := 0; Log2DiffMaxMinPcmLumaCodingBlockSize := 0;
     PcmLoopFilterDisabledFlag := false;
     NumShortTermRefPicSets := 0; ShortTermRefPicSets := [];
     LongTermRefPicsPresentFlag := false; SpsTemporalMvpEnabledFlag := false;
     StrongIntraSmoothingEnabledFlag := false;
     VUIParametersPresentFlag := false; VUI := None |}.


(** A VUI whose timing information announces HRD parameters: eight clear
    flags, timing flag 1, 1001 units in a tick, time scale 60000,
    POC-proportional flag 0, HRD flag 1 (75 bits), then set bits. *)
Definition vuiWithHrd : AccErrEBSPReader :=
  NewAccErrEBSPReader
    (bytesOf [0x00; 0x80; 0x00; 0x01; 0xf4; 0x80; 0x00; 0x75; 0x30; 0x3f;
              0xff; 0xff; 0xff; 0xff]).

(** [&SPS{}] *)
Definition zeroSPS : SPS :=
  spsAfterProfileTierLevel 0 0 false zeroProfileTierLevel.

(** A complete SPS unit: Main profile, 4:2:0, 1920x1088 with a bottom
    crop of 4, one sub-layer ordering entry, no scaling list, no PCM, no
    short-term reference picture sets, no long-term pictures, no VUI. *)
Definition plainUnit : list Byte.byte :=
  bytesOf [0x42; 0x01; 0x01; 0x01; 0x60; 0x00; 0x00; 0x00; 0x90; 0x00; 0x00; 0x00;
           0x00; 0x00; 0x5d; 0xa0; 0x03; 0xc0; 0x80; 0x11; 0x07; 0xcb; 0x96; 0x56;
           0x69; 0x24; 0xca; 0xd0].

(** The same fields, then three short-term reference picture sets
    announced: the first lists one negative picture, the second is
    explicit with a negative-picture count of 17. *)
Definition overfullUnit : list Byte.byte :=
  bytesOf [0x42; 0x01; 0x01; 0x01; 0x60; 0x00; 0x00; 0x00; 0x90; 0x00; 0x00; 0x00;
           0x00; 0x00; 0x5d; 0xa0; 0x03; 0xc0; 0x80; 0x11; 0x07; 0xcb; 0x96; 0x56;
           0x69; 0x24; 0xc8; 0x8b; 0x82; 0x5f; 0xff; 0xff].

(** An explicit set with counts 17 and 0. *)
Definition seventeenNegative : AccErrEBSPReader :=
  NewAccErrEBSPReader (bytesOf [0x09; 0x7f]).


(** An explicit set with one negative picture whose delta-POC code has
    32 leading zero bits and a zero suffix, the code of 2^32 - 1. *)
Definition hugeDeltaPoc : AccErrEBSPReader :=
  NewAccErrEBSPReader (bytesOf [0x50; 0x00; 0x00; 0x00; 0x08; 0x00; 0x00; 0x00; 0x04]).

(** A record that holds one decoded set, as a slice header finds it. *)
Definition spsOneSet : SPS :=
  appendShortTermRPS sps1080 zeroShortTermRPS.

(** A slice-header set ([idx = numSTRefPicSets = 1]): prediction flag 1,
    then [delta_idx_minus1 = 1], sign bit 1, magnitude code 0. *)
Definition forwardReference : AccErrEBSPReader :=
  NewAccErrEBSPReader (bytesOf [0xaf; 0xff]).

(** One scaling list of size class 2: prediction-mode flag 1, the code
    00100 where the DC coefficient belongs, then 64 one-bit codes. *)
Definition scalingListWithDc : AccErrEBSPReader :=
  NewAccErrEBSPReader
    (bytesOf [0x93; 0xff; 0xff; 0xff; 0xff; 0xff; 0xff; 0xff; 0xff; 0xff; 0xff]).

(** A whole scaling-list structure of 108 bits: every list is predicted
    (flag 0, delta code 1) except the first of size class 2, which is the
    list above; set bits follow. *)
Definition scalingListData : AccErrEBSPReader :=
  NewAccErrEBSPReader
    (bytesOf ([0x55; 0x55; 0x55; 0x93; 0xff; 0xff; 0xff; 0xff; 0xff; 0xff; 0xff;
               0xfd; 0x55; 0x5f] ++ replicate 100 0xff)).


(** ** Further observations *)

(** How a computation may change the reader: the buffer stays, the offset
    does not go back and stays within the buffer, a reader that has failed
    stays exactly as it is, and the error of a header of the wrong type is
    never latched. *)
Definition advances (r r' : AccErrEBSPReader) : Prop :=
  buf r' = buf r
  /\ pos r <= pos r'
  /\ (pos r <= bitLen r -> pos r' <= bitLen r')
  /\ (forall e, err r = Some e -> r' = r)
  /\ (err r' = Some WrongUnitType -> err r = Some WrongUnitType).

Class Advances {A} (m : M A) : Prop :=
  advances_of : forall r a r', m r = Done a r' -> advances r r'.

#[export] Hint Mode Advances + ! : typeclass_instances.

(** Go zero values of the VUI records. *)
Definition zeroBitstreamRestrictions : BitstreamRestrictions :=
  {| TilesFixedStructureFlag := false; MVOverPicBoundariesFlag := false;
     RestrictedRefsPicsListsFlag := false; MinSpatialSegmentationIDC := 0;
     MaxBytesPerPicDenom := 0; MaxBitsPerMinCuDenom := 0;
     Log2MaxMvLengthHorizontal := 0; Log2MaxMvLengthVertical := 0 |}.

Definition zeroVUIParameters : VUIParameters :=
  {| SampleAspectRatioWidth := 0; SampleAspectRatioHeight := 0;
     OverscanInfoPresentFlag := false; OverscanAppropriateFlag := false;
     VideoSignalTypePresentFlag := false; VideoFormat := 0;
     VideoFullRangeFlag := false; ColourDescriptionFlag := false;
     ColourPrimaries := 0; TransferCharacteristics := 0; MatrixCoefficients := 0;
     ChromaLocInfoPresentFlag := false; ChromaSampleLocTypeTopField := 0;
     ChromaSampleLocTypeBottomField := 0; NeutralChromaIndicationFlag := false;
     FieldSeqFlag := false; FrameFieldInfoPresentFlag := false;
     DefaultDisplayWindowFlag := false; DefDispWinLeftOffset := 0;
     DefDispWinRightOffset := 0; DefDispWinTopOffset := 0;
     DefDispWinBottomOffset := 0; TimingInfoPresentFlag := false;
     NumUnitsInTick := 0; TimeScale := 0; PocProportionalToTimingFlag := false;
     NumTicksPocDiffOneMinus1 := 0; HrdParametersPresentFlag := false;
     BitstreamRestrictionFlag := false; BitstreamResctrictions := None |}.

(** The record a decode yields when nothing can be read after the
    header: [&SPS{}] with the one sub-layer ordering entry that line 184
    appends. *)
Definition spsNothingRead : SPS :=
  {| VpsID := 0; MaxSubLayersMinus1 := 0; TemporalIDNestingFlag := false;
     ProfileTierLevel_ := zeroProfileTierLevel;
     SpsID := 0; ChromaFormatIDC := 0; SeparateColourPlaneFlag := false;
     ConformanceWindowFlag := false;
     PicWidthInLumaSamples := 0; PicHeightInLumaSamples := 0;
     ConformanceWindow_ := zeroConformanceWindow;
     BitDepthLumaMinus8 := 0; BitDepthChromaMinus8 := 0;
     Log2MaxPicOrderCntLsbMinus4 := 0;
     SubLayerOrderingInfoPresentFlag := false;
     SubLayeringOrderingInfos :=
       [ {| MaxDecPicBufferingMinus1 := 0; MaxNumReorderPics := 0;
            MaxLatencyIncreasePlus1 := 0 |} ];
     Log2MinLumaCodingBlockSizeMinus3 := 0; Log2DiffMaxMinLumaCodingBlockSize := 0;
     Log2MinLumaTransformBlockSizeMinus2 := 0; Log2DiffMaxMinLumaTransformBlockSize := 0;
     MaxTransformHierarchyDepthInter := 0; MaxTransformHierarchyDepthIntra := 0;
     ScalingListEnabledFlag := false; ScalingListDataPresentFlag := false;
     AmpEnabledFlag := false; SampleAdaptiveOffsetEnabledFlag := false;
     PCMEnabledFlag := false;
     PcmSampleBitDepthLumaMinus1 := 0; PcmSampleBitDepthChromaMinus1 := 0;
     Log2MinPcmLumaCodingBlockSize := 0; Log2DiffMaxMinPcmLumaCodingBlockSize := 0;
     PcmLoopFilterDisabledFlag := false;
     NumShortTermRefPicSets := 0; ShortTermRefPicSets := [];
     LongTermRefPicsPresentFlag := false; SpsTemporalMvpEnabledFlag := false;
     StrongIntraSmoothingEnabledFlag := false;
     VUIParametersPresentFlag := false; VUI := None |}.

(** A slice-header set ([idx = numSTRefPicSets = 1]) whose
    [delta_idx_minus1] is 255: prediction flag 1, the 17-bit code of 255,
    sign bit 1, magnitude code 0. *)
Definition selfReference : AccErrEBSPReader :=
  NewAccErrEBSPReader (bytesOf [0x80; 0x40; 0x3f; 0xff]).

(** A record with two decoded sets, the second with three delta POCs. *)
Definition spsTwoSets : SPS :=
  appendShortTermRPS spsOneSet
    {| DeltaPocS0 := [1; 2]; DeltaPocS1 := [1];
       UsedByCurrPicS0 := [true; true]; UsedByCurrPicS1 := [false];
       NumNegativePics := 2; NumPositivePics := 1; NumDeltaPocs := 3 |}.

(** A set predicted from the one before: prediction flag 1, sign bit 0,
    magnitude code 0, then the flags 1, 0 1, 0 0 for three delta POCs. *)
Definition predictedSet : AccErrEBSPReader :=
  NewAccErrEBSPReader (bytesOf [0xb4; 0xff]).

(** The conditional fields of a VUI record agree with their presence
    flags: a group whose flag is clear is at its zero values, the
    bitstream restrictions are there exactly when their flag is set, and
    they are absent once HRD parameters are announced. *)
Definition vuiConsistent (vui : VUIParameters) : Prop :=
  (OverscanInfoPresentFlag vui = false -> OverscanAppropriateFlag vui = false)
  /\ (VideoSignalTypePresentFlag vui = false ->
      VideoFormat vui = 0 /\ VideoFullRangeFlag vui = false
      /\ ColourDescriptionFlag vui = false)
  /\ (ColourDescriptionFlag vui = false ->
      ColourPrimaries vui = 0 /\ TransferCharacteristics vui = 0
      /\ MatrixCoefficients vui = 0)
  /\ (ChromaLocInfoPresentFlag vui = false ->
      ChromaSampleLocTypeTopField vui = 0 /\ ChromaSampleLocTypeBottomField vui = 0)
  /\ (DefaultDisplayWindowFlag vui = false ->
      DefDispWinLeftOffset vui = 0 /\ DefDispWinRightOffset vui = 0
      /\ DefDispWinTopOffset vui = 0 /\ DefDispWinBottomOffset vui = 0)
  /\ (TimingInfoPresentFlag vui = false ->
      NumUnitsInTick vui = 0 /\ TimeScale vui = 0
      /\ PocProportionalToTimingFlag vui = false
      /\ HrdParametersPresentFlag vui = false)
  /\ (PocProportionalToTimingFlag vui = false -> NumTicksPocDiffOneMinus1 vui = 0)
  /\ (BitstreamRestrictionFlag vui = true <-> BitstreamResctrictions vui <> None)
  /\ (HrdParametersPresentFlag vui = true -> BitstreamRestrictionFlag vui = false).

(** A decoded set whose lists have the lengths its counts announce, with
    counts within the bound of line 352. *)
Definition wellFormedShortTermRPS (stps : ShortTermRPS) : Prop :=
  Z.of_nat (length (DeltaPocS0 stps)) = NumNegativePics stps
  /\ Z.of_nat (length (UsedByCurrPicS0 stps)) = NumNegativePics stps
  /\ Z.of_nat (length (DeltaPocS1 stps)) = NumPositivePics stps
  /\ Z.of_nat (length (UsedByCurrPicS1 stps)) = NumPositivePics stps
  /\ NumNegativePics stps <= maxSTRefPics
  /\ NumPositivePics stps <= maxSTRefPics
  /\ 0 <= NumDeltaPocs stps <= 2 * maxSTRefPics.

(** The conditional fields that lines 159-215 assign agree with their
    presence flags, and the sizes are within their types. *)
Definition fieldsConsistent (sps : SPS) : Prop :=
  (SeparateColourPlaneFlag sps = true -> ChromaFormatIDC sps = 3)
  /\ (ConformanceWindowFlag sps = false ->
      ConformanceWindow_ sps = zeroConformanceWindow)
  /\ (ScalingListDataPresentFlag sps = true -> ScalingListEnabledFlag sps = true)
  /\ (PCMEnabledFlag sps = false ->
      PcmSampleBitDepthLumaMinus1 sps = 0 /\ PcmSampleBitDepthChromaMinus1 sps = 0
      /\ Log2MinPcmLumaCodingBlockSize sps = 0
      /\ Log2DiffMaxMinPcmLumaCodingBlockSize sps = 0
      /\ PcmLoopFilterDisabledFlag sps = false)
  /\ 0 <= PicWidthInLumaSamples sps < 2 ^ 32
  /\ 0 <= PicHeightInLumaSamples sps < 2 ^ 32
  /\ 0 <= NumShortTermRefPicSets sps < 256
  /\ length (SubLayeringOrderingInfos sps)
     = (if MaxSubLayersMinus1 sps =? 0 then 1%nat else 0%nat).

(** The record of a loop exit. *)
Definition exitRecord (exit : loopExit) : SPS :=
  match exit with
  | LoopDone sps => sps
  | LoopReturn sps _ => sps
  end.

(** ** Decoding from two readers

    [Sim R G m]: started from readers related by [R], whenever [m]
    returns from the first reader and leaves it in a state that
    satisfies [G], it returns the same value from the second, and the
    readers left are related again. *)
Class Sim (R : AccErrEBSPReader -> AccErrEBSPReader -> Prop)
    (G : AccErrEBSPReader -> Prop) {A} (m : M A) : Prop :=
  sim : forall r1 r2 a r1',
    R r1 r2 -> m r1 = Done a r1' -> G r1' ->
    exists r2', m r2 = Done a r2' /\ R r1' r2'.

#[export] Hint Mode Sim + + + ! : typeclass_instances.

(** What the operations of the reader have to satisfy for [R] and [G]. *)
Class SimBase (R : AccErrEBSPReader -> AccErrEBSPReader -> Prop)
    (G : AccErrEBSPReader -> Prop) : Prop := {
  guard_back : forall r r', advances r r' -> G r' -> G r;
  sim_Read : forall n, Sim R G (Read n);
  sim_SetError : forall e, Sim R G (SetError e);
  sim_AccError : Sim R G AccError
}.

(** The second reader holds the bytes of the first and [extra] bytes
    after them; both are at the same offset and have not failed. *)
Definition extendedBy (extra : list Byte.byte) (r1 r2 : AccErrEBSPReader) : Prop :=
  buf r2 = buf r1 ++ extra /\ pos r2 = pos r1 /\ 0 <= pos r1
  /\ err r1 = None /\ err r2 = None.

Definition unfailed (r : AccErrEBSPReader) : Prop := err r = None.

(** The two readers are past the header and agree but for the second
    byte of the buffer. *)
Definition sameButSecondByte (r1 r2 : AccErrEBSPReader) : Prop :=
  exists b0 b1 b1' rest,
    buf r1 = b0 :: b1 :: rest /\ buf r2 = b0 :: b1' :: rest
    /\ pos r2 = pos r1 /\ 16 <= pos r1 /\ err r2 = err r1.

Definition anyReader (r : AccErrEBSPReader) : Prop := True.

(** A complete SPS unit without a conformance window: 1280x720. *)
Definition noWindowUnit : list Byte.byte :=
  bytesOf [0x42; 0x01; 0x01; 0x01; 0x60; 0x00; 0x00; 0x00; 0x90; 0x00; 0x00; 0x00;
           0x00; 0x00; 0x5d; 0xa0; 0x02; 0x80; 0x80; 0x2d; 0x16; 0x59; 0x59; 0xa4;
           0x93; 0x2b; 0x40].



(** An SPS header, [maxSubLayersMinus1 = 2], and nothing after that
    byte. *)
Definition cutSubLayerUnit : list Byte.byte := bytesOf [0x42; 0x01; 0x05].
(** * Properties *)

(** ** The reader on small inputs *)

Example Read_8 :
  Read 8 (NewAccErrEBSPReader (bytesOf [0xA5; 0xFF])) =
  Done 0xA5 {| buf := bytesOf [0xA5; 0xFF]; pos := 8; err := None |}.
Proof. reflexivity. Qed.

Example Read_across_bytes :
  (let* _ := Read 4 in Read 8) (NewAccErrEBSPReader (bytesOf [0xA5; 0xF0])) =
  Done 0x5F {| buf := bytesOf [0xA5; 0xF0]; pos := 12; err := None |}.
Proof. reflexivity. Qed.

Example ReadExpGolomb_00100 :
  ReadExpGolomb (NewAccErrEBSPReader (bytesOf [0x20])) =
  Done 3 {| buf := bytesOf [0x20]; pos := 5; err := None |}.
Proof. reflexivity. Qed.

Example ReadExpGolomb_truncated :
  ReadExpGolomb (NewAccErrEBSPReader (bytesOf [0x00])) =
  Done 0 {| buf := bytesOf [0x00]; pos := 8; err := Some Truncated |}.
Proof. reflexivity. Qed.

Example ReadExpGolomb_too_long :
  ReadExpGolomb (NewAccErrEBSPReader (bytesOf [0; 0; 0; 0; 0; 0xFF])) =
  Done 0 {| buf := bytesOf [0; 0; 0; 0; 0; 0xFF]; pos := 33; err := Some Malformed |}.
Proof. reflexivity. Qed.

Example Read_after_failure :
  (let* _ := Read 16 in Read 1) (NewAccErrEBSPReader (bytesOf [0xFF])) =
  Done 0 {| buf := bytesOf [0xFF]; pos := 0; err := Some Truncated |}.
Proof. reflexivity. Qed.

(** ** Fixed-width arithmetic *)

Lemma uint32_uint (x : Z) : uint32 (uint x) = uint32 x.
Proof.
  unfold uint32, uint. apply Z.mod_mod_divide.
  exists (2 ^ 32). reflexivity.
Qed.

Lemma byte_uint (x : Z) : byte (uint x) = byte x.
Proof.
  unfold byte, uint. apply Z.mod_mod_divide.
  exists (2 ^ 56). reflexivity.
Qed.

Lemma uint32_range (x : Z) : 0 <= uint32 x < 2 ^ 32.
Proof. unfold uint32. apply Z.mod_pos_bound. lia. Qed.

Lemma byte_range (x : Z) : 0 <= byte x < 256.
Proof. unfold byte. apply Z.mod_pos_bound. lia. Qed.

Lemma uint32_sub_mul (w a k : Z) :
  uint32 (w - uint32 (uint32 a * k)) = uint32 (w - a * k).
Proof.
  unfold uint32.
  rewrite Zminus_mod_idemp_r.
  rewrite <- (Zminus_mod_idemp_r w (a mod 2 ^ 32 * k)).
  rewrite Zmult_mod_idemp_l.
  rewrite Zminus_mod_idemp_r. reflexivity.
Qed.

(** ** Derived geometry *)

Lemma ImageSize_eq (s : SPS) :
  ImageSize s =
  (uint32 (PicWidthInLumaSamples s
           - (LeftOffset (ConformanceWindow_ s) + RightOffset (ConformanceWindow_ s))
             * fst (chromaSubsampling (ChromaFormatIDC s))),
   uint32 (PicHeightInLumaSamples s
           - (TopOffset (ConformanceWindow_ s) + BottomOffset (ConformanceWindow_ s))
             * snd (chromaSubsampling (ChromaFormatIDC s)))).
Proof.
  unfold ImageSize, chromaSubsampling.
  destruct (ChromaFormatIDC s =? 1); [|destruct (ChromaFormatIDC s =? 2)];
    cbn [fst snd]; rewrite !uint32_sub_mul; reflexivity.
Qed.

(** C5.  For every SPS record, [ImageSize] returns
    [encodedWidth - (left + right) * subWidth] and
    [encodedHeight - (top + bottom) * subHeight] in 32-bit unsigned
    arithmetic, with the factors (2,2) for chroma format 1, (2,1) for 2 and
    (1,1) otherwise; when the cropped amount does not exceed the encoded
    size the result is the plain difference; 4:2:0 at 1920x1088 with a
    bottom offset of 4 gives 1920x1080. *)
Theorem ImageSize_conformance_window (s : SPS) :
  let w := PicWidthInLumaSamples s in
  let h := PicHeightInLumaSamples s in
  let cw := ConformanceWindow_ s in
  let subWidthC := if ChromaFormatIDC s =? 1 then 2
                   else if ChromaFormatIDC s =? 2 then 2 else 1 in
  let subHeightC := if ChromaFormatIDC s =? 1 then 2 else 1 in
  ImageSize s = (uint32 (w - (LeftOffset cw + RightOffset cw) * subWidthC),
                 uint32 (h - (TopOffset cw + BottomOffset cw) * subHeightC))
  /\ (0 <= (LeftOffset cw + RightOffset cw) * subWidthC <= w -> w < 2 ^ 32 ->
      fst (ImageSize s) = w - (LeftOffset cw + RightOffset cw) * subWidthC)
  /\ (0 <= (TopOffset cw + BottomOffset cw) * subHeightC <= h -> h < 2 ^ 32 ->
      snd (ImageSize s) = h - (TopOffset cw + BottomOffset cw) * subHeightC)
  /\ ImageSize sps1080 = (1920, 1080).
Proof.
  intros w h cw subWidthC subHeightC.
  assert (E : ImageSize s =
              (uint32 (w - (LeftOffset cw + RightOffset cw) * subWidthC),
               uint32 (h - (TopOffset cw + BottomOffset cw) * subHeightC))).
  { rewrite ImageSize_eq. unfold chromaSubsampling. subst subWidthC subHeightC w h cw.
    destruct (ChromaFormatIDC s =? 1); [|destruct (ChromaFormatIDC s =? 2)];
      reflexivity. }
  split; [exact E|]. rewrite E. cbn [fst snd]. unfold uint32.
  repeat split.
  - intros Hc Hw. apply Z.mod_small. lia.
  - intros Hc Hh. apply Z.mod_small. lia.
Qed.

Lemma ImageSize_conformance_window_witness :
  0 <= (0 + 0) * 2 <= 1920 /\ 1920 < 2 ^ 32 /\
  fst (ImageSize sps1080) = 1920 - (0 + 0) * 2.
Proof.
  split; [lia|]. split; [lia|].
  apply (proj1 (proj2 (ImageSize_conformance_window sps1080))).
  - simpl. lia.
  - simpl. lia.
Defined.

(** C9.  [ImageSize] validates nothing: when the cropped amount exceeds
    the encoded width (respectively height) the function still returns a
    value, the difference reduced modulo 2^32, which lies in the 32-bit
    range and is not the (negative) plain difference. *)
Theorem ImageSize_no_bounds_validation (s : SPS) :
  let w := PicWidthInLumaSamples s in
  let h := PicHeightInLumaSamples s in
  let cw := ConformanceWindow_ s in
  let sub := chromaSubsampling (ChromaFormatIDC s) in
  (w < (LeftOffset cw + RightOffset cw) * fst sub ->
   fst (ImageSize s) = (w - (LeftOffset cw + RightOffset cw) * fst sub) mod 2 ^ 32
   /\ 0 <= fst (ImageSize s) < 2 ^ 32
   /\ fst (ImageSize s) <> w - (LeftOffset cw + RightOffset cw) * fst sub)
  /\
  (h < (TopOffset cw + BottomOffset cw) * snd sub ->
   snd (ImageSize s) = (h - (TopOffset cw + BottomOffset cw) * snd sub) mod 2 ^ 32
   /\ 0 <= snd (ImageSize s) < 2 ^ 32
   /\ snd (ImageSize s) <> h - (TopOffset cw + BottomOffset cw) * snd sub).
Proof.
  intros w h cw sub. rewrite ImageSize_eq. cbn [fst snd].
  fold w h cw sub.
  split; intros Hlt.
  - pose proof (uint32_range (w - (LeftOffset cw + RightOffset cw) * fst sub)) as Hr.
    split; [reflexivity|]. split; [exact Hr|]. lia.
  - pose proof (uint32_range (h - (TopOffset cw + BottomOffset cw) * snd sub)) as Hr.
    split; [reflexivity|]. split; [exact Hr|]. lia.
Qed.

Lemma ImageSize_no_bounds_validation_witness :
  16 < (5 + 5) * 2 /\ 16 < (0 + 9) * 2 /\
  ImageSize spsOverCropped = (2 ^ 32 - 4, 2 ^ 32 - 2).
Proof.
  split; [lia|]. split; [lia|].
  destruct (ImageSize_no_bounds_validation spsOverCropped) as [Hw Hh].
  destruct Hw as (Ew & _ & _); [simpl; lia|].
  destruct Hh as (Eh & _ & _); [simpl; lia|].
  rewrite (surjective_pairing (ImageSize spsOverCropped)), Ew, Eh.
  reflexivity.
Defined.

(** ** Computations that cannot panic *)

Lemma bind_eq {A B} (m : M A) (k : A -> M B) r a r' :
  m r = Done a r' -> bind m k r = k a r'.
Proof. intros E. unfold bind. rewrite E. reflexivity. Qed.

#[export] Instance Total_ret {A} (a : A) : Total (ret a).
Proof. intros r. exists a, r. reflexivity. Qed.

#[export] Instance Total_bind {A B} (m : M A) (k : A -> M B) :
  Total m -> (forall a, Total (k a)) -> Total (bind m k).
Proof.
  intros Hm Hk r. destruct (Hm r) as (a & r1 & E).
  destruct (Hk a r1) as (b & r2 & E2).
  exists b, r2. rewrite (bind_eq _ _ _ _ _ E). exact E2.
Qed.

#[export] Instance Total_AccError : Total AccError.
Proof. intros r. exists (err r), r. reflexivity. Qed.

#[export] Instance Total_SetError e : Total (SetError e).
Proof. intros r. unfold SetError. destruct (err r); eauto. Qed.

#[export] Instance Total_Read n : Total (Read n).
Proof.
  intros r. unfold Read. destruct (err r); [eauto|].
  destruct (_ <=? _); eauto.
Qed.

#[export] Hint Extern 2 (Total (match ?x with _ => _ end)) =>
  destruct x : typeclass_instances.

#[export] Instance Total_ReadFlag : Total ReadFlag.
Proof. unfold ReadFlag. apply _. Qed.

#[export] Instance Total_countLeadingZeroBits budget lz :
  Total (countLeadingZeroBits budget lz).
Proof.
  revert lz. induction budget as [|budget IH]; intros lz; cbn [countLeadingZeroBits];
    apply _.
Qed.

#[export] Instance Total_ReadExpGolomb : Total ReadExpGolomb.
Proof. unfold ReadExpGolomb. apply _. Qed.

#[export] Instance Total_forRange n i (body : Z -> M unit) :
  (forall j, Total (body j)) -> Total (forRange n i body).
Proof.
  intros Hb. revert i. induction n as [|n IH]; intros i; cbn [forRange]; apply _.
Qed.

#[export] Instance Total_parseBitstreamRestrictions : Total parseBitstreamRestrictions.
Proof. unfold parseBitstreamRestrictions. apply _. Qed.

#[export] Instance Total_parseVUIAfterTiming vui : Total (parseVUIAfterTiming vui).
Proof. unfold parseVUIAfterTiming. apply _. Qed.

#[export] Instance Total_parseVUIBeforeTiming `{Externals} : Total parseVUIBeforeTiming.
Proof. unfold parseVUIBeforeTiming. apply _. Qed.

#[export] Instance Total_parseVUI `{Externals} : Total parseVUI.
Proof. unfold parseVUI. apply _. Qed.

#[export] Instance Total_readPastScalingList sizeId : Total (readPastScalingList sizeId).
Proof. unfold readPastScalingList. apply _. Qed.

#[export] Instance Total_readPastScalingListData : Total readPastScalingListData.
Proof. unfold readPastScalingListData. apply _. Qed.

#[export] Instance Total_readSubLayerOrderingInfos n infos :
  Total (readSubLayerOrderingInfos n infos).
Proof.
  revert infos. induction n as [|n IH]; intros infos;
    cbn [readSubLayerOrderingInfos]; apply _.
Qed.

#[export] Instance Total_parseSPSFields sps : Total (parseSPSFields sps).
Proof. unfold parseSPSFields. apply _. Qed.

#[export] Instance Total_readInterRPSPredFlag idx : Total (readInterRPSPredFlag idx).
Proof. unfold readInterRPSPredFlag. apply _. Qed.

#[export] Instance Total_countDeltaPocs n numDeltaPocs :
  Total (countDeltaPocs n numDeltaPocs).
Proof.
  revert numDeltaPocs. induction n as [|n IH]; intros numDeltaPocs;
    cbn [countDeltaPocs]; apply _.
Qed.

#[export] Instance Total_parseSPSHeader : Total parseSPSHeader.
Proof. unfold parseSPSHeader. apply _. Qed.

#[export] Instance Total_parseSPSTrailer `{Externals} sps : Total (parseSPSTrailer sps).
Proof. unfold parseSPSTrailer. apply _. Qed.

(** Run the first computation of a sequence that cannot panic. *)
Ltac step :=
  match goal with
  | |- context [bind ?m ?k ?r] =>
      let a := fresh "a" in
      let r' := fresh "r" in
      let E := fresh "E" in
      destruct (total (m := m) r) as (a & r' & E);
      rewrite (bind_eq m k r a r' E)
  end.

Ltac step_in H :=
  match type of H with
  | context [bind ?m ?k ?r] =>
      let a := fresh "a" in
      let r' := fresh "r" in
      let E := fresh "E" in
      destruct (total (m := m) r) as (a & r' & E);
      rewrite (bind_eq m k r a r' E) in H
  end.

(** ** The first bytes of the buffer *)

Lemma bitAt_skip_byte (b : Byte.byte) (rest : list Byte.byte) (p : Z) :
  0 <= p -> bitAt (b :: rest) (p + 8) = bitAt rest p.
Proof.
  intros Hp. unfold bitAt.
  replace ((p + 8) / 8) with (p / 8 + 1) by (rewrite <- (Z.div_add p 1 8); [f_equal; lia|lia]).
  replace ((p + 8) mod 8) with (p mod 8) by (rewrite <- (Z.mod_add p 1 8); [f_equal; lia|lia]).
  assert (0 <= p / 8) by (apply Z.div_pos; lia).
  replace (Z.to_nat (p / 8 + 1)) with (S (Z.to_nat (p / 8))) by lia.
  reflexivity.
Qed.

Lemma bitsAt_skip_byte (b : Byte.byte) (rest : list Byte.byte) (n : nat) :
  forall p acc, 0 <= p -> bitsAt (b :: rest) (p + 8) n acc = bitsAt rest p n acc.
Proof.
  induction n as [|n IH]; intros p acc Hp; cbn [bitsAt]; [reflexivity|].
  rewrite bitAt_skip_byte by lia.
  replace (p + 8 + 1) with (p + 1 + 8) by lia.
  apply IH. lia.
Qed.

Lemma bitsAt_app (data : list Byte.byte) (n m : nat) :
  forall p acc, bitsAt data p (n + m) acc = bitsAt data (p + Z.of_nat n) m (bitsAt data p n acc).
Proof.
  induction n as [|n IH]; intros p acc.
  - cbn [bitsAt Nat.add]. f_equal. lia.
  - cbn [bitsAt Nat.add]. rewrite IH. f_equal. lia.
Qed.

Lemma bitsAt_first_byte (b : Byte.byte) (rest : list Byte.byte) (acc : Z) :
  bitsAt (b :: rest) 0 8 acc = 256 * acc + Z.of_N (Byte.to_N b).
Proof.
  destruct b; cbn [bitsAt];
    repeat match goal with
           | |- context [bitAt ?d ?p] =>
               let v := eval vm_compute in (bitAt d p) in change (bitAt d p) with v
           end;
    match goal with
    | |- _ = _ + ?x => let v := eval vm_compute in x in change x with v
    end; lia.
Qed.

Lemma byte_bounded (b : Byte.byte) : 0 <= Z.of_N (Byte.to_N b) < 256.
Proof. pose proof (Byte.to_N_bounded b). lia. Qed.

Lemma Read_16_header (b0 b1 : Byte.byte) (rest : list Byte.byte) :
  Read 16 (NewAccErrEBSPReader (b0 :: b1 :: rest)) =
  Done (256 * Z.of_N (Byte.to_N b0) + Z.of_N (Byte.to_N b1))
       {| buf := b0 :: b1 :: rest; pos := 16; err := None |}.
Proof.
  unfold Read, NewAccErrEBSPReader, bitLen. cbn [err pos buf length].
  destruct (0 + Z.of_nat 16 <=? 8 * Z.of_nat (S (S (length rest)))) eqn:E;
    [|apply Z.leb_gt in E; lia].
  f_equal.
  change 16%nat with (8 + 8)%nat. rewrite bitsAt_app.
  rewrite bitsAt_first_byte.
  change (0 + Z.of_nat 8) with (0 + 8).
  rewrite bitsAt_skip_byte by lia. rewrite bitsAt_first_byte.
  pose proof (byte_bounded b0). pose proof (byte_bounded b1).
  unfold uint. rewrite Z.mod_small by lia. lia.
Qed.

Lemma header_type_byte (b0 b1 : Byte.byte) :
  byte (Z.shiftr (256 * Z.of_N (Byte.to_N b0) + Z.of_N (Byte.to_N b1)) 8)
  = Z.of_N (Byte.to_N b0).
Proof.
  pose proof (byte_bounded b0). pose proof (byte_bounded b1).
  rewrite Z.shiftr_div_pow2 by lia. change (2 ^ 8) with 256.
  replace ((256 * Z.of_N (Byte.to_N b0) + Z.of_N (Byte.to_N b1)) / 256)
    with (Z.of_N (Byte.to_N b0))
    by (apply Z.div_unique with (r := Z.of_N (Byte.to_N b1)); lia).
  unfold byte. apply Z.mod_small. lia.
Qed.

(** ** The unit-type check *)

(** C8.  When the unit type decoded from the 16-bit header is not SPS,
    [ParseSPSNALUnit] returns a nil record and the wrong-unit-type error;
    in particular this holds for every input whose first byte classifies
    as another type, whatever the second byte and the payload are. *)
Theorem ParseSPSNALUnit_wrong_unit_type `{Externals} :
  (forall data : list Byte.byte,
     decodedNaluType data <> NALU_SPS ->
     ParseSPSNALUnit data = Some (None, Some WrongUnitType))
  /\
  (forall (b0 b1 : Byte.byte) (payload : list Byte.byte),
     GetNaluType (Z.of_N (Byte.to_N b0)) <> NALU_SPS ->
     ParseSPSNALUnit (b0 :: b1 :: payload) = Some (None, Some WrongUnitType)).
Proof.
  assert (G : forall data : list Byte.byte,
             decodedNaluType data <> NALU_SPS ->
             ParseSPSNALUnit data = Some (None, Some WrongUnitType)).
  { intros data Hne. unfold ParseSPSNALUnit, parseSPS.
    unfold decodedNaluType in Hne.
    step. rewrite E in Hne. cbn [valueOf] in Hne.
    apply Z.eqb_neq in Hne. rewrite Hne. reflexivity. }
  split; [exact G|].
  intros b0 b1 payload Hne. apply G.
  unfold decodedNaluType. rewrite Read_16_header. cbn [valueOf].
  rewrite header_type_byte. exact Hne.
Qed.

Lemma ParseSPSNALUnit_wrong_unit_type_witness :
  @decodedNaluType hevcExternals (bytesOf [0x40; 0x01; 0x0c]) <> @NALU_SPS hevcExternals
  /\ @ParseSPSNALUnit hevcExternals (bytesOf [0x40; 0x01; 0x0c])
     = Some (None, Some WrongUnitType).
Proof.
  assert (Hne : @decodedNaluType hevcExternals (bytesOf [0x40; 0x01; 0x0c])
                <> @NALU_SPS hevcExternals) by (vm_compute; discriminate).
  split; [exact Hne|].
  apply (proj1 (@ParseSPSNALUnit_wrong_unit_type hevcExternals)). exact Hne.
Defined.

(** ** The sub-layer policy *)

Lemma parseSPSHeader_fields (r : AccErrEBSPReader) (sps : SPS) (r' : AccErrEBSPReader) :
  parseSPSHeader r = Done sps r' ->
  exists vpsID r1 maxSubLayersMinus1 r2,
    Read 4 r = Done vpsID r1
    /\ Read 3 r1 = Done maxSubLayersMinus1 r2
    /\ MaxSubLayersMinus1 sps = byte maxSubLayersMinus1
    /\ sps = spsAfterProfileTierLevel (VpsID sps) (MaxSubLayersMinus1 sps)
               (TemporalIDNestingFlag sps) (ProfileTierLevel_ sps).
Proof.
  unfold parseSPSHeader. intros E.
  do 9 step_in E. cbn [ret] in E. injection E as <- _.
  exists a, r0, a0, r1. repeat split; assumption || reflexivity.
Qed.



(** ** What a computation returns *)

Lemma returns_ret {A} (a : A) (P : A -> Prop) : P a -> returns (ret a) P.
Proof. intros HP r b r' E. injection E as <- _. exact HP. Qed.

Lemma returns_bind {A B} (m : M A) (k : A -> M B) (P : B -> Prop) :
  (forall a, returns (k a) P) -> returns (bind m k) P.
Proof.
  intros Hk r b r' E. unfold bind in E.
  destruct (m r) as [a r1|]; [|discriminate].
  exact (Hk a r1 b r' E).
Qed.

Ltac returns_tac :=
  repeat first
    [ apply returns_bind; intros ?
    | apply returns_ret
    | match goal with
      | |- returns (match ?x with _ => _ end) _ => destruct x
      end ].

(** ** The VUI decode *)

Lemma parseVUIBeforeTiming_zero `{Externals} :
  returns parseVUIBeforeTiming (fun vui =>
    TimingInfoPresentFlag vui = false /\ HrdParametersPresentFlag vui = false
    /\ BitstreamRestrictionFlag vui = false /\ BitstreamResctrictions vui = None).
Proof. unfold parseVUIBeforeTiming. returns_tac; cbn; auto. Qed.




(** ** The explicit branch of the short-term reference picture set *)

Lemma store_eq {A} (s : list A) (i : nat) (v : A) (r : AccErrEBSPReader) :
  (i < length s)%nat -> store s (Z.of_nat i) v r = Done (<[i := v]> s) r.
Proof.
  intros Hi. unfold store. rewrite Nat2Z.id.
  destruct (decide (i < length s)%nat); [reflexivity|contradiction].
Qed.

(** The loop over the two slices stores, at the indices it visits, what
    [rawDeltaPocs] reads, the code values increased by one as 32-bit
    numbers; it does not panic and leaves the other elements alone. *)
Lemma readDeltaPocs_raw (n : nat) :
  forall (i : nat) (deltaPoc : list Z) (used : list bool) (r : AccErrEBSPReader),
    (i + n <= length deltaPoc)%nat -> (i + n <= length used)%nat ->
    exists raws r',
      rawDeltaPocs n r = Done raws r'
      /\ length raws = n
      /\ readDeltaPocs n (Z.of_nat i) deltaPoc used r =
         Done (take i deltaPoc ++ map (fun x => uint32 (fst x + 1)) raws
                 ++ drop (i + n) deltaPoc,
               take i used ++ map snd raws ++ drop (i + n) used) r'.
Proof.
  induction n as [|n IH]; intros i deltaPoc used r Hd Hu.
  - exists [], r. cbn [rawDeltaPocs readDeltaPocs ret map length app].
    rewrite Nat.add_0_r, !take_drop. auto.
  - cbn [rawDeltaPocs readDeltaPocs].
    destruct (total (m := ReadExpGolomb) r) as (v & r1 & E1).
    rewrite !(bind_eq _ _ _ _ _ E1).
    rewrite (bind_eq _ _ _ _ _ (store_eq deltaPoc i _ r1 ltac:(lia))).
    destruct (total (m := ReadFlag) r1) as (f & r2 & E2).
    rewrite !(bind_eq _ _ _ _ _ E2).
    rewrite (bind_eq _ _ _ _ _ (store_eq used i _ r2 ltac:(lia))).
    replace (Z.of_nat i + 1) with (Z.of_nat (S i)) by lia.
    destruct (IH (S i) (<[i := uint32 (uint (v + 1))]> deltaPoc) (<[i := f]> used) r2)
      as (raws & r' & Eraw & Hlen & Eloop).
    { rewrite length_insert. lia. }
    { rewrite length_insert. lia. }
    exists ((v, f) :: raws), r'.
    rewrite (bind_eq _ _ _ _ _ Eraw). cbn [ret length].
    split; [reflexivity|]. split; [lia|].
    rewrite Eloop. f_equal. f_equal.
    + rewrite (take_S_r _ i (uint32 (uint (v + 1))))
        by (apply list_lookup_insert_eq; lia).
      rewrite take_insert_ge by lia.
      rewrite drop_insert_lt by lia.
      rewrite uint32_uint. cbn [map fst].
      rewrite <- app_assoc. cbn [app].
      replace (S i + n)%nat with (i + S n)%nat by lia. reflexivity.
    + rewrite (take_S_r _ i f) by (apply list_lookup_insert_eq; lia).
      rewrite take_insert_ge by lia.
      rewrite drop_insert_lt by lia.
      cbn [map snd].
      rewrite <- app_assoc. cbn [app].
      replace (S i + n)%nat with (i + S n)%nat by lia. reflexivity.
Qed.

Lemma readDeltaPocs_fresh (n : nat) (r : AccErrEBSPReader) :
  exists raws r',
    rawDeltaPocs n r = Done raws r'
    /\ length raws = n
    /\ readDeltaPocs n 0 (replicate n 0) (replicate n false) r =
       Done (map (fun x => uint32 (fst x + 1)) raws, map snd raws) r'.
Proof.
  destruct (readDeltaPocs_raw n 0 (replicate n 0) (replicate n false) r)
    as (raws & r' & Eraw & Hlen & Eloop).
  { rewrite length_replicate. lia. }
  { rewrite length_replicate. lia. }
  exists raws, r'. split; [exact Eraw|]. split; [exact Hlen|].
  change (Z.of_nat 0) with 0 in Eloop. rewrite Eloop.
  cbn [take app Nat.add].
  rewrite !drop_replicate, Nat.sub_diag. cbn [replicate].
  rewrite !app_nil_r. reflexivity.
Qed.

(** What [parseShortTermRPS] does when the inter-RPS-prediction flag is
    absent or reads false. *)
Lemma parseShortTermRPS_explicit (idx numSTRefPicSets : Z) (sps : SPS)
    (r r1 : AccErrEBSPReader) :
  readInterRPSPredFlag idx r = Done false r1 ->
  exists n r2 p r3,
    ReadExpGolomb r1 = Done n r2
    /\ ReadExpGolomb r2 = Done p r3
    /\ if (maxSTRefPics <? byte n) || (maxSTRefPics <? byte p)
       then exists r',
           SetError TooManyReferencePictures r3 = Done tt r'
           /\ parseShortTermRPS idx numSTRefPicSets sps r =
              Done {| DeltaPocS0 := []; DeltaPocS1 := [];
                      UsedByCurrPicS0 := []; UsedByCurrPicS1 := [];
                      NumNegativePics := byte n; NumPositivePics := byte p;
                      NumDeltaPocs := 0 |} r'
       else exists rawS0 r4 rawS1 r',
           rawDeltaPocs (Z.to_nat (byte n)) r3 = Done rawS0 r4
           /\ rawDeltaPocs (Z.to_nat (byte p)) r4 = Done rawS1 r'
           /\ length rawS0 = Z.to_nat (byte n)
           /\ length rawS1 = Z.to_nat (byte p)
           /\ parseShortTermRPS idx numSTRefPicSets sps r =
              Done {| DeltaPocS0 := map (fun x => uint32 (fst x + 1)) rawS0;
                      DeltaPocS1 := map (fun x => uint32 (fst x + 1)) rawS1;
                      UsedByCurrPicS0 := map snd rawS0;
                      UsedByCurrPicS1 := map snd rawS1;
                      NumNegativePics := byte n; NumPositivePics := byte p;
                      NumDeltaPocs := byte (byte n + byte p) |} r'.
Proof.
  intros Eflag. unfold parseShortTermRPS.
  rewrite (bind_eq _ _ _ _ _ Eflag).
  destruct (total (m := ReadExpGolomb) r1) as (n & r2 & En).
  destruct (total (m := ReadExpGolomb) r2) as (p & r3 & Ep).
  exists n, r2, p, r3. split; [exact En|]. split; [exact Ep|].
  rewrite (bind_eq _ _ _ _ _ En), (bind_eq _ _ _ _ _ Ep).
  destruct ((maxSTRefPics <? byte n) || (maxSTRefPics <? byte p)).
  - destruct (total (m := SetError TooManyReferencePictures) r3) as ([] & r' & Ee).
    exists r'. split; [exact Ee|].
    rewrite (bind_eq _ _ _ _ _ Ee). reflexivity.
  - destruct (readDeltaPocs_fresh (Z.to_nat (byte n)) r3)
      as (rawS0 & r4 & Eraw0 & Hlen0 & Eloop0).
    destruct (readDeltaPocs_fresh (Z.to_nat (byte p)) r4)
      as (rawS1 & r' & Eraw1 & Hlen1 & Eloop1).
    exists rawS0, r4, rawS1, r'.
    repeat (split; [assumption|]).
    rewrite (bind_eq _ _ _ _ _ Eloop0), (bind_eq _ _ _ _ _ Eloop1).
    reflexivity.
Qed.

(** ** The loop over the short-term reference picture sets *)

Lemma parseShortTermRefPicSets_stops (n : nat) (idx : Z) (sps : SPS)
    (r r' : AccErrEBSPReader) (stps : ShortTermRPS) (e : error) :
  parseShortTermRPS idx (NumShortTermRefPicSets sps) sps r = Done stps r' ->
  err r' = Some e ->
  parseShortTermRefPicSets (S n) idx sps r =
  Done (LoopReturn (appendShortTermRPS sps stps) e) r'.
Proof.
  intros E He. cbn [parseShortTermRefPicSets].
  rewrite (bind_eq _ _ _ _ _ E).
  unfold bind, AccError. rewrite He. reflexivity.
Qed.

Lemma parseShortTermRefPicSets_done (k : nat) :
  forall (idx : Z) (sps spsk : SPS) (r rk : AccErrEBSPReader),
    parseShortTermRefPicSets k idx sps r = Done (LoopDone spsk) rk ->
    NumShortTermRefPicSets spsk = NumShortTermRefPicSets sps
    /\ length (ShortTermRefPicSets spsk) = (length (ShortTermRefPicSets sps) + k)%nat
    /\ ((0 < k)%nat -> err rk = None).
Proof.
  induction k as [|k IH]; intros idx sps spsk r rk E.
  - cbn in E. injection E as <- <-. repeat split; try lia.
  - cbn [parseShortTermRefPicSets] in E. unfold bind at 1 in E.
    destruct (parseShortTermRPS idx (NumShortTermRefPicSets sps) sps r)
      as [stps r1|]; [|discriminate].
    unfold bind, AccError in E.
    destruct (err r1) as [e|] eqn:He; [discriminate|].
    destruct (IH _ _ _ _ _ E) as (Hn & Hl & Herr).
    cbn [NumShortTermRefPicSets ShortTermRefPicSets appendShortTermRPS] in Hn, Hl.
    rewrite length_app in Hl. cbn [length] in Hl.
    split; [exact Hn|]. split; [lia|].
    intros _. destruct k as [|k'].
    + cbn in E. injection E as _ <-. exact He.
    + apply Herr. lia.
Qed.

Lemma parseShortTermRefPicSets_split (k : nat) :
  forall (n : nat) (idx : Z) (sps spsk : SPS) (r rk : AccErrEBSPReader),
    0 <= idx -> idx + Z.of_nat k <= 255 ->
    parseShortTermRefPicSets k idx sps r = Done (LoopDone spsk) rk ->
    parseShortTermRefPicSets (k + n) idx sps r =
    parseShortTermRefPicSets n (idx + Z.of_nat k) spsk rk.
Proof.
  induction k as [|k IH]; intros n idx sps spsk r rk H0 H255 E.
  - cbn in E. injection E as <- <-. cbn [Nat.add].
    replace (idx + Z.of_nat 0) with idx by lia. reflexivity.
  - cbn [parseShortTermRefPicSets Nat.add] in E |- *.
    unfold bind at 1 in E. unfold bind at 1.
    destruct (parseShortTermRPS idx (NumShortTermRefPicSets sps) sps r)
      as [stps r1|]; [|discriminate].
    unfold bind at 1 in E. unfold bind at 1.
    unfold AccError in E |- *.
    destruct (err r1) as [e|]; [discriminate|].
    assert (Hb : byte (idx + 1) = idx + 1) by (unfold byte; apply Z.mod_small; lia).
    rewrite Hb in E |- *.
    rewrite (IH n (idx + 1) _ spsk r1 rk) by (lia || exact E).
    f_equal. lia.
Qed.

(** ** Whole units *)

Example ParseSPSNALUnit_plainUnit :
  exists sps,
    @ParseSPSNALUnit hevcExternals plainUnit = Some (Some sps, None)
    /\ SpsID sps = 0 /\ ChromaFormatIDC sps = 1
    /\ PicWidthInLumaSamples sps = 1920 /\ PicHeightInLumaSamples sps = 1088
    /\ ImageSize sps = (1920, 1080)
    /\ ShortTermRefPicSets sps = [] /\ VUI sps = None.
Proof. eexists. split; [vm_compute; reflexivity|]. repeat split. Qed.

Example ParseSPSNALUnit_header_only :
  exists sps,
    @ParseSPSNALUnit hevcExternals (bytesOf [0x42; 0x01]) = Some (Some sps, Some Truncated)
    /\ VpsID sps = 0 /\ SpsID sps = 0 /\ PicWidthInLumaSamples sps = 0
    /\ SubLayeringOrderingInfos sps =
       [ {| MaxDecPicBufferingMinus1 := 0; MaxNumReorderPics := 0;
            MaxLatencyIncreasePlus1 := 0 |} ]
    /\ ShortTermRefPicSets sps = [] /\ VUI sps = None.
Proof. eexists. split; [vm_compute; reflexivity|]. repeat split. Qed.

Example ParseSPSNALUnit_overfullUnit :
  exists sps,
    @ParseSPSNALUnit hevcExternals overfullUnit
    = Some (Some sps, Some TooManyReferencePictures)
    /\ NumShortTermRefPicSets sps = 3
    /\ map NumNegativePics (ShortTermRefPicSets sps) = [1; 17]
    /\ map DeltaPocS0 (ShortTermRefPicSets sps) = [[1]; []].
Proof. eexists. split; [vm_compute; reflexivity|]. repeat split. Qed.

Lemma parseSPSFields_keeps (sps : SPS) :
  returns (parseSPSFields sps) (fun sps' =>
    MaxSubLayersMinus1 sps' = MaxSubLayersMinus1 sps
    /\ ShortTermRefPicSets sps' = ShortTermRefPicSets sps
    /\ 0 <= NumShortTermRefPicSets sps' < 256).
Proof.
  unfold parseSPSFields. returns_tac;
    cbn [MaxSubLayersMinus1 ShortTermRefPicSets NumShortTermRefPicSets];
    auto using byte_range.
Qed.

(** C7.  Let the decode of [data] reach the loop over the short-term
    reference picture sets with record [sps0], and let the first [k]
    entries decode with no error latched.  If the reader has an error
    latched after entry [k] is decoded, the loop is left at once: the
    decode returns the record with that entry appended, [k + 1] entries
    in all however many were announced, together with the latched error,
    and reads nothing further. *)
Theorem ParseSPSNALUnit_stops_at_failed_entry `{Externals}
    (data : list Byte.byte) (sps0 spsk : SPS) (r0 rk r' : AccErrEBSPReader)
    (k m : nat) (stps : ShortTermRPS) (e : error) :
  decodedNaluType data = NALU_SPS ->
  spsBeforeRefPicSets data = Done sps0 r0 ->
  MaxSubLayersMinus1 sps0 = 0 ->
  NumShortTermRefPicSets sps0 = Z.of_nat (k + S m) ->
  parseShortTermRefPicSets k 0 sps0 r0 = Done (LoopDone spsk) rk ->
  parseShortTermRPS (Z.of_nat k) (NumShortTermRefPicSets spsk) spsk rk = Done stps r' ->
  err r' = Some e ->
  parseShortTermRefPicSets (k + S m) 0 sps0 r0 =
    Done (LoopReturn (appendShortTermRPS spsk stps) e) r'
  /\ ParseSPSNALUnit data = Some (Some (appendShortTermRPS spsk stps), Some e)
  /\ ShortTermRefPicSets (appendShortTermRPS spsk stps) = ShortTermRefPicSets spsk ++ [stps]
  /\ length (ShortTermRefPicSets (appendShortTermRPS spsk stps)) = S k.
Proof.
  intros Htype Hbefore Hmsl Hnum Hk Hentry Herr.
  unfold spsBeforeRefPicSets in Hbefore.
  step_in Hbefore. rename a into hdr, r into r1, E into Ehdr.
  step_in Hbefore. rename a into sps, r into r2, E into Esps.
  destruct (parseSPSFields_keeps sps _ _ _ Hbefore) as (Kmsl & Ksets & Knum).
  destruct (parseSPSHeader_fields _ _ _ Esps) as (_ & _ & _ & _ & _ & _ & _ & Ez).
  assert (Hempty : ShortTermRefPicSets sps0 = []) by (rewrite Ksets, Ez; reflexivity).
  destruct (parseShortTermRefPicSets_done _ _ _ _ _ _ Hk) as (Dnum & Dlen & _).
  assert (Hloop : parseShortTermRefPicSets (k + S m) 0 sps0 r0 =
                  Done (LoopReturn (appendShortTermRPS spsk stps) e) r').
  { rewrite (parseShortTermRefPicSets_split k (S m) 0 sps0 spsk r0 rk) by (lia || exact Hk).
    apply parseShortTermRefPicSets_stops; assumption. }
  split; [exact Hloop|]. split.
  - unfold ParseSPSNALUnit, parseSPS.
    rewrite (bind_eq _ _ _ _ _ Ehdr).
    unfold decodedNaluType in Htype. rewrite Ehdr in Htype. cbn [valueOf] in Htype.
    apply Z.eqb_eq in Htype. rewrite Htype. cbn [negb].
    rewrite (bind_eq _ _ _ _ _ Esps).
    rewrite <- Kmsl, Hmsl. cbn [Z.eqb negb].
    rewrite (bind_eq _ _ _ _ _ Hbefore).
    unfold parseSPSRefPicSets. rewrite Hnum, Nat2Z.id.
    rewrite (bind_eq _ _ _ _ _ Hloop). reflexivity.
  - cbn [ShortTermRefPicSets appendShortTermRPS]. split; [reflexivity|].
    rewrite length_app, Dlen, Hempty. cbn [length]. lia.
Qed.

Lemma ParseSPSNALUnit_stops_at_failed_entry_witness :
  exists sps,
    @ParseSPSNALUnit hevcExternals overfullUnit
    = Some (Some sps, Some TooManyReferencePictures)
    /\ NumShortTermRefPicSets sps = 3
    /\ length (ShortTermRefPicSets sps) = 2%nat.
Proof.
  pose (sps0 := valueOf zeroSPS (spsBeforeRefPicSets overfullUnit)).
  pose (r0 := readerOf seventeenNegative (spsBeforeRefPicSets overfullUnit)).
  pose (spsk := match valueOf (LoopDone zeroSPS) (parseShortTermRefPicSets 1 0 sps0 r0) with
                | LoopDone s => s
                | LoopReturn s _ => s
                end).
  pose (rk := readerOf r0 (parseShortTermRefPicSets 1 0 sps0 r0)).
  pose (stps := valueOf zeroShortTermRPS
                  (parseShortTermRPS 1 (NumShortTermRefPicSets spsk) spsk rk)).
  pose (r' := readerOf rk (parseShortTermRPS 1 (NumShortTermRefPicSets spsk) spsk rk)).
  destruct (@ParseSPSNALUnit_stops_at_failed_entry hevcExternals overfullUnit
              sps0 spsk r0 rk r' 1 1 stps TooManyReferencePictures)
    as (_ & E & _ & Hlen); try (vm_compute; reflexivity).
  exists (appendShortTermRPS spsk stps).
  split; [exact E|]. split; [vm_compute; reflexivity|exact Hlen].
Defined.

(** ** Too many reference pictures *)

Lemma SetError_latched (e : error) (r r' : AccErrEBSPReader) :
  SetError e r = Done tt r' ->
  pos r' = pos r /\ buf r' = buf r
  /\ err r' = Some (match err r with Some e0 => e0 | None => e end).
Proof.
  unfold SetError. destruct (err r) eqn:He; intros E; injection E as <-; cbn; auto.
Qed.




(** ** The lists of an explicit entry *)

Lemma returns_bind_with {A B} (m : M A) (k : A -> M B) (Q : A -> Prop) (P : B -> Prop) :
  returns m Q -> (forall a, Q a -> returns (k a) P) -> returns (bind m k) P.
Proof.
  intros Hm Hk r b r' E. unfold bind in E.
  destruct (m r) as [a r1|] eqn:Em; [|discriminate].
  exact (Hk a (Hm _ _ _ Em) r1 b r' E).
Qed.

Lemma ReadExpGolomb_nonneg : returns ReadExpGolomb (fun v => 0 <= v).
Proof.
  unfold ReadExpGolomb. returns_tac; try lia.
  unfold uint. apply Z.mod_pos_bound. lia.
Qed.

Lemma rawDeltaPocs_nonneg (n : nat) :
  returns (rawDeltaPocs n) (Forall (fun x => 0 <= fst x)).
Proof.
  induction n as [|n IH]; cbn [rawDeltaPocs].
  - apply returns_ret. constructor.
  - apply (returns_bind_with _ _ _ _ ReadExpGolomb_nonneg). intros v Hv.
    apply returns_bind. intros f.
    apply (returns_bind_with _ _ _ _ IH). intros rest Hrest.
    apply returns_ret. constructor; [exact Hv|exact Hrest].
Qed.

Lemma stored_delta_exact (raws : list (Z * bool)) (i : nat) (v : Z) (f : bool) :
  Forall (fun x => 0 <= fst x) raws ->
  raws !! i = Some (v, f) -> v < 2 ^ 32 - 1 ->
  map (fun x => uint32 (fst x + 1)) raws !! i = Some (v + 1).
Proof.
  intros Hall Hi Hv.
  rewrite list_lookup_fmap, Hi. cbn [fmap option_fmap option_map fst].
  f_equal. unfold uint32. apply Z.mod_small.
  rewrite Forall_lookup in Hall. specialize (Hall _ _ Hi). cbn [fst] in Hall. lia.
Qed.

(** C10, as the code has it.  For an entry of the explicit branch whose
    two counts are at most 16, the lengths of [DeltaPocS0] and
    [UsedByCurrPicS0] equal [NumNegativePics], those of [DeltaPocS1] and
    [UsedByCurrPicS1] equal [NumPositivePics], [NumDeltaPocs] is the sum
    of the two counts, the flags are the flags read, and every stored
    delta POC is its raw Exp-Golomb code value plus one reduced modulo
    2^32: exactly the value plus one for every code value below
    2^32 - 1. *)
Theorem parseShortTermRPS_explicit_lists
    (idx numSTRefPicSets : Z) (sps : SPS) (r r1 r' : AccErrEBSPReader)
    (stps : ShortTermRPS) :
  readInterRPSPredFlag idx r = Done false r1 ->
  parseShortTermRPS idx numSTRefPicSets sps r = Done stps r' ->
  NumNegativePics stps <= 16 -> NumPositivePics stps <= 16 ->
  exists n r2 p r3 rawS0 r4 rawS1,
    ReadExpGolomb r1 = Done n r2
    /\ ReadExpGolomb r2 = Done p r3
    /\ rawDeltaPocs (Z.to_nat (NumNegativePics stps)) r3 = Done rawS0 r4
    /\ rawDeltaPocs (Z.to_nat (NumPositivePics stps)) r4 = Done rawS1 r'
    /\ Z.of_nat (length (DeltaPocS0 stps)) = NumNegativePics stps
    /\ Z.of_nat (length (UsedByCurrPicS0 stps)) = NumNegativePics stps
    /\ Z.of_nat (length (DeltaPocS1 stps)) = NumPositivePics stps
    /\ Z.of_nat (length (UsedByCurrPicS1 stps)) = NumPositivePics stps
    /\ NumDeltaPocs stps = NumNegativePics stps + NumPositivePics stps
    /\ DeltaPocS0 stps = map (fun x => (fst x + 1) mod 2 ^ 32) rawS0
    /\ DeltaPocS1 stps = map (fun x => (fst x + 1) mod 2 ^ 32) rawS1
    /\ UsedByCurrPicS0 stps = map snd rawS0
    /\ UsedByCurrPicS1 stps = map snd rawS1
    /\ (forall i v f, rawS0 !! i = Some (v, f) -> v < 2 ^ 32 - 1 ->
        DeltaPocS0 stps !! i = Some (v + 1))
    /\ (forall i v f, rawS1 !! i = Some (v, f) -> v < 2 ^ 32 - 1 ->
        DeltaPocS1 stps !! i = Some (v + 1)).
Proof.
  intros Eflag Eparse Hneg Hpos.
  destruct (parseShortTermRPS_explicit idx numSTRefPicSets sps r r1 Eflag)
    as (n & r2 & p & r3 & En & Ep & Hcase).
  unfold maxSTRefPics in Hcase.
  destruct ((16 <? byte n) || (16 <? byte p)) eqn:Hc.
  - destruct Hcase as (r'' & _ & Eparse'). rewrite Eparse' in Eparse.
    injection Eparse as <- <-. cbn [NumNegativePics NumPositivePics] in Hneg, Hpos.
    apply orb_true_iff in Hc. destruct Hc as [Hc|Hc]; apply Z.ltb_lt in Hc; lia.
  - destruct Hcase as (rawS0 & r4 & rawS1 & r'' & Eraw0 & Eraw1 & Hlen0 & Hlen1 & Eparse').
    rewrite Eparse' in Eparse. injection Eparse as <- <-.
    cbn [NumNegativePics NumPositivePics NumDeltaPocs DeltaPocS0 DeltaPocS1
         UsedByCurrPicS0 UsedByCurrPicS1] in *.
    pose proof (byte_range n) as Bn. pose proof (byte_range p) as Bp.
    pose proof (rawDeltaPocs_nonneg _ _ _ _ Eraw0) as Hnn0.
    pose proof (rawDeltaPocs_nonneg _ _ _ _ Eraw1) as Hnn1.
    exists n, r2, p, r3, rawS0, r4, rawS1.
    split; [exact En|]. split; [exact Ep|].
    split; [exact Eraw0|]. split; [exact Eraw1|].
    rewrite !length_map, Hlen0, Hlen1.
    split; [lia|]. split; [lia|]. split; [lia|]. split; [lia|].
    split; [unfold byte at 1; apply Z.mod_small; lia|].
    repeat (split; [reflexivity|]).
    split; intros i v f Hi Hv; eapply stored_delta_exact; eassumption.
Qed.

Lemma parseShortTermRPS_explicit_lists_witness :
  exists stps r',
    parseShortTermRPS 0 3 sps1080 (NewAccErrEBSPReader (bytesOf [0x5c; 0xff])) = Done stps r'
    /\ DeltaPocS0 stps = [1] /\ UsedByCurrPicS0 stps = [true]
    /\ NumDeltaPocs stps = 1.
Proof.
  pose (r := NewAccErrEBSPReader (bytesOf [0x5c; 0xff])).
  pose (stps := valueOf zeroShortTermRPS (parseShortTermRPS 0 3 sps1080 r)).
  pose (r' := readerOf r (parseShortTermRPS 0 3 sps1080 r)).
  destruct (parseShortTermRPS_explicit_lists 0 3 sps1080 r r r' stps)
    as (n & r2 & p & r3 & rawS0 & r4 & rawS1 & En & Ep & Eraw0 & _ & _ & _ & _ & _
        & Hnum & Hd0 & _ & Hu0 & _).
  - reflexivity.
  - vm_compute. reflexivity.
  - vm_compute. discriminate.
  - vm_compute. discriminate.
  - exists stps, r'. split; [vm_compute; reflexivity|].
    vm_compute in En. injection En as <- <-.
    vm_compute in Ep. injection Ep as <- <-.
    vm_compute in Eraw0. injection Eraw0 as <- _.
    split; [rewrite Hd0; reflexivity|]. split; [rewrite Hu0; reflexivity|].
    rewrite Hnum. reflexivity.
Defined.

(** The claim C10 as worded fails for a delta-POC code of 2^32 - 1: the
    entry is decoded with no error, one negative picture, and the stored
    delta POC is 0, not the code value plus one. *)
Lemma parseShortTermRPS_explicit_lists_counterexample :
  parseShortTermRPS 0 1 sps1080 hugeDeltaPoc
  = Done {| DeltaPocS0 := [0]; DeltaPocS1 := [];
            UsedByCurrPicS0 := [true]; UsedByCurrPicS1 := [];
            NumNegativePics := 1; NumPositivePics := 0; NumDeltaPocs := 1 |}
         {| buf := buf hugeDeltaPoc; pos := 70; err := None |}
  /\ (let* _ := ReadExpGolomb in let* _ := ReadExpGolomb in rawDeltaPocs 1) hugeDeltaPoc
     = Done [(2 ^ 32 - 1, true)] {| buf := buf hugeDeltaPoc; pos := 70; err := None |}
  /\ 0 <> (2 ^ 32 - 1) + 1.
Proof.
  split; [vm_compute; reflexivity|]. split; [vm_compute; reflexivity|]. lia.
Qed.

(** ** The inter-prediction branch *)

(** C2, what the code does.  When the inter-RPS-prediction flag reads
    true and [deltaIdx] exceeds [idx], the error is latched but the
    decode goes on: it reads the sign bit and the magnitude, computes
    [refIdx = idx - deltaIdx] in byte arithmetic, which is
    [256 + idx - deltaIdx], and indexes the decoded sets there.  With no
    more than [256 + idx - deltaIdx] sets, in particular with at most
    [idx + 1], the index is out of range and the call panics. *)
Theorem parseShortTermRPS_forward_reference_panics
    (idx numSTRefPicSets : Z) (sps : SPS) (r r1 r2 : AccErrEBSPReader) (deltaIdx : Z) :
  0 <= idx < 256 ->
  readInterRPSPredFlag idx r = Done true r1 ->
  (if idx =? numSTRefPicSets
   then let* deltaIdxMinus1 := ReadExpGolomb in ret (byte (uint (deltaIdxMinus1 + 1)))
   else ret 1) r1 = Done deltaIdx r2 ->
  idx < deltaIdx ->
  Z.of_nat (length (ShortTermRefPicSets sps)) <= 256 + idx - deltaIdx ->
  byte (idx - deltaIdx) = 256 + idx - deltaIdx
  /\ parseShortTermRPS idx numSTRefPicSets sps r = Panic.
Proof.
  intros Hidx Eflag Edelta Hgt Hlen.
  assert (Hd : 0 <= deltaIdx < 256).
  { destruct (idx =? numSTRefPicSets).
    - step_in Edelta. cbn [ret] in Edelta. injection Edelta as <- _. apply byte_range.
    - cbn [ret] in Edelta. injection Edelta as <- _. lia. }
  assert (Hb : byte (idx - deltaIdx) = 256 + idx - deltaIdx).
  { unfold byte. symmetry. apply Z.mod_unique with (q := -1); lia. }
  split; [exact Hb|].
  unfold parseShortTermRPS.
  rewrite (bind_eq _ _ _ _ _ Eflag). cbn iota.
  rewrite (bind_eq _ _ _ _ _ Edelta).
  apply Z.ltb_lt in Hgt. rewrite Hgt.
  do 3 step.
  rewrite Hb. unfold bind, index.
  rewrite lookup_ge_None_2 by lia. reflexivity.
Qed.

Lemma parseShortTermRPS_forward_reference_panics_witness :
  length (ShortTermRefPicSets spsOneSet) = 1%nat
  /\ parseShortTermRPS 1 1 spsOneSet forwardReference = Panic.
Proof.
  split; [reflexivity|].
  apply (parseShortTermRPS_forward_reference_panics 1 1 spsOneSet forwardReference
           {| buf := buf forwardReference; pos := 1; err := None |}
           {| buf := buf forwardReference; pos := 4; err := None |} 2).
  - lia.
  - vm_compute. reflexivity.
  - vm_compute. reflexivity.
  - lia.
  - vm_compute. discriminate.
Defined.

(** Inside the SPS decode the reference stays within the entries decoded
    so far: there [idx < numSTRefPicSets], so [deltaIdx] is 1, and the
    prediction flag is read only when [idx >= 1]. *)
Lemma parseShortTermRPS_in_SPS (idx numSTRefPicSets : Z) (sps : SPS) :
  0 <= idx < numSTRefPicSets -> idx < 256 ->
  Z.of_nat (length (ShortTermRefPicSets sps)) = idx ->
  Total (parseShortTermRPS idx numSTRefPicSets sps).
Proof.
  intros Hidx H256 Hlen r. unfold parseShortTermRPS.
  destruct (total (m := readInterRPSPredFlag idx) r) as (flag & r1 & Eflag).
  destruct flag.
  - assert (Hpos : 0 < idx).
    { unfold readInterRPSPredFlag in Eflag.
      destruct (0 <? idx) eqn:Hlt; [apply Z.ltb_lt in Hlt; exact Hlt|discriminate]. }
    rewrite (bind_eq _ _ _ _ _ Eflag).
    destruct (idx =? numSTRefPicSets) eqn:Eq; [apply Z.eqb_eq in Eq; lia|].
    rewrite (bind_eq _ _ _ _ _ (eq_refl : ret 1 r1 = Done 1 r1)).
    destruct (idx <? 1) eqn:Hlt; [apply Z.ltb_lt in Hlt; lia|].
    do 3 step.
    assert (Hb : byte (idx - 1) = idx - 1) by (unfold byte; apply Z.mod_small; lia).
    rewrite Hb. unfold bind at 1, index.
    destruct (ShortTermRefPicSets sps !! Z.to_nat (idx - 1)) as [ref|] eqn:Hl.
    + destruct (total (m := countDeltaPocs (Z.to_nat (NumDeltaPocs ref)) 0) r3)
        as (c & r4 & Ec).
      rewrite (bind_eq _ _ _ _ _ Ec). eexists _, _. reflexivity.
    + apply lookup_ge_None_1 in Hl. lia.
  - destruct (parseShortTermRPS_explicit idx numSTRefPicSets sps r r1 Eflag)
      as (n & r2 & p & r3 & _ & _ & Hcase).
    unfold parseShortTermRPS in Hcase.
    destruct ((maxSTRefPics <? byte n) || (maxSTRefPics <? byte p)).
    + destruct Hcase as (r' & _ & E). eauto.
    + destruct Hcase as (? & ? & ? & r' & _ & _ & _ & _ & E). eauto.
Qed.

Lemma parseShortTermRefPicSets_total (n : nat) :
  forall (idx : Z) (sps : SPS),
    0 <= idx -> idx + Z.of_nat n = NumShortTermRefPicSets sps ->
    NumShortTermRefPicSets sps < 256 ->
    Z.of_nat (length (ShortTermRefPicSets sps)) = idx ->
    Total (parseShortTermRefPicSets n idx sps).
Proof.
  induction n as [|n IH]; intros idx sps H0 Hn H256 Hlen; cbn [parseShortTermRefPicSets].
  - apply _.
  - intros r.
    destruct (parseShortTermRPS_in_SPS idx (NumShortTermRefPicSets sps) sps
                ltac:(lia) ltac:(lia) Hlen r) as (stps & r1 & E).
    rewrite (bind_eq _ _ _ _ _ E). unfold bind at 1, AccError.
    destruct (err r1); [eexists _, _; reflexivity|].
    assert (Hb : byte (idx + 1) = idx + 1) by (unfold byte; apply Z.mod_small; lia).
    rewrite Hb. apply IH; cbn [NumShortTermRefPicSets ShortTermRefPicSets appendShortTermRPS];
      try lia.
    rewrite length_app. cbn [length]. lia.
Qed.

(** The SPS decode never panics: it returns for every input. *)
Lemma ParseSPSNALUnit_returns `{Externals} (data : list Byte.byte) :
  exists res, ParseSPSNALUnit data = Some res.
Proof.
  unfold ParseSPSNALUnit.
  enough (T : Total parseSPS).
  { destruct (T (NewAccErrEBSPReader data)) as (res & r' & E). rewrite E. eauto. }
  unfold parseSPS. intros r. step.
  destruct (negb _); [eexists _, _; reflexivity|].
  step. rename a0 into sps, E0 into Esps.
  destruct (negb _); [eexists _, _; reflexivity|].
  destruct (total (m := parseSPSFields sps) r1) as (sps0 & r2 & Ef).
  rewrite (bind_eq _ _ _ _ _ Ef).
  destruct (parseSPSFields_keeps sps _ _ _ Ef) as (_ & Ksets & Knum).
  destruct (parseSPSHeader_fields _ _ _ Esps) as (_ & _ & _ & _ & _ & _ & _ & Ez).
  assert (Hempty : ShortTermRefPicSets sps0 = []) by (rewrite Ksets, Ez; reflexivity).
  unfold parseSPSRefPicSets.
  destruct (parseShortTermRefPicSets_total (Z.to_nat (NumShortTermRefPicSets sps0)) 0 sps0
              ltac:(lia) ltac:(lia) ltac:(lia) ltac:(rewrite Hempty; reflexivity) r2)
    as (exit & r3 & El).
  rewrite (bind_eq _ _ _ _ _ El).
  destruct exit as [spsn|spsn e]; [apply total|eexists _, _; reflexivity].
Qed.

(** ** The scaling-list skip *)

(** With the prediction-mode flag set the routine reads the delta
    coefficients and nothing else, for every size class: the statement of
    line 431 has no effect on the reader. *)
Lemma readPastScalingList_predicted (sizeId : Z) (r r1 : AccErrEBSPReader) :
  0 <= sizeId ->
  ReadFlag r = Done true r1 ->
  readPastScalingList sizeId r =
  forRange (Z.to_nat (Z.min 64 (Z.shiftl 1 (4 + 2 * sizeId)))) 0
    (fun _ => let* _ := ReadExpGolomb in ret tt) r1.
Proof.
  intros H0 Eflag. unfold readPastScalingList.
  rewrite (bind_eq _ _ _ _ _ Eflag). cbn [negb].
  rewrite (Z.shiftl_mul_pow2 sizeId 1) by lia. change (2 ^ 1) with 2.
  replace (sizeId * 2) with (2 * sizeId) by lia.
  assert (Ec : (if 64 <? Z.shiftl 1 (4 + 2 * sizeId) then 64
                else Z.shiftl 1 (4 + 2 * sizeId))
               = Z.min 64 (Z.shiftl 1 (4 + 2 * sizeId))).
  { generalize (Z.shiftl 1 (4 + 2 * sizeId)). intros c.
    destruct (64 <? c) eqn:Hlt; [apply Z.ltb_lt in Hlt|apply Z.ltb_ge in Hlt]; lia. }
  rewrite Ec.
  destruct (1 <? sizeId); reflexivity.
Qed.

(** C1, what the code does.  On a list of size class 2 whose
    prediction-mode flag is set, followed by the code 00100 and 64
    one-bit codes, the routine stops after 69 bits: it reads the flag and
    64 codes, the first of them the 5-bit code that holds the DC
    coefficient.  The routine worded by the specification reads the DC
    coefficient first and stops after 70 bits.  On a whole 108-bit
    scaling-list structure with that list in it, the routine ends at bit
    556, the specified one at bit 108. *)
Theorem readPastScalingListData_reads_no_dc_coefficient :
  readPastScalingList 2 scalingListWithDc
  = Done tt {| buf := buf scalingListWithDc; pos := 69; err := None |}
  /\ specReadPastScalingList 2 scalingListWithDc
     = Done tt {| buf := buf scalingListWithDc; pos := 70; err := None |}
  /\ readPastScalingListData scalingListData
     = Done tt {| buf := buf scalingListData; pos := 556; err := None |}
  /\ specReadPastScalingListData scalingListData
     = Done tt {| buf := buf scalingListData; pos := 108; err := None |}.
Proof. repeat split; vm_compute; reflexivity. Qed.

(** ** The latch of the reader *)

Lemma Read_latched (n : nat) (r : AccErrEBSPReader) (e : error) :
  err r = Some e -> Read n r = Done 0 r.
Proof. intros He. unfold Read. rewrite He. reflexivity. Qed.

Lemma ReadFlag_latched (r : AccErrEBSPReader) (e : error) :
  err r = Some e -> ReadFlag r = Done false r.
Proof.
  intros He. unfold ReadFlag. rewrite (bind_eq _ _ _ _ _ (Read_latched 1 r e He)).
  reflexivity.
Qed.

Lemma ReadExpGolomb_latched (r : AccErrEBSPReader) (e : error) :
  err r = Some e -> ReadExpGolomb r = Done 0 r.
Proof.
  intros He. unfold ReadExpGolomb, bind, AccError. rewrite He. reflexivity.
Qed.

Lemma SetError_keeps_first (e e0 : error) (r : AccErrEBSPReader) :
  err r = Some e0 -> SetError e r = Done tt r.
Proof. intros He. unfold SetError. rewrite He. reflexivity. Qed.

(** * Further properties *)

(** ** What the decoders do to the reader *)

Lemma advances_refl (r : AccErrEBSPReader) : advances r r.
Proof. unfold advances. repeat split; auto; lia. Qed.

Lemma advances_trans (r1 r2 r3 : AccErrEBSPReader) :
  advances r1 r2 -> advances r2 r3 -> advances r1 r3.
Proof.
  unfold advances, bitLen.
  intros (Hb1 & Hp1 & Hl1 & He1 & Hw1) (Hb2 & Hp2 & Hl2 & He2 & Hw2).
  split; [congruence|]. split; [lia|]. split; [auto|]. split.
  - intros e He. pose proof (He1 e He) as ->. exact (He2 e He).
  - auto.
Qed.

#[export] Instance Advances_ret {A} (a : A) : Advances (ret a).
Proof. intros r b r' E. injection E as _ <-. apply advances_refl. Qed.

#[export] Instance Advances_bind {A B} (m : M A) (k : A -> M B) :
  Advances m -> (forall a, Advances (k a)) -> Advances (bind m k).
Proof.
  intros Hm Hk r b r' E. unfold bind in E.
  destruct (m r) as [a r1|] eqn:Em; [|discriminate].
  exact (advances_trans _ _ _ (Hm _ _ _ Em) (Hk a _ _ _ E)).
Qed.

#[export] Instance Advances_AccError : Advances AccError.
Proof. intros r a r' E. injection E as _ <-. apply advances_refl. Qed.

Lemma Advances_SetError (e : error) : e <> WrongUnitType -> Advances (SetError e).
Proof.
  intros Hne r a r' E. unfold SetError in E.
  destruct (err r) eqn:He; injection E as _ <-; [apply advances_refl|].
  unfold advances, bitLen. cbn. repeat split; auto; try lia; congruence.
Qed.

#[export] Instance Advances_SetError_Malformed : Advances (SetError Malformed).
Proof. apply Advances_SetError. discriminate. Qed.

#[export] Instance Advances_SetError_TooMany :
  Advances (SetError TooManyReferencePictures).
Proof. apply Advances_SetError. discriminate. Qed.

#[export] Instance Advances_SetError_AspectRatio :
  Advances (SetError UnknownAspectRatioIDC).
Proof. apply Advances_SetError. discriminate. Qed.

#[export] Instance Advances_Read n : Advances (Read n).
Proof.
  intros r a r' E. unfold Read in E.
  destruct (err r) eqn:He; [injection E as _ <-; apply advances_refl|].
  destruct (pos r + Z.of_nat n <=? bitLen r) eqn:Hle; injection E as _ <-;
    unfold advances, bitLen in *; cbn; repeat split; auto; try lia; try congruence.
Qed.

#[export] Instance Advances_index {A} (s : list A) i : Advances (index s i).
Proof.
  intros r a r' E. unfold index in E.
  destruct (s !! Z.to_nat i); [|discriminate].
  injection E as _ <-. apply advances_refl.
Qed.

#[export] Instance Advances_store {A} (s : list A) i v : Advances (store s i v).
Proof.
  intros r a r' E. unfold store in E.
  destruct (decide _); [|discriminate].
  injection E as _ <-. apply advances_refl.
Qed.

#[export] Hint Extern 2 (Advances (match ?x with _ => _ end)) =>
  destruct x : typeclass_instances.

#[export] Instance Advances_ReadFlag : Advances ReadFlag.
Proof. unfold ReadFlag. apply _. Qed.

#[export] Instance Advances_countLeadingZeroBits budget lz :
  Advances (countLeadingZeroBits budget lz).
Proof.
  revert lz. induction budget as [|budget IH]; intros lz; cbn [countLeadingZeroBits];
    apply _.
Qed.

#[export] Instance Advances_ReadExpGolomb : Advances ReadExpGolomb.
Proof. unfold ReadExpGolomb. apply _. Qed.

#[export] Instance Advances_forRange n i (body : Z -> M unit) :
  (forall j, Advances (body j)) -> Advances (forRange n i body).
Proof.
  intros Hb. revert i. induction n as [|n IH]; intros i; cbn [forRange]; apply _.
Qed.

#[export] Instance Advances_parseBitstreamRestrictions :
  Advances parseBitstreamRestrictions.
Proof. unfold parseBitstreamRestrictions. apply _. Qed.

#[export] Instance Advances_parseVUIAfterTiming vui : Advances (parseVUIAfterTiming vui).
Proof. unfold parseVUIAfterTiming. apply _. Qed.

#[export] Instance Advances_parseVUIBeforeTiming `{Externals} :
  Advances parseVUIBeforeTiming.
Proof. unfold parseVUIBeforeTiming. apply _. Qed.

#[export] Instance Advances_parseVUI `{Externals} : Advances parseVUI.
Proof. unfold parseVUI. apply _. Qed.

#[export] Instance Advances_countDeltaPocs n c : Advances (countDeltaPocs n c).
Proof. revert c. induction n as [|n IH]; intros c; cbn [countDeltaPocs]; apply _. Qed.

#[export] Instance Advances_readDeltaPocs n i d u : Advances (readDeltaPocs n i d u).
Proof.
  revert i d u. induction n as [|n IH]; intros i d u; cbn [readDeltaPocs]; apply _.
Qed.

#[export] Instance Advances_readInterRPSPredFlag idx :
  Advances (readInterRPSPredFlag idx).
Proof. unfold readInterRPSPredFlag. apply _. Qed.

#[export] Instance Advances_parseShortTermRPS idx n sps :
  Advances (parseShortTermRPS idx n sps).
Proof. unfold parseShortTermRPS. apply _. Qed.

#[export] Instance Advances_readPastScalingList sizeId :
  Advances (readPastScalingList sizeId).
Proof. unfold readPastScalingList. apply _. Qed.

#[export] Instance Advances_readPastScalingListData : Advances readPastScalingListData.
Proof. unfold readPastScalingListData. apply _. Qed.

#[export] Instance Advances_readSubLayerOrderingInfos n infos :
  Advances (readSubLayerOrderingInfos n infos).
Proof.
  revert infos. induction n as [|n IH]; intros infos;
    cbn [readSubLayerOrderingInfos]; apply _.
Qed.

#[export] Instance Advances_parseSPSFields sps : Advances (parseSPSFields sps).
Proof. unfold parseSPSFields. apply _. Qed.

#[export] Instance Advances_parseSPSHeader : Advances parseSPSHeader.
Proof. unfold parseSPSHeader. apply _. Qed.

#[export] Instance Advances_parseShortTermRefPicSets n idx sps :
  Advances (parseShortTermRefPicSets n idx sps).
Proof.
  revert idx sps. induction n as [|n IH]; intros idx sps;
    cbn [parseShortTermRefPicSets]; apply _.
Qed.

#[export] Instance Advances_parseSPSTrailer `{Externals} sps :
  Advances (parseSPSTrailer sps).
Proof. unfold parseSPSTrailer. apply _. Qed.

#[export] Instance Advances_parseSPSRefPicSets `{Externals} sps :
  Advances (parseSPSRefPicSets sps).
Proof. unfold parseSPSRefPicSets. apply _. Qed.

#[export] Instance Advances_parseSPS `{Externals} : Advances parseSPS.
Proof. unfold parseSPS. apply _. Qed.

(** X1.  Every decoder of the file leaves the byte buffer as it is, never
    moves the bit offset backwards or beyond the end of the buffer, and
    leaves a reader that has already failed exactly as it found it; the
    whole decode of [data] therefore ends with an offset between 0 and
    eight times the length of [data]. *)
Theorem decoders_advance_reader `{Externals} (r r' : AccErrEBSPReader) :
  (forall vui, parseVUI r = Done vui r' -> advances r r')
  /\ (forall br, parseBitstreamRestrictions r = Done br r' -> advances r r')
  /\ (forall idx n sps stps, parseShortTermRPS idx n sps r = Done stps r' -> advances r r')
  /\ (readPastScalingListData r = Done tt r' -> advances r r')
  /\ (forall data res,
        parseSPS (NewAccErrEBSPReader data) = Done res r' ->
        buf r' = data /\ 0 <= pos r' <= 8 * Z.of_nat (length data)).
Proof.
  split; [intros vui E; exact (advances_of _ _ _ E)|].
  split; [intros br E; exact (advances_of _ _ _ E)|].
  split; [intros idx n sps stps E; exact (advances_of _ _ _ E)|].
  split; [intros E; exact (advances_of _ _ _ E)|].
  intros data res E.
  destruct (advances_of _ _ _ E) as (Hb & Hp & Hl & _).
  unfold bitLen in Hl. rewrite Hb in Hl. cbn in Hb, Hp, Hl.
  split; [exact Hb|]. lia.
Qed.

Lemma decoders_advance_reader_witness :
  exists vui r',
    @parseVUI hevcExternals vuiWithHrd = Done vui r'
    /\ buf r' = buf vuiWithHrd /\ pos vuiWithHrd <= pos r'.
Proof.
  destruct (total (m := @parseVUI hevcExternals) vuiWithHrd) as (vui & r' & E).
  exists vui, r'. split; [exact E|].
  destruct (proj1 (@decoders_advance_reader hevcExternals vuiWithHrd r') vui E)
    as (Hb & Hp & _).
  split; assumption.
Defined.

(** ** Decoding with a reader that has failed *)

Lemma forRange_latched (n : nat) (body : Z -> M unit) (r : AccErrEBSPReader) :
  (forall j, body j r = Done tt r) ->
  forall i, forRange n i body r = Done tt r.
Proof.
  intros Hb. induction n as [|n IH]; intros i; cbn [forRange]; [reflexivity|].
  rewrite (bind_eq _ _ _ _ _ (Hb i)). apply IH.
Qed.

Ltac latched He :=
  repeat first
    [ rewrite (bind_eq _ _ _ _ _ (ReadFlag_latched _ _ He))
    | rewrite (bind_eq _ _ _ _ _ (ReadExpGolomb_latched _ _ He))
    | rewrite (bind_eq _ _ _ _ _ (Read_latched _ _ _ He))
    | rewrite (bind_eq _ _ _ _ _ (eq_refl : ret _ _ = Done _ _))
    | progress cbn beta iota ].

Lemma parseBitstreamRestrictions_latched (r : AccErrEBSPReader) (e : error) :
  err r = Some e -> parseBitstreamRestrictions r = Done zeroBitstreamRestrictions r.
Proof. intros He. unfold parseBitstreamRestrictions. latched He. reflexivity. Qed.

Lemma parseVUI_latched `{Externals} (r : AccErrEBSPReader) (e : error) :
  err r = Some e -> parseVUI r = Done zeroVUIParameters r.
Proof.
  intros He. unfold parseVUI, parseVUIBeforeTiming. 
  rewrite (bind_eq _ _ r zeroVUIParameters r).
  - latched He. unfold parseVUIAfterTiming. latched He. reflexivity.
  - latched He. reflexivity.
Qed.

Lemma parseShortTermRPS_latched (idx n : Z) (sps : SPS) (r : AccErrEBSPReader) (e : error) :
  err r = Some e -> parseShortTermRPS idx n sps r = Done zeroShortTermRPS r.
Proof.
  intros He. unfold parseShortTermRPS.
  assert (Ef : readInterRPSPredFlag idx r = Done false r).
  { unfold readInterRPSPredFlag. destruct (0 <? idx); [|reflexivity].
    exact (ReadFlag_latched _ _ He). }
  rewrite (bind_eq _ _ _ _ _ Ef). latched He. reflexivity.
Qed.

Lemma readPastScalingListData_latched (r : AccErrEBSPReader) (e : error) :
  err r = Some e -> readPastScalingListData r = Done tt r.
Proof.
  intros He. unfold readPastScalingListData.
  apply forRange_latched. intros sizeId.
  apply forRange_latched. intros _.
  unfold readPastScalingList. latched He. cbn [negb]. latched He. reflexivity.
Qed.

(** X2.  On a reader that has already failed the sub-decoders read
    nothing and return zero values: [parseVUI] the zero VUI record,
    [parseBitstreamRestrictions] the zero record, [parseShortTermRPS] an
    entry with empty lists and zero counts for every index, and
    [readPastScalingListData] leaves the reader as it is. *)
Theorem sub_decoders_after_failure `{Externals}
    (r : AccErrEBSPReader) (e : error) :
  err r = Some e ->
  parseVUI r = Done zeroVUIParameters r
  /\ parseBitstreamRestrictions r = Done zeroBitstreamRestrictions r
  /\ (forall idx n sps, parseShortTermRPS idx n sps r = Done zeroShortTermRPS r)
  /\ readPastScalingListData r = Done tt r.
Proof.
  intros He.
  split; [exact (parseVUI_latched r e He)|].
  split; [exact (parseBitstreamRestrictions_latched r e He)|].
  split; [intros idx n sps; exact (parseShortTermRPS_latched idx n sps r e He)|].
  exact (readPastScalingListData_latched r e He).
Qed.

Lemma sub_decoders_after_failure_witness :
  @parseVUI hevcExternals
    {| buf := bytesOf [0xff; 0xff]; pos := 3; err := Some Truncated |}
  = Done zeroVUIParameters
      {| buf := bytesOf [0xff; 0xff]; pos := 3; err := Some Truncated |}.
Proof.
  apply (@sub_decoders_after_failure hevcExternals
           {| buf := bytesOf [0xff; 0xff]; pos := 3; err := Some Truncated |}
           Truncated).
  reflexivity.
Defined.

(** ** Inputs that end at the header *)

(** X3.  An input shorter than two bytes has no header to read: the
    header bits read as 0, so the result is the wrong-unit-type error
    with a nil record whenever the type of byte 0 is not SPS, not a
    truncation error.  An input that consists of an SPS header only
    returns the record [spsNothingRead], all fields zero but for one
    zero sub-layer ordering entry, together with the truncation error. *)
Theorem ParseSPSNALUnit_short_input `{Externals} :
  (forall data : list Byte.byte,
     (length data < 2)%nat -> GetNaluType 0 <> NALU_SPS ->
     ParseSPSNALUnit data = Some (None, Some WrongUnitType))
  /\
  (forall b0 b1 : Byte.byte,
     GetNaluType (Z.of_N (Byte.to_N b0)) = NALU_SPS ->
     ParseSPSNALUnit [b0; b1] = Some (Some spsNothingRead, Some Truncated)).
Proof.
  split.
  - intros data Hlen Hne.
    assert (E : Read 16 (NewAccErrEBSPReader data) =
                Done 0 {| buf := data; pos := 0; err := Some Truncated |}).
    { unfold Read, NewAccErrEBSPReader, bitLen. cbn [err pos buf].
      destruct (0 + Z.of_nat 16 <=? 8 * Z.of_nat (length data)) eqn:Hle;
        [apply Z.leb_le in Hle; lia|reflexivity]. }
    unfold ParseSPSNALUnit, parseSPS. rewrite (bind_eq _ _ _ _ _ E).
    change (byte (Z.shiftr 0 8)) with 0.
    apply Z.eqb_neq in Hne. rewrite Hne. reflexivity.
  - intros b0 b1 Htype.
    unfold ParseSPSNALUnit, parseSPS.
    rewrite (bind_eq _ _ _ _ _ (Read_16_header b0 b1 [])).
    rewrite header_type_byte. apply Z.eqb_eq in Htype. rewrite Htype. cbn [negb].
    vm_compute. reflexivity.
Qed.

Lemma ParseSPSNALUnit_short_input_witness :
  @ParseSPSNALUnit hevcExternals [] = Some (None, Some WrongUnitType)
  /\ @ParseSPSNALUnit hevcExternals (bytesOf [0x42; 0x01])
     = Some (Some spsNothingRead, Some Truncated).
Proof.
  split.
  - apply (proj1 (@ParseSPSNALUnit_short_input hevcExternals)).
    + simpl. lia.
    + vm_compute. discriminate.
  - apply (proj2 (@ParseSPSNALUnit_short_input hevcExternals) Byte.x42 Byte.x01).
    reflexivity.
Defined.

(** ** The inter-prediction branch, continued *)

Lemma countDeltaPocs_bounds (n : nat) :
  forall c0, 0 <= c0 -> c0 + Z.of_nat n < 256 ->
    returns (countDeltaPocs n c0) (fun c => c0 <= c <= c0 + Z.of_nat n).
Proof.
  induction n as [|n IH]; intros c0 H0 Hn; cbn [countDeltaPocs].
  - apply returns_ret. lia.
  - apply returns_bind. intros used. apply returns_bind. intros useDelta.
    assert (Hb : byte (c0 + 1) = c0 + 1) by (unfold byte; apply Z.mod_small; lia).
    rewrite Hb.
    destruct (used || useDelta).
    + intros r c r' E.
      pose proof (IH (c0 + 1) ltac:(lia) ltac:(lia) r c r' E) as Hc.
      cbv beta in Hc |- *. lia.
    + intros r c r' E.
      pose proof (IH c0 ltac:(lia) ltac:(lia) r c r' E) as Hc.
      cbv beta in Hc |- *. lia.
Qed.

(** What [parseShortTermRPS] does when the inter-RPS-prediction flag
    reads true and the referenced set exists. *)
Lemma parseShortTermRPS_inter (idx numSTRefPicSets : Z) (sps : SPS)
    (r r1 r2 : AccErrEBSPReader) (deltaIdx : Z) (ref : ShortTermRPS) :
  readInterRPSPredFlag idx r = Done true r1 ->
  (if idx =? numSTRefPicSets
   then let* deltaIdxMinus1 := ReadExpGolomb in ret (byte (uint (deltaIdxMinus1 + 1)))
   else ret 1) r1 = Done deltaIdx r2 ->
  ShortTermRefPicSets sps !! Z.to_nat (byte (idx - deltaIdx)) = Some ref ->
  0 <= NumDeltaPocs ref < 256 ->
  exists n r',
    parseShortTermRPS idx numSTRefPicSets sps r =
    Done {| DeltaPocS0 := []; DeltaPocS1 := [];
            UsedByCurrPicS0 := []; UsedByCurrPicS1 := [];
            NumNegativePics := 0; NumPositivePics := 0; NumDeltaPocs := n |} r'
    /\ 0 <= n <= NumDeltaPocs ref.
Proof.
  intros Eflag Edelta Href Hnum. unfold parseShortTermRPS.
  rewrite (bind_eq _ _ _ _ _ Eflag). cbn iota.
  rewrite (bind_eq _ _ _ _ _ Edelta).
  do 3 step.
  unfold bind at 1, index. rewrite Href.
  destruct (total (m := countDeltaPocs (Z.to_nat (NumDeltaPocs ref)) 0) r4)
    as (n & r' & Ec).
  rewrite (bind_eq _ _ _ _ _ Ec). exists n, r'. split; [reflexivity|].
  pose proof (countDeltaPocs_bounds (Z.to_nat (NumDeltaPocs ref)) 0
                ltac:(lia) ltac:(lia) _ _ _ Ec) as Hc.
  cbv beta in Hc. lia.
Qed.

(** X4.  In the inter-prediction branch with [deltaIdx] between 1 and
    [idx], the decode takes the set at index [idx - deltaIdx] as
    reference and returns an entry with empty delta-POC and flag lists,
    zero picture counts, and a [NumDeltaPocs] that is at most the
    reference's. *)
Theorem parseShortTermRPS_predicted_entry (idx numSTRefPicSets : Z) (sps : SPS)
    (r r1 r2 : AccErrEBSPReader) (deltaIdx : Z) (ref : ShortTermRPS) :
  idx < 256 ->
  readInterRPSPredFlag idx r = Done true r1 ->
  (if idx =? numSTRefPicSets
   then let* deltaIdxMinus1 := ReadExpGolomb in ret (byte (uint (deltaIdxMinus1 + 1)))
   else ret 1) r1 = Done deltaIdx r2 ->
  1 <= deltaIdx <= idx ->
  ShortTermRefPicSets sps !! Z.to_nat (idx - deltaIdx) = Some ref ->
  0 <= NumDeltaPocs ref < 256 ->
  exists stps r',
    parseShortTermRPS idx numSTRefPicSets sps r = Done stps r'
    /\ DeltaPocS0 stps = [] /\ DeltaPocS1 stps = []
    /\ UsedByCurrPicS0 stps = [] /\ UsedByCurrPicS1 stps = []
    /\ NumNegativePics stps = 0 /\ NumPositivePics stps = 0
    /\ 0 <= NumDeltaPocs stps <= NumDeltaPocs ref.
Proof.
  intros H256 Eflag Edelta Hd Href Hnum.
  assert (Hb : byte (idx - deltaIdx) = idx - deltaIdx)
    by (unfold byte; apply Z.mod_small; lia).
  destruct (parseShortTermRPS_inter idx numSTRefPicSets sps r r1 r2 deltaIdx ref
              Eflag Edelta ltac:(rewrite Hb; exact Href) Hnum)
    as (n & r' & E & Hn).
  eexists _, r'. split; [exact E|]. cbn. repeat split; auto; lia.
Qed.

Lemma parseShortTermRPS_predicted_entry_witness :
  exists stps r',
    parseShortTermRPS 2 3 spsTwoSets predictedSet = Done stps r'
    /\ NumDeltaPocs stps <= 3.
Proof.
  destruct (parseShortTermRPS_predicted_entry 2 3 spsTwoSets predictedSet
              {| buf := buf predictedSet; pos := 1; err := None |}
              {| buf := buf predictedSet; pos := 1; err := None |} 1
              {| DeltaPocS0 := [1; 2]; DeltaPocS1 := [1];
                 UsedByCurrPicS0 := [true; true]; UsedByCurrPicS1 := [false];
                 NumNegativePics := 2; NumPositivePics := 1; NumDeltaPocs := 3 |})
    as (stps & r' & E & _ & _ & _ & _ & _ & _ & Hn).
  - lia.
  - vm_compute. reflexivity.
  - reflexivity.
  - lia.
  - reflexivity.
  - simpl. lia.
  - exists stps, r'. split; [exact E|]. simpl in Hn. lia.
Defined.

(** X5.  In the slice-header use ([idx = numSTRefPicSets]) a
    [delta_idx_minus1] whose successor is a multiple of 256 makes
    [deltaIdx] zero: the check [deltaIdx > idx] does not fire, the set
    refers to index [idx] itself, and with at most [idx] sets decoded the
    call panics on the index. *)
Theorem parseShortTermRPS_self_reference_panics (idx : Z) (sps : SPS)
    (r r1 r2 : AccErrEBSPReader) (deltaIdxMinus1 : Z) :
  0 <= idx < 256 ->
  readInterRPSPredFlag idx r = Done true r1 ->
  ReadExpGolomb r1 = Done deltaIdxMinus1 r2 ->
  byte (deltaIdxMinus1 + 1) = 0 ->
  (length (ShortTermRefPicSets sps) <= Z.to_nat idx)%nat ->
  parseShortTermRPS idx idx sps r = Panic.
Proof.
  intros Hidx Eflag Ev Hzero Hlen. unfold parseShortTermRPS.
  rewrite (bind_eq _ _ _ _ _ Eflag). cbn iota.
  rewrite Z.eqb_refl.
  assert (Ed : (let* deltaIdxMinus1 := ReadExpGolomb in
                ret (byte (uint (deltaIdxMinus1 + 1)))) r1 = Done 0 r2).
  { rewrite (bind_eq _ _ _ _ _ Ev). rewrite byte_uint, Hzero. reflexivity. }
  rewrite (bind_eq _ _ _ _ _ Ed).
  destruct (idx <? 0) eqn:Hlt; [apply Z.ltb_lt in Hlt; lia|].
  do 3 step.
  replace (idx - 0) with idx by lia.
  assert (Hb : byte idx = idx) by (unfold byte; apply Z.mod_small; lia).
  rewrite Hb. unfold bind, index.
  rewrite lookup_ge_None_2 by lia. reflexivity.
Qed.

Lemma parseShortTermRPS_self_reference_panics_witness :
  parseShortTermRPS 1 1 spsOneSet selfReference = Panic.
Proof.
  apply (parseShortTermRPS_self_reference_panics 1 spsOneSet selfReference
           {| buf := buf selfReference; pos := 1; err := None |}
           {| buf := buf selfReference; pos := 18; err := None |} 255).
  - lia.
  - vm_compute. reflexivity.
  - vm_compute. reflexivity.
  - reflexivity.
  - simpl. lia.
Defined.

(** ** Presence flags of the VUI *)

Lemma returns_if_else {A} (c : bool) (m : M A) (d : A) :
  returns (if c then m else ret d) (fun a => c = false -> a = d).
Proof.
  destruct c.
  - intros r a r' _ Hc. discriminate.
  - apply returns_ret. reflexivity.
Qed.

Lemma returns_weaken {A} (m : M A) (P Q : A -> Prop) :
  returns m P -> (forall a, P a -> Q a) -> returns m Q.
Proof. intros Hm HPQ r a r' E. exact (HPQ a (Hm r a r' E)). Qed.

Ltac split_conj := repeat match goal with |- _ /\ _ => split end.

(** Go through a sequence, keeping for each conditional read what its
    clear flag implies. *)
Ltac returns_flags :=
  repeat first
    [ eapply returns_bind_with; [solve [apply returns_if_else]|intros ? ?]
    | apply returns_bind; intros ?
    | apply returns_ret
    | match goal with
      | |- returns (match ?x with _ => _ end) _ => destruct x
      end ].

Lemma videoSignalType_fields (videoSignalTypePresentFlag : bool) :
  returns
    (if videoSignalTypePresentFlag then
       let* vf := Read 3 in
       let* full := ReadFlag in
       let* cd := ReadFlag in
       let* colour :=
         (if cd : bool then
            let* cp := Read 8 in
            let* tc := Read 8 in
            let* mc := Read 8 in
            ret (byte cp, byte tc, byte mc)
          else ret (0, 0, 0)) in
       ret (byte vf, full, cd, colour)
     else ret (0, false, false, (0, 0, 0)))
    (fun a =>
       (videoSignalTypePresentFlag = false -> a = (0, false, false, (0, 0, 0)))
       /\ (snd (fst a) = false -> snd a = (0, 0, 0))).
Proof.
  destruct videoSignalTypePresentFlag.
  - returns_flags. cbn [fst snd]. split; [discriminate|assumption].
  - apply returns_ret. cbn [fst snd]. split; reflexivity.
Qed.

Lemma parseVUIBeforeTiming_consistent `{Externals} :
  returns parseVUIBeforeTiming vuiConsistent.
Proof.
  unfold parseVUIBeforeTiming.
  apply returns_bind. intros aspect.
  apply returns_bind. intros [sarW sarH].
  apply returns_bind. intros overscan.
  eapply returns_bind_with; [apply returns_if_else|]. intros appropriate Happ.
  apply returns_bind. intros video.
  eapply returns_bind_with; [apply videoSignalType_fields|].
  intros [[[vf full] cd] [[cp tc] mc]] [Hvideo Hcolour]. cbn [fst snd] in Hcolour.
  apply returns_bind. intros chroma.
  eapply returns_bind_with; [apply returns_if_else|]. intros [top bottom] Hchroma.
  do 4 (apply returns_bind; intros ?).
  eapply returns_bind_with; [apply returns_if_else|].
  intros [[[l rr] t] b] Hddw.
  apply returns_ret. unfold vuiConsistent. cbv beta in *. cbn.
  split_conj; try (split; [discriminate|intros Hn; contradiction]);
    intros Hf; try discriminate;
    repeat match goal with
           | Hi : ?c = false -> _, Hc : ?c = false |- _ => specialize (Hi Hc)
           end;
    split_conj; congruence.
Qed.

Lemma parseVUIAfterTiming_sets (vui : VUIParameters) :
  returns (parseVUIAfterTiming vui) (fun vui' =>
    exists flag br,
      vui' = setBitstreamRestriction vui flag br
      /\ (flag = true <-> br <> None)).
Proof.
  unfold parseVUIAfterTiming. apply returns_bind. intros flag.
  destruct flag.
  - apply returns_bind. intros br. apply returns_ret.
    exists true, (Some br). split; [reflexivity|]. split; [discriminate|reflexivity].
  - apply returns_ret. exists false, None. split; [reflexivity|].
    split; [discriminate|intros Hn; contradiction].
Qed.

Lemma setBitstreamRestriction_consistent (vui : VUIParameters) (flag : bool)
    (br : option BitstreamRestrictions) :
  vuiConsistent vui -> HrdParametersPresentFlag vui = false ->
  (flag = true <-> br <> None) ->
  vuiConsistent (setBitstreamRestriction vui flag br).
Proof.
  unfold vuiConsistent. cbn.
  intros (H1 & H2 & H3 & H4 & H5 & H6 & H7 & _ & _) Hh Hbr.
  split_conj; try assumption.
  intros Hc. congruence.
Qed.

Lemma setTimingInfo_consistent (vui : VUIParameters) (nu ts : Z) (poc : bool)
    (nt : Z) (hrd : bool) :
  vuiConsistent vui -> BitstreamRestrictionFlag vui = false ->
  BitstreamResctrictions vui = None ->
  (poc = false -> nt = 0) ->
  vuiConsistent (setTimingInfo vui true nu ts poc nt hrd).
Proof.
  unfold vuiConsistent. cbn.
  intros (H1 & H2 & H3 & H4 & H5 & _ & _ & _ & _) Hf Hb Hpoc.
  split_conj; try assumption.
  - discriminate.
  - rewrite Hf, Hb. split; [discriminate|intros Hn; contradiction].
  - intros _. exact Hf.
Qed.

Lemma parseVUI_consistent `{Externals} : returns parseVUI vuiConsistent.
Proof.
  unfold parseVUI.
  apply (returns_bind_with _ _ (fun a =>
           vuiConsistent a
           /\ TimingInfoPresentFlag a = false /\ HrdParametersPresentFlag a = false
           /\ BitstreamRestrictionFlag a = false /\ BitstreamResctrictions a = None)).
  { intros r a r' E. split; [exact (parseVUIBeforeTiming_consistent r a r' E)|].
    exact (parseVUIBeforeTiming_zero r a r' E). }
  intros vui0 (Hc0 & _ & Hh0 & Hf0 & Hb0). cbv beta in *.
  apply returns_bind. intros timing. destruct timing.
  - do 3 (apply returns_bind; intros ?).
    eapply returns_bind_with; [apply returns_if_else|]. intros nt Hnt.
    apply returns_bind. intros hrd.
    pose proof (setTimingInfo_consistent vui0 a a0 a1 nt hrd Hc0 Hf0 Hb0 Hnt) as Hc1.
    destruct hrd.
    + apply returns_ret. exact Hc1.
    + eapply returns_weaken; [apply parseVUIAfterTiming_sets|].
      intros vui' (flag & br & -> & Hbr).
      apply setBitstreamRestriction_consistent; [exact Hc1|reflexivity|exact Hbr].
  - eapply returns_weaken; [apply parseVUIAfterTiming_sets|].
    intros vui' (flag & br & -> & Hbr).
    apply setBitstreamRestriction_consistent; [exact Hc0|exact Hh0|exact Hbr].
Qed.

(** X6.  In every VUI record that [parseVUI] returns the conditional
    fields agree with the presence flags: overscan, video signal type,
    colour description, chroma location, default display window, timing
    and POC-proportional fields are zero when their flag is clear; the
    bitstream restrictions are present exactly when
    [BitstreamRestrictionFlag] is set; and with
    [HrdParametersPresentFlag] set there are none. *)
Theorem parseVUI_presence_flags `{Externals} (r r' : AccErrEBSPReader)
    (vui : VUIParameters) :
  parseVUI r = Done vui r' -> vuiConsistent vui.
Proof. apply parseVUI_consistent. Qed.

Lemma parseVUI_presence_flags_witness :
  exists vui r',
    @parseVUI hevcExternals vuiWithHrd = Done vui r'
    /\ HrdParametersPresentFlag vui = true
    /\ BitstreamRestrictionFlag vui = false
    /\ NumTicksPocDiffOneMinus1 vui = 0.
Proof.
  destruct (total (m := @parseVUI hevcExternals) vuiWithHrd) as (vui & r' & E).
  destruct (@parseVUI_presence_flags hevcExternals vuiWithHrd r' vui E)
    as (_ & _ & _ & _ & _ & _ & Hpoc & _ & Hhrd).
  exists vui, r'. split; [exact E|].
  assert (E' := E). vm_compute in E'. injection E' as Ev _.
  assert (Hh : HrdParametersPresentFlag vui = true) by (rewrite <- Ev; reflexivity).
  split; [exact Hh|]. split; [exact (Hhrd Hh)|].
  apply Hpoc. rewrite <- Ev. reflexivity.
Defined.

(** ** The fields between the profile and the reference picture sets *)

Lemma readSubLayerOrderingInfos_length (n : nat) :
  forall infos,
    returns (readSubLayerOrderingInfos n infos)
      (fun l => length l = (length infos + n)%nat).
Proof.
  induction n as [|n IH]; intros infos; cbn [readSubLayerOrderingInfos].
  - apply returns_ret. lia.
  - do 3 (apply returns_bind; intros ?).
    eapply returns_weaken; [apply IH|].
    intros l Hl. cbv beta in Hl. rewrite length_app in Hl. cbn [length] in Hl. lia.
Qed.

Lemma parseSPSFields_consistent (sps : SPS) :
  MaxSubLayersMinus1 sps = 0 ->
  returns (parseSPSFields sps) (fun sps' =>
    fieldsConsistent sps'
    /\ MaxSubLayersMinus1 sps' = 0
    /\ VUIParametersPresentFlag sps' = VUIParametersPresentFlag sps
    /\ VUI sps' = VUI sps).
Proof.
  intros Hmsl. unfold parseSPSFields.
  apply returns_bind. intros spsID.
  apply returns_bind. intros chroma. cbv zeta.
  eapply returns_bind_with; [apply returns_if_else|]. intros sep Hsep.
  do 3 (apply returns_bind; intros ?).
  eapply returns_bind_with; [apply returns_if_else|]. intros cw Hcw.
  do 3 (apply returns_bind; intros ?).
  apply returns_bind. intros orderingFlag. cbv zeta.
  eapply returns_bind_with; [apply readSubLayerOrderingInfos_length|].
  intros infos Hinfos.
  do 6 (apply returns_bind; intros ?).
  apply returns_bind. intros enabled.
  eapply returns_bind_with; [apply returns_if_else|]. intros present Hpresent.
  do 3 (apply returns_bind; intros ?).
  eapply returns_bind_with; [apply returns_if_else|].
  intros [[pcmDepths pcmSizes] disabled] Hpcm.
  apply returns_bind. intros numST.
  apply returns_ret. cbv beta in *.
  unfold fieldsConsistent. cbn. rewrite Hmsl in *. cbn [Z.eqb].
  split_conj; try reflexivity; try apply uint32_range; try apply byte_range.
  - intros Hf. destruct (byte chroma =? 3) eqn:Hc; [apply Z.eqb_eq; exact Hc|].
    rewrite (Hsep eq_refl) in Hf. discriminate.
  - exact Hcw.
  - intros Hf. destruct enabled; [reflexivity|].
    rewrite (Hpresent eq_refl) in Hf. discriminate.
  - intros Hf. specialize (Hpcm Hf). injection Hpcm as -> -> ->. repeat split.
  - rewrite Hinfos. cbn [length]. destruct orderingFlag; reflexivity.
Qed.

(** ** The decoded sets *)

Lemma parseShortTermRPS_entry (idx numSTRefPicSets : Z) (sps : SPS)
    (r r' : AccErrEBSPReader) (stps : ShortTermRPS) :
  Forall wellFormedShortTermRPS (ShortTermRefPicSets sps) ->
  Z.of_nat (length (ShortTermRefPicSets sps)) = idx ->
  idx < numSTRefPicSets -> idx < 256 ->
  parseShortTermRPS idx numSTRefPicSets sps r = Done stps r' ->
  0 <= NumDeltaPocs stps <= 2 * maxSTRefPics
  /\ (err r' = None -> wellFormedShortTermRPS stps).
Proof.
  intros Hwf Hlen Hlt H256 E. unfold maxSTRefPics.
  destruct (total (m := readInterRPSPredFlag idx) r) as (flag & r1 & Eflag).
  destruct flag.
  - assert (Hpos : 0 < idx).
    { unfold readInterRPSPredFlag in Eflag.
      destruct (0 <? idx) eqn:Hp; [apply Z.ltb_lt in Hp; exact Hp|discriminate]. }
    assert (Hb : byte (idx - 1) = idx - 1) by (unfold byte; apply Z.mod_small; lia).
    destruct (lookup_lt_is_Some_2 (ShortTermRefPicSets sps) (Z.to_nat (idx - 1))
                ltac:(lia)) as (ref & Href).
    pose proof (proj1 (Forall_lookup _ _) Hwf _ _ Href) as (_ & _ & _ & _ & _ & _ & Hn).
    unfold maxSTRefPics in Hn.
    destruct (parseShortTermRPS_inter idx numSTRefPicSets sps r r1 r1 1 ref Eflag)
      as (n & r'' & E' & Hbound).
    + destruct (idx =? numSTRefPicSets) eqn:Heq; [apply Z.eqb_eq in Heq; lia|].
      reflexivity.
    + rewrite Hb. exact Href.
    + lia.
    + rewrite E' in E. injection E as <- <-.
      unfold wellFormedShortTermRPS, maxSTRefPics. cbn. split; [lia|].
      intros _. repeat split; lia.
  - destruct (parseShortTermRPS_explicit idx numSTRefPicSets sps r r1 Eflag)
      as (n & r2 & p & r3 & _ & _ & Hcase).
    unfold maxSTRefPics in Hcase.
    pose proof (byte_range n) as Bn. pose proof (byte_range p) as Bp.
    destruct ((16 <? byte n) || (16 <? byte p)) eqn:Hc.
    + destruct Hcase as (r'' & Eset & E'). rewrite E' in E. injection E as <- <-.
      cbn [NumDeltaPocs]. split; [lia|].
      destruct (SetError_latched _ _ _ Eset) as (_ & _ & Herr).
      intros Hnone. rewrite Hnone in Herr. discriminate.
    + destruct Hcase as (rawS0 & r4 & rawS1 & r'' & _ & _ & Hl0 & Hl1 & E').
      rewrite E' in E. injection E as <- <-.
      apply orb_false_elim in Hc. destruct Hc as (Hn & Hp).
      apply Z.ltb_ge in Hn. apply Z.ltb_ge in Hp.
      assert (Hs : byte (byte n + byte p) = byte n + byte p)
        by (unfold byte at 1; apply Z.mod_small; lia).
      unfold wellFormedShortTermRPS, maxSTRefPics. cbn.
      rewrite !length_map, Hl0, Hl1, Hs.
      split; [lia|]. intros _. repeat split; lia.
Qed.

Lemma parseShortTermRefPicSets_entries (n : nat) :
  forall (idx : Z) (sps : SPS) (r r' : AccErrEBSPReader) (exit : loopExit),
    Forall wellFormedShortTermRPS (ShortTermRefPicSets sps) ->
    Z.of_nat (length (ShortTermRefPicSets sps)) = idx ->
    idx + Z.of_nat n = NumShortTermRefPicSets sps ->
    NumShortTermRefPicSets sps < 256 ->
    parseShortTermRefPicSets n idx sps r = Done exit r' ->
    match exit with
    | LoopDone sps' =>
        Forall wellFormedShortTermRPS (ShortTermRefPicSets sps')
        /\ Z.of_nat (length (ShortTermRefPicSets sps')) = NumShortTermRefPicSets sps
    | LoopReturn sps' e =>
        err r' = Some e
        /\ Forall (fun stps => 0 <= NumDeltaPocs stps <= 2 * maxSTRefPics)
             (ShortTermRefPicSets sps')
        /\ Z.of_nat (length (ShortTermRefPicSets sps')) <= NumShortTermRefPicSets sps
    end.
Proof.
  induction n as [|n IH]; intros idx sps r r' exit Hwf Hlen Hn H256 E.
  - cbn in E. injection E as <- <-. split; [exact Hwf|lia].
  - cbn [parseShortTermRefPicSets] in E. unfold bind at 1 in E.
    destruct (parseShortTermRPS idx (NumShortTermRefPicSets sps) sps r)
      as [stps r1|] eqn:Eentry; [|discriminate].
    destruct (parseShortTermRPS_entry idx (NumShortTermRefPicSets sps) sps r r1 stps
                Hwf Hlen ltac:(lia) ltac:(lia) Eentry)
      as (Hbound & Hgood).
    unfold bind at 1, AccError in E.
    destruct (err r1) as [e|] eqn:He.
    + injection E as <- <-. split; [exact He|].
      cbn [ShortTermRefPicSets appendShortTermRPS]. split.
      * apply Forall_app. split; [|constructor; [exact Hbound|constructor]].
        eapply Forall_impl; [exact Hwf|]. intros x Hx. apply Hx.
      * rewrite length_app. cbn [length]. lia.
    + assert (Hb : byte (idx + 1) = idx + 1) by (unfold byte; apply Z.mod_small; lia).
      rewrite Hb in E.
      apply (IH (idx + 1) (appendShortTermRPS sps stps) r1 r' exit); try exact E;
        cbn [ShortTermRefPicSets NumShortTermRefPicSets appendShortTermRPS]; try lia.
      * apply Forall_app. split; [exact Hwf|]. constructor; [auto|constructor].
      * rewrite length_app. cbn [length]. lia.
Qed.

(** Whatever holds of the record and is kept by appending a set holds of
    the record the loop leaves. *)
Lemma parseShortTermRefPicSets_frame (P : SPS -> Prop) :
  (forall sps stps, P sps -> P (appendShortTermRPS sps stps)) ->
  forall (n : nat) (idx : Z) (sps : SPS) (r r' : AccErrEBSPReader) (exit : loopExit),
    P sps ->
    parseShortTermRefPicSets n idx sps r = Done exit r' ->
    P (exitRecord exit).
Proof.
  intros Happ. induction n as [|n IH]; intros idx sps r r' exit HP E.
  - cbn in E. injection E as <- _. exact HP.
  - cbn [parseShortTermRefPicSets] in E. unfold bind at 1 in E.
    destruct (parseShortTermRPS idx (NumShortTermRefPicSets sps) sps r)
      as [stps r1|]; [|discriminate].
    unfold bind at 1, AccError in E.
    destruct (err r1) as [e|].
    + injection E as <- _. cbn [exitRecord]. apply Happ. exact HP.
    + exact (IH _ _ _ _ _ (Happ _ stps HP) E).
Qed.

(** ** The record that the decode returns *)

Lemma parseShortTermRefPicSets_exit_error (n : nat) :
  forall idx sps r sps' e r',
    parseShortTermRefPicSets n idx sps r = Done (LoopReturn sps' e) r' ->
    err r' = Some e.
Proof.
  induction n as [|n IH]; intros idx sps r sps' e r' E.
  - cbn in E. discriminate.
  - cbn [parseShortTermRefPicSets] in E. unfold bind at 1 in E.
    destruct (parseShortTermRPS idx (NumShortTermRefPicSets sps) sps r)
      as [stps r1|]; [|discriminate].
    unfold bind at 1, AccError in E.
    destruct (err r1) as [e1|] eqn:He.
    + injection E as _ <- <-. exact He.
    + exact (IH _ _ _ _ _ _ E).
Qed.

Lemma parseSPSTrailer_result `{Externals} (sps : SPS) (r r' : AccErrEBSPReader)
    (o : option SPS) (e : option error) :
  parseSPSTrailer sps r = Done (o, e) r' ->
  exists longTerm mvp strong vuiFlag vui,
    o = Some (setTrailingFields sps longTerm mvp strong vuiFlag vui)
    /\ e = err r'
    /\ (vuiFlag = true <-> vui <> None)
    /\ (forall v, vui = Some v -> vuiConsistent v).
Proof.
  unfold parseSPSTrailer. intros E.
  do 5 step_in E. rename a3 into vuiFlag.
  destruct (total (m := if vuiFlag
                        then let* vui := parseVUI in ret (Some vui)
                        else ret None) r4) as (vui & r5 & Ev).
  rewrite (bind_eq _ _ _ _ _ Ev) in E.
  unfold bind, AccError, ret in E. injection E as <- <- <-.
  exists a, a1, a2, vuiFlag, vui.
  split; [reflexivity|]. split; [reflexivity|].
  destruct vuiFlag.
  - step_in Ev. cbn [ret] in Ev. injection Ev as <- _.
    split; [split; [discriminate|reflexivity]|].
    intros v Hv. injection Hv as <-. exact (parseVUI_consistent _ _ _ E).
  - cbn [ret] in Ev. injection Ev as <- _.
    split; [split; [discriminate|intros Hn; contradiction]|].
    intros v Hv. discriminate.
Qed.

Lemma fieldsConsistent_append (sps : SPS) (stps : ShortTermRPS) :
  fieldsConsistent sps -> fieldsConsistent (appendShortTermRPS sps stps).
Proof. unfold fieldsConsistent. cbn. auto. Qed.

Lemma fieldsConsistent_trailing (sps : SPS) (a b c d : bool)
    (vui : option VUIParameters) :
  fieldsConsistent sps -> fieldsConsistent (setTrailingFields sps a b c d vui).
Proof. unfold fieldsConsistent. cbn. auto. Qed.

(** Every record that [ParseSPSNALUnit] returns. *)
Lemma ParseSPSNALUnit_record `{Externals} (data : list Byte.byte) (sps : SPS)
    (e : option error) :
  ParseSPSNALUnit data = Some (Some sps, e) ->
  fieldsConsistent sps
  /\ (VUIParametersPresentFlag sps = true <-> VUI sps <> None)
  /\ (forall vui, VUI sps = Some vui -> vuiConsistent vui)
  /\ Z.of_nat (length (ShortTermRefPicSets sps)) <= NumShortTermRefPicSets sps
  /\ (Z.of_nat (length (ShortTermRefPicSets sps)) < NumShortTermRefPicSets sps ->
      e <> None)
  /\ Forall (fun stps => 0 <= NumDeltaPocs stps <= 2 * maxSTRefPics)
       (ShortTermRefPicSets sps)
  /\ (e = None -> Forall wellFormedShortTermRPS (ShortTermRefPicSets sps))
  /\ e <> Some WrongUnitType.
Proof.
  unfold ParseSPSNALUnit.
  destruct (parseSPS (NewAccErrEBSPReader data)) as [res rEnd|] eqn:E; [|discriminate].
  intros Hres. injection Hres as ->.
  unfold parseSPS in E.
  step_in E. rename a into hdr, r into r0, E0 into Ehdr.
  destruct (negb _) in E; [discriminate|].
  step_in E. rename a into hsps, r into r1, E0 into Esps.
  destruct (parseSPSHeader_fields _ _ _ Esps) as (_ & _ & _ & _ & _ & _ & _ & Ez).
  destruct (MaxSubLayersMinus1 hsps =? 0) eqn:Hmsl; cbn [negb] in E.
  - apply Z.eqb_eq in Hmsl.
    step_in E. rename a into fsps, r into r2, E0 into Efields.
    destruct (parseSPSFields_consistent hsps Hmsl _ _ _ Efields)
      as (Hfc & Hmsl' & Hvf & Hvui).
    destruct (parseSPSFields_keeps hsps _ _ _ Efields) as (_ & Ksets & Knum).
    assert (Hempty : ShortTermRefPicSets fsps = []) by (rewrite Ksets, Ez; reflexivity).
    assert (Hvf0 : VUIParametersPresentFlag fsps = false) by (rewrite Hvf, Ez; reflexivity).
    assert (Hvui0 : VUI fsps = None) by (rewrite Hvui, Ez; reflexivity).
    unfold parseSPSRefPicSets in E. unfold bind at 1 in E.
    destruct (parseShortTermRefPicSets (Z.to_nat (NumShortTermRefPicSets fsps)) 0 fsps r2)
      as [exit r3|] eqn:Eloop; [|discriminate].
    pose proof (parseShortTermRefPicSets_entries
                  (Z.to_nat (NumShortTermRefPicSets fsps)) 0 fsps r2 r3 exit
                  ltac:(rewrite Hempty; constructor)
                  ltac:(rewrite Hempty; reflexivity) ltac:(lia) ltac:(lia) Eloop)
      as Hentries.
    pose proof (parseShortTermRefPicSets_frame
                  (fun s => fieldsConsistent s
                            /\ VUIParametersPresentFlag s = false /\ VUI s = None
                            /\ NumShortTermRefPicSets s = NumShortTermRefPicSets fsps)
                  ltac:(intros s x (F1 & F2 & F3 & F4);
                        split; [apply fieldsConsistent_append; exact F1|];
                        cbn; auto)
                  _ _ _ _ _ _ (conj Hfc (conj Hvf0 (conj Hvui0 eq_refl))) Eloop)
      as (Ffc & Fvf & Fvui & Fnum).
    destruct exit as [lsps|lsps le]; cbn [exitRecord] in *.
    + destruct Hentries as (Hwf & Hlen).
      destruct (parseSPSTrailer_result _ _ _ _ _ E)
        as (lt & mvp & strong & vflag & vui & Ho & He & Hflag & Hcons).
      injection Ho as ->.
      cbn [VUIParametersPresentFlag VUI ShortTermRefPicSets NumShortTermRefPicSets
           setTrailingFields].
      split; [apply fieldsConsistent_trailing; exact Ffc|].
      split; [exact Hflag|]. split; [exact Hcons|].
      rewrite Fnum. split; [lia|]. split; [lia|]. split.
      * eapply Forall_impl; [exact Hwf|]. intros x Hx. apply Hx.
      * split; [intros _; exact Hwf|].
        pose proof (advances_of (m := parseSPS) (NewAccErrEBSPReader data)) as Hadv.
        intros Hw. rewrite He in Hw.
        assert (Hall : advances (NewAccErrEBSPReader data) rEnd).
        { eapply advances_trans; [exact (advances_of _ _ _ Ehdr)|].
          eapply advances_trans; [exact (advances_of _ _ _ Esps)|].
          eapply advances_trans; [exact (advances_of _ _ _ Efields)|].
          eapply advances_trans; [exact (advances_of _ _ _ Eloop)|].
          exact (advances_of _ _ _ E). }
        destruct Hall as (_ & _ & _ & _ & Hwrong).
        specialize (Hwrong Hw). discriminate.
    + destruct Hentries as (Herr & Hbound & Hlen).
      cbn [ret] in E. injection E as <- <- <-.
      split; [exact Ffc|]. rewrite Fvf, Fvui.
      split; [split; [discriminate|intros Hn; contradiction]|].
      split; [intros v Hv; discriminate|].
      rewrite Fnum. split; [exact Hlen|]. split; [intros _; discriminate|].
      split; [exact Hbound|]. split; [discriminate|].
      intros Hw. injection Hw as ->.
      assert (Hall : advances (NewAccErrEBSPReader data) r3).
      { eapply advances_trans; [exact (advances_of _ _ _ Ehdr)|].
        eapply advances_trans; [exact (advances_of _ _ _ Esps)|].
        eapply advances_trans; [exact (advances_of _ _ _ Efields)|].
        exact (advances_of _ _ _ Eloop). }
      destruct Hall as (_ & _ & _ & _ & Hwrong).
      specialize (Hwrong Herr). discriminate.
  - cbn [ret] in E. injection E as <- <- _.
    rewrite Ez. unfold fieldsConsistent. cbn. rewrite Hmsl.
    split; [split_conj; try discriminate; try reflexivity; try lia|].
    split; [split; [discriminate|intros Hn; contradiction]|].
    split; [intros v Hv; discriminate|].
    split; [lia|]. split; [lia|]. split; [constructor|].
    split; [intros _; constructor|discriminate].
Qed.

(** The three ways in which the decode ends: at the unit-type check, at
    the sub-layer check with a nil error, or later with the error of the
    reader. *)
Lemma parseSPS_shapes `{Externals} (data : list Byte.byte)
    (o : option SPS) (e : option error) (rEnd : AccErrEBSPReader) :
  parseSPS (NewAccErrEBSPReader data) = Done (o, e) rEnd ->
  (o = None /\ e = Some WrongUnitType /\ decodedNaluType data <> NALU_SPS)
  \/ (decodedNaluType data = NALU_SPS
      /\ exists sps, o = Some sps
         /\ ((MaxSubLayersMinus1 sps <> 0 /\ e = None)
             \/ (MaxSubLayersMinus1 sps = 0 /\ e = err rEnd))).
Proof.
  intros E. unfold parseSPS in E. unfold decodedNaluType.
  step_in E. rename a into hdr, r into r0, E0 into Ehdr.
  rewrite Ehdr. cbn [valueOf].
  destruct (GetNaluType (byte (Z.shiftr hdr 8)) =? NALU_SPS) eqn:Htype; cbn [negb] in E.
  2:{ left. cbn [ret] in E. injection E as <- <- _.
      apply Z.eqb_neq in Htype. auto. }
  right. apply Z.eqb_eq in Htype. split; [exact Htype|].
  step_in E. rename a into hsps, r into r1, E0 into Esps.
  destruct (MaxSubLayersMinus1 hsps =? 0) eqn:Hmsl; cbn [negb] in E.
  2:{ cbn [ret] in E. injection E as <- <- _. exists hsps.
      apply Z.eqb_neq in Hmsl. auto. }
  apply Z.eqb_eq in Hmsl.
  step_in E. rename a into fsps, r into r2, E0 into Efields.
  destruct (parseSPSFields_keeps hsps _ _ _ Efields) as (Kmsl & _ & _).
  unfold parseSPSRefPicSets in E. unfold bind at 1 in E.
  destruct (parseShortTermRefPicSets (Z.to_nat (NumShortTermRefPicSets fsps)) 0 fsps r2)
    as [exit r3|] eqn:Eloop; [|discriminate].
  pose proof (parseShortTermRefPicSets_frame (fun s => MaxSubLayersMinus1 s = 0)
                ltac:(intros s x Hs; exact Hs) _ _ _ _ _ _
                (eq_trans Kmsl Hmsl) Eloop) as Fmsl.
  destruct exit as [lsps|lsps le]; cbn [exitRecord] in Fmsl.
  - destruct (parseSPSTrailer_result _ _ _ _ _ E)
      as (lt & mvp & strong & vflag & vui & Ho & He & _).
    eexists. split; [exact Ho|]. right. split; [exact Fmsl|exact He].
  - pose proof (parseShortTermRefPicSets_exit_error _ _ _ _ _ _ _ Eloop) as Herr.
    cbn [ret] in E. injection E as <- <- <-.
    exists lsps. split; [reflexivity|]. right. split; [exact Fmsl|].
    symmetry. exact Herr.
Qed.

(** X7.  The record is nil exactly when the error is the wrong-unit-type
    error, and exactly when the type decoded from the header is not SPS:
    every other outcome, truncated or malformed input included, comes
    with a record. *)
Theorem ParseSPSNALUnit_nil_record `{Externals} (data : list Byte.byte)
    (o : option SPS) (e : option error) :
  ParseSPSNALUnit data = Some (o, e) ->
  (o = None <-> e = Some WrongUnitType)
  /\ (o = None <-> decodedNaluType data <> NALU_SPS).
Proof.
  intros Hres.
  assert (Hres' := Hres). unfold ParseSPSNALUnit in Hres.
  destruct (parseSPS (NewAccErrEBSPReader data)) as [res rEnd|] eqn:E; [|discriminate].
  injection Hres as ->.
  destruct (parseSPS_shapes data o e rEnd E)
    as [(Ho & He & Ht)|(Ht & sps & Ho & _)].
  - split; split; auto.
  - subst o.
    destruct (ParseSPSNALUnit_record data sps e Hres') as (_ & _ & _ & _ & _ & _ & _ & Hw).
    split; split; intros Hx; try discriminate; contradiction.
Qed.

Lemma ParseSPSNALUnit_nil_record_witness :
  @decodedNaluType hevcExternals plainUnit = @NALU_SPS hevcExternals
  /\ exists sps, @ParseSPSNALUnit hevcExternals plainUnit = Some (Some sps, None).
Proof.
  pose (res := @ParseSPSNALUnit hevcExternals plainUnit).
  assert (E : @ParseSPSNALUnit hevcExternals plainUnit
              = Some (fst (default (None, None) res), snd (default (None, None) res)))
    by (vm_compute; reflexivity).
  destruct (@ParseSPSNALUnit_nil_record hevcExternals plainUnit _ _ E) as (_ & Ht).
  split.
  - destruct (Z.eq_dec (@decodedNaluType hevcExternals plainUnit)
                (@NALU_SPS hevcExternals)) as [Heq|Hne]; [exact Heq|].
    apply Ht in Hne. vm_compute in Hne. discriminate.
  - eexists. vm_compute. reflexivity.
Defined.

(** X8.  The record never holds more sets than [NumShortTermRefPicSets]
    announces; it holds exactly that many when the error is nil, and a
    record with fewer comes with an error. *)
Theorem ParseSPSNALUnit_set_count `{Externals} (data : list Byte.byte)
    (sps : SPS) (e : option error) :
  ParseSPSNALUnit data = Some (Some sps, e) ->
  Z.of_nat (length (ShortTermRefPicSets sps)) <= NumShortTermRefPicSets sps
  /\ (e = None ->
      Z.of_nat (length (ShortTermRefPicSets sps)) = NumShortTermRefPicSets sps)
  /\ (Z.of_nat (length (ShortTermRefPicSets sps)) < NumShortTermRefPicSets sps ->
      e <> None).
Proof.
  intros Hres.
  destruct (ParseSPSNALUnit_record data sps e Hres) as (_ & _ & _ & Hle & Hlt & _).
  split; [exact Hle|]. split; [|exact Hlt].
  intros He.
  destruct (Z.eq_dec (Z.of_nat (length (ShortTermRefPicSets sps)))
              (NumShortTermRefPicSets sps)) as [Heq|Hne]; [exact Heq|].
  exfalso. apply Hlt; [lia|exact He].
Qed.

Lemma ParseSPSNALUnit_set_count_witness :
  exists sps e,
    @ParseSPSNALUnit hevcExternals overfullUnit = Some (Some sps, e)
    /\ Z.of_nat (length (ShortTermRefPicSets sps)) < NumShortTermRefPicSets sps
    /\ e <> None.
Proof.
  pose (res := default (None, None) (@ParseSPSNALUnit hevcExternals overfullUnit)).
  pose (sps := default zeroSPS (fst res)).
  assert (E : @ParseSPSNALUnit hevcExternals overfullUnit = Some (Some sps, snd res))
    by (vm_compute; reflexivity).
  destruct (@ParseSPSNALUnit_set_count hevcExternals overfullUnit sps (snd res) E)
    as (_ & _ & Hlt).
  assert (Hfew : Z.of_nat (length (ShortTermRefPicSets sps)) < NumShortTermRefPicSets sps)
    by (vm_compute; reflexivity).
  exists sps, (snd res). split; [exact E|]. split; [exact Hfew|exact (Hlt Hfew)].
Defined.



(** X10.  In every returned record the conditional fields agree with
    their flags: [SeparateColourPlaneFlag] is set only for chroma format
    3, a clear [ConformanceWindowFlag] comes with a zero window,
    [ScalingListDataPresentFlag] is set only with
    [ScalingListEnabledFlag], a clear [PCMEnabledFlag] comes with zero
    PCM fields, the VUI is present exactly when
    [VUIParametersPresentFlag] is set and is then consistent itself;
    width, height and set count are within their types, and there is
    exactly one sub-layer ordering entry once the decode went past the
    sub-layer check. *)
Theorem ParseSPSNALUnit_presence_flags `{Externals} (data : list Byte.byte)
    (sps : SPS) (e : option error) :
  ParseSPSNALUnit data = Some (Some sps, e) ->
  fieldsConsistent sps
  /\ (VUIParametersPresentFlag sps = true <-> VUI sps <> None)
  /\ (forall vui, VUI sps = Some vui -> vuiConsistent vui).
Proof.
  intros Hres.
  destruct (ParseSPSNALUnit_record data sps e Hres) as (Hf & Hv & Hc & _).
  auto.
Qed.

Lemma ParseSPSNALUnit_presence_flags_witness :
  exists sps e,
    @ParseSPSNALUnit hevcExternals plainUnit = Some (Some sps, e)
    /\ length (SubLayeringOrderingInfos sps) = 1%nat
    /\ VUI sps = None.
Proof.
  pose (res := default (None, None) (@ParseSPSNALUnit hevcExternals plainUnit)).
  pose (sps := default zeroSPS (fst res)).
  assert (E : @ParseSPSNALUnit hevcExternals plainUnit = Some (Some sps, snd res))
    by (vm_compute; reflexivity).
  destruct (@ParseSPSNALUnit_presence_flags hevcExternals plainUnit sps (snd res) E)
    as ((_ & _ & _ & _ & _ & _ & _ & Hinfos) & Hvui & _).
  exists sps, (snd res). split; [exact E|]. split.
  - rewrite Hinfos. reflexivity.
  - destruct (VUI sps) eqn:Hv; [|reflexivity].
    assert (Hf : VUIParametersPresentFlag sps = true) by (apply Hvui; discriminate).
    vm_compute in Hf. discriminate.
Defined.

(** X11.  For a returned record whose [ConformanceWindowFlag] is clear,
    [ImageSize] is the encoded width and height. *)
Theorem ImageSize_without_conformance_window `{Externals} (data : list Byte.byte)
    (sps : SPS) (e : option error) :
  ParseSPSNALUnit data = Some (Some sps, e) ->
  ConformanceWindowFlag sps = false ->
  ImageSize sps = (PicWidthInLumaSamples sps, PicHeightInLumaSamples sps).
Proof.
  intros Hres Hflag.
  destruct (ParseSPSNALUnit_record data sps e Hres)
    as ((_ & Hcw & _ & _ & Hw & Hh & _) & _).
  rewrite ImageSize_eq, (Hcw Hflag).
  cbn [LeftOffset RightOffset TopOffset BottomOffset zeroConformanceWindow].
  change (0 + 0) with 0.
  rewrite !Z.mul_0_l, !Z.sub_0_r.
  unfold uint32. f_equal; apply Z.mod_small; lia.
Qed.

Lemma ImageSize_without_conformance_window_witness :
  exists sps e,
    @ParseSPSNALUnit hevcExternals noWindowUnit = Some (Some sps, e)
    /\ ImageSize sps = (1280, 720).
Proof.
  pose (res := default (None, None) (@ParseSPSNALUnit hevcExternals noWindowUnit)).
  pose (sps := default zeroSPS (fst res)).
  assert (E : @ParseSPSNALUnit hevcExternals noWindowUnit
              = Some (Some sps, snd res)) by (vm_compute; reflexivity).
  exists sps, (snd res). split; [exact E|].
  rewrite (@ImageSize_without_conformance_window hevcExternals _ sps (snd res) E).
  - reflexivity.
  - reflexivity.
Defined.

(** ** Decoding from two readers *)

#[export] Instance Sim_ret {R G A} (a : A) : Sim R G (ret a).
Proof. intros r1 r2 b r1' HR E _. injection E as <- <-. exists r2. auto. Qed.

#[export] Instance Sim_bind `{SimBase R G} {A B} (m : M A) (k : A -> M B) :
  Sim R G m -> (forall a, Sim R G (k a)) -> (forall a, Advances (k a)) ->
  Sim R G (bind m k).
Proof.
  intros Hm Hk Ha r1 r2 b r1'' HR E HG. unfold bind in E.
  destruct (m r1) as [a r1'|] eqn:Em; [|discriminate].
  pose proof (guard_back _ _ (Ha a _ _ _ E) HG) as HG'.
  destruct (Hm _ _ _ _ HR Em HG') as (r2' & Em2 & HR').
  destruct (Hk a _ _ _ _ HR' E HG) as (r2'' & Ek2 & HR'').
  exists r2''. split; [|exact HR'']. unfold bind. rewrite Em2. exact Ek2.
Qed.

#[export] Instance Sim_Read `{SimBase R G} n : Sim R G (Read n).
Proof. apply sim_Read. Qed.

#[export] Instance Sim_SetError `{SimBase R G} e : Sim R G (SetError e).
Proof. apply sim_SetError. Qed.

#[export] Instance Sim_AccError `{SimBase R G} : Sim R G AccError.
Proof. apply sim_AccError. Qed.

#[export] Instance Sim_index {R G A} (s : list A) i : Sim R G (index s i).
Proof.
  intros r1 r2 a r1' HR E _. unfold index in *.
  destruct (s !! Z.to_nat i); [|discriminate].
  injection E as <- <-. exists r2. auto.
Qed.

#[export] Instance Sim_store {R G A} (s : list A) i v : Sim R G (store s i v).
Proof.
  intros r1 r2 a r1' HR E _. unfold store in *.
  destruct (decide _); [|discriminate].
  injection E as <- <-. exists r2. auto.
Qed.

#[export] Hint Extern 2 (Sim _ _ (match ?x with _ => _ end)) =>
  destruct x : typeclass_instances.

#[export] Instance Sim_ReadFlag `{SimBase R G} : Sim R G ReadFlag.
Proof. unfold ReadFlag. apply _. Qed.

#[export] Instance Sim_countLeadingZeroBits `{SimBase R G} budget lz :
  Sim R G (countLeadingZeroBits budget lz).
Proof.
  revert lz. induction budget as [|budget IH]; intros lz; cbn [countLeadingZeroBits];
    apply _.
Qed.

#[export] Instance Sim_ReadExpGolomb `{SimBase R G} : Sim R G ReadExpGolomb.
Proof. unfold ReadExpGolomb. apply _. Qed.

#[export] Instance Sim_forRange `{SimBase R G} n i (body : Z -> M unit) :
  (forall j, Sim R G (body j)) -> (forall j, Advances (body j)) ->
  Sim R G (forRange n i body).
Proof.
  intros Hb Ha. revert i. induction n as [|n IH]; intros i; cbn [forRange]; apply _.
Qed.

#[export] Instance Sim_parseBitstreamRestrictions `{SimBase R G} :
  Sim R G parseBitstreamRestrictions.
Proof. unfold parseBitstreamRestrictions. apply _. Qed.

#[export] Instance Sim_parseVUIAfterTiming `{SimBase R G} vui :
  Sim R G (parseVUIAfterTiming vui).
Proof. unfold parseVUIAfterTiming. apply _. Qed.

#[export] Instance Sim_parseVUIBeforeTiming `{Externals} `{SimBase R G} :
  Sim R G parseVUIBeforeTiming.
Proof. unfold parseVUIBeforeTiming. apply _. Qed.

#[export] Instance Sim_parseVUI `{Externals} `{SimBase R G} : Sim R G parseVUI.
Proof. unfold parseVUI. apply _. Qed.

#[export] Instance Sim_countDeltaPocs `{SimBase R G} n c : Sim R G (countDeltaPocs n c).
Proof. revert c. induction n as [|n IH]; intros c; cbn [countDeltaPocs]; apply _. Qed.

#[export] Instance Sim_readDeltaPocs `{SimBase R G} n i d u :
  Sim R G (readDeltaPocs n i d u).
Proof.
  revert i d u. induction n as [|n IH]; intros i d u; cbn [readDeltaPocs]; apply _.
Qed.

#[export] Instance Sim_readInterRPSPredFlag `{SimBase R G} idx :
  Sim R G (readInterRPSPredFlag idx).
Proof. unfold readInterRPSPredFlag. apply _. Qed.

#[export] Instance Sim_parseShortTermRPS `{SimBase R G} idx n sps :
  Sim R G (parseShortTermRPS idx n sps).
Proof. unfold parseShortTermRPS. apply _. Qed.

#[export] Instance Sim_readPastScalingList `{SimBase R G} sizeId :
  Sim R G (readPastScalingList sizeId).
Proof. unfold readPastScalingList. apply _. Qed.

#[export] Instance Sim_readPastScalingListData `{SimBase R G} :
  Sim R G readPastScalingListData.
Proof. unfold readPastScalingListData. apply _. Qed.

#[export] Instance Sim_readSubLayerOrderingInfos `{SimBase R G} n infos :
  Sim R G (readSubLayerOrderingInfos n infos).
Proof.
  revert infos. induction n as [|n IH]; intros infos;
    cbn [readSubLayerOrderingInfos]; apply _.
Qed.

#[export] Instance Sim_parseSPSFields `{SimBase R G} sps : Sim R G (parseSPSFields sps).
Proof. unfold parseSPSFields. apply _. Qed.

#[export] Instance Sim_parseSPSHeader `{SimBase R G} : Sim R G parseSPSHeader.
Proof. unfold parseSPSHeader. apply _. Qed.

#[export] Instance Sim_parseShortTermRefPicSets `{SimBase R G} n idx sps :
  Sim R G (parseShortTermRefPicSets n idx sps).
Proof.
  revert idx sps. induction n as [|n IH]; intros idx sps;
    cbn [parseShortTermRefPicSets]; apply _.
Qed.

#[export] Instance Sim_parseSPSTrailer `{Externals} `{SimBase R G} sps :
  Sim R G (parseSPSTrailer sps).
Proof. unfold parseSPSTrailer. apply _. Qed.

#[export] Instance Sim_parseSPSRefPicSets `{Externals} `{SimBase R G} sps :
  Sim R G (parseSPSRefPicSets sps).
Proof. unfold parseSPSRefPicSets. apply _. Qed.

#[export] Instance Sim_parseSPS `{Externals} `{SimBase R G} : Sim R G parseSPS.
Proof. unfold parseSPS. apply _. Qed.

Lemma bitAt_app (l extra : list Byte.byte) (i : Z) :
  0 <= i < 8 * Z.of_nat (length l) -> bitAt (l ++ extra) i = bitAt l i.
Proof.
  intros Hi. unfold bitAt.
  assert (0 <= i / 8 < Z.of_nat (length l)).
  { split; [apply Z.div_pos; lia|apply Z.div_lt_upper_bound; lia]. }
  rewrite lookup_app_l by lia. reflexivity.
Qed.

Lemma bitsAt_app_buf (l extra : list Byte.byte) (n : nat) :
  forall p acc, 0 <= p -> p + Z.of_nat n <= 8 * Z.of_nat (length l) ->
    bitsAt (l ++ extra) p n acc = bitsAt l p n acc.
Proof.
  induction n as [|n IH]; intros p acc Hp Hn; cbn [bitsAt]; [reflexivity|].
  rewrite bitAt_app by lia. apply IH; lia.
Qed.

#[export] Instance SimBase_extendedBy (extra : list Byte.byte) :
  SimBase (extendedBy extra) unfailed.
Proof.
  split.
  - intros r r' (_ & _ & _ & Hfail & _) HG. unfold unfailed in *.
    destruct (err r) as [e|] eqn:He; [|reflexivity].
    rewrite (Hfail e eq_refl) in HG. congruence.
  - intros n r1 r2 a r1' (Hb & Hp & H0 & He1 & He2) E HG.
    unfold unfailed in HG. unfold Read in *. rewrite He1 in E. rewrite He2.
    unfold bitLen in *. rewrite Hb, length_app, Hp.
    destruct (pos r1 + Z.of_nat n <=? 8 * Z.of_nat (length (buf r1))) eqn:Hle.
    + apply Z.leb_le in Hle. injection E as <- <-.
      destruct (pos r1 + Z.of_nat n <=? 8 * Z.of_nat (length (buf r1) + length extra))
        eqn:Hle2; [|apply Z.leb_gt in Hle2; lia].
      rewrite bitsAt_app_buf by lia.
      eexists. split; [reflexivity|].
      unfold extendedBy. cbn. repeat split; auto; lia.
    + injection E as _ <-. cbn in HG. discriminate.
  - intros e r1 r2 a r1' (_ & _ & _ & He1 & _) E HG.
    unfold unfailed in HG. unfold SetError in E. rewrite He1 in E.
    injection E as _ <-. cbn in HG. discriminate.
  - intros r1 r2 a r1' HR E _. unfold AccError in *. injection E as <- <-.
    exists r2. split; [|exact HR].
    destruct HR as (_ & _ & _ & He1 & He2). congruence.
Qed.

#[export] Instance SimBase_sameButSecondByte : SimBase sameButSecondByte anyReader.
Proof.
  split.
  - intros; exact I.
  - intros n r1 r2 a r1' (b0 & b1 & b1' & rest & Hb1 & Hb2 & Hp & H16 & He) E _.
    unfold Read in *. rewrite He.
    destruct (err r1) as [e|] eqn:He1.
    + injection E as <- <-. exists r2. split; [reflexivity|].
      exists b0, b1, b1', rest. rewrite He1. auto.
    + unfold bitLen in *. rewrite Hb1 in E. rewrite Hb2, Hp. cbn [length] in *.
      destruct (pos r1 + Z.of_nat n <=? 8 * Z.of_nat (S (S (length rest)))).
      * injection E as <- <-. eexists. split.
        -- f_equal. f_equal.
           replace (pos r1) with (pos r1 - 16 + 8 + 8) by lia.
           rewrite !bitsAt_skip_byte by lia. reflexivity.
        -- exists b0, b1, b1', rest. cbn. repeat split; auto; lia.
      * injection E as <- <-. eexists. split; [reflexivity|].
        exists b0, b1, b1', rest. cbn. repeat split; auto.
  - intros e r1 r2 a r1' (b0 & b1 & b1' & rest & Hb1 & Hb2 & Hp & H16 & He) E _.
    unfold SetError in *. rewrite He. destruct a.
    destruct (err r1) as [e1|] eqn:He1; injection E as <-.
    + exists r2. split; [reflexivity|]. exists b0, b1, b1', rest. rewrite He1. auto.
    + eexists. split; [reflexivity|]. exists b0, b1, b1', rest. cbn. rewrite Hp. auto.
  - intros r1 r2 a r1' HR E _. unfold AccError in *. injection E as <- <-.
    exists r2. split; [|exact HR].
    destruct HR as (? & ? & ? & ? & _ & _ & _ & _ & He). congruence.
Qed.

(** X12.  Bytes after the end of the parameter set do not matter: when
    the decode of [data] went past the sub-layer check and returned a nil
    error, the decode of [data] followed by any further bytes returns
    the same record and a nil error. *)
Theorem ParseSPSNALUnit_ignores_trailing_bytes `{Externals}
    (data extra : list Byte.byte) (sps : SPS) :
  ParseSPSNALUnit data = Some (Some sps, None) ->
  MaxSubLayersMinus1 sps = 0 ->
  ParseSPSNALUnit (data ++ extra) = Some (Some sps, None).
Proof.
  unfold ParseSPSNALUnit. intros Hres Hmsl.
  destruct (parseSPS (NewAccErrEBSPReader data)) as [res rEnd|] eqn:E; [|discriminate].
  injection Hres as ->.
  assert (Hok : err rEnd = None).
  { destruct (parseSPS_shapes data _ _ _ E)
      as [(Ho & _)|(_ & sps' & Ho & [(Hne & _)|(_ & He)])].
    - discriminate.
    - injection Ho as <-. contradiction.
    - symmetry. exact He. }
  destruct (sim (R := extendedBy extra) (G := unfailed) (m := parseSPS)
              (NewAccErrEBSPReader data) (NewAccErrEBSPReader (data ++ extra))
              (Some sps, None) rEnd) as (r2 & E2 & _).
  - unfold extendedBy. cbn. repeat split; auto; lia.
  - exact E.
  - exact Hok.
  - rewrite E2. reflexivity.
Qed.

Lemma ParseSPSNALUnit_ignores_trailing_bytes_witness :
  exists sps,
    @ParseSPSNALUnit hevcExternals (noWindowUnit ++ bytesOf [0x00; 0xff; 0x12])
    = Some (Some sps, None)
    /\ ImageSize sps = (1280, 720).
Proof.
  pose (sps := default zeroSPS
                 (fst (default (None, None) (@ParseSPSNALUnit hevcExternals noWindowUnit)))).
  exists sps. split.
  - apply (@ParseSPSNALUnit_ignores_trailing_bytes hevcExternals).
    + vm_compute. reflexivity.
    + vm_compute. reflexivity.
  - vm_compute. reflexivity.
Defined.


(** ** Panics and the returned error *)

(** X14.  The SPS decode never panics: inside it a predicted set always
    refers to the set decoded just before, so the index of line 377 is in
    range, and every input gives a result. *)
Theorem ParseSPSNALUnit_never_panics `{Externals} (data : list Byte.byte) :
  ParseSPSNALUnit data <> None
  /\ exists o e, ParseSPSNALUnit data = Some (o, e).
Proof.
  destruct (ParseSPSNALUnit_returns data) as ((o & e) & E).
  split; [rewrite E; discriminate|]. exists o, e. exact E.
Qed.

(** X15.  Once the decode is past the sub-layer check, the error it
    returns is the status of the reader at the point of return: nil
    exactly when no read has failed and no error was latched.  At the
    sub-layer check the error is nil whatever the status of the reader
    is. *)
Theorem parseSPS_error_is_reader_status `{Externals} (data : list Byte.byte)
    (sps : SPS) (e : option error) (rEnd : AccErrEBSPReader) :
  parseSPS (NewAccErrEBSPReader data) = Done (Some sps, e) rEnd ->
  (MaxSubLayersMinus1 sps = 0 -> e = err rEnd)
  /\ (MaxSubLayersMinus1 sps <> 0 -> e = None).
Proof.
  intros E.
  destruct (parseSPS_shapes data _ _ _ E)
    as [(Ho & _)|(_ & sps' & Ho & Hcase)]; [discriminate|].
  injection Ho as <-.
  destruct Hcase as [(Hne & He)|(Hz & He)]; split; intros Hm;
    try contradiction; assumption.
Qed.

Lemma parseSPS_error_is_reader_status_witness :
  exists sps rEnd,
    @parseSPS hevcExternals (NewAccErrEBSPReader cutSubLayerUnit)
    = Done (Some sps, None) rEnd
    /\ MaxSubLayersMinus1 sps = 2
    /\ err rEnd = Some Truncated.
Proof.
  pose (out := @parseSPS hevcExternals (NewAccErrEBSPReader cutSubLayerUnit)).
  pose (sps := default zeroSPS (fst (valueOf (None, None) out))).
  pose (e := snd (valueOf (None, None) out)).
  pose (rEnd := readerOf (NewAccErrEBSPReader cutSubLayerUnit) out).
  assert (E : @parseSPS hevcExternals (NewAccErrEBSPReader cutSubLayerUnit)
              = Done (Some sps, e) rEnd) by (vm_compute; reflexivity).
  destruct (@parseSPS_error_is_reader_status hevcExternals _ sps e rEnd E) as (_ & Hnil).
  exists sps, rEnd.
  rewrite <- (Hnil ltac:(vm_compute; discriminate)).
  split; [exact E|]. split; vm_compute; reflexivity.
Defined.

(** ** An aspect ratio that the table does not know *)


